(** * HC08 firmware tools: S-record loader, disassembler and analysis passes

    A shallow embedding of [srec_to_bin.py], [hc08_disasm.py] and
    [analyze_pdm.py], with the string extractor of [find_device_id.py].
    Python integers are [Z]; indices and sizes that the
    code only ever increases from zero are [nat]; a [bytes]/[bytearray]
    buffer is a [list byte]; dictionaries are [gmap]s and the subroutine set
    is a [gset].  Exceptions are values of [exn] carried by the [res] monad,
    and every [while] loop is the fuel-bounded iterator [while] below. *)

From Stdlib Require Import ZArith Lia Strings.Byte Strings.Ascii Strings.String.
From stdpp Require Import gmap strings list fin_maps sorting pretty.

Local Open Scope Z_scope.

(** ** Exceptions and the result monad *)

Inductive exn : Set :=
| IndexError
| ValueError
| TypeError
| OutOfFuel.

Inductive res (A : Type) : Type :=
| OK (a : A)
| Raise (e : exn).

Arguments OK {A} a.
Arguments Raise {A} e.

Definition bind {A B : Type} (m : res A) (k : A -> res B) : res B :=
  match m with
  | OK a => k a
  | Raise e => Raise e
  end.

Notation "'let*' x := m 'in' k" := (bind m (fun x => k))
  (at level 10, x name, m at level 100, k at level 200).
Notation "'let*' ' p := m 'in' k" := (bind m (fun x => match x with p => k end))
  (at level 10, p pattern, m at level 100, k at level 200).

Fixpoint mapM {A B : Type} (f : A -> res B) (l : list A) : res (list B) :=
  match l with
  | [] => OK []
  | a :: l' => let* b := f a in let* bs := mapM f l' in OK (b :: bs)
  end.

(** ** Buffers *)

Definition byte_val (b : byte) : Z := Z.of_N (Byte.to_N b).

(** [data[i]] for an index that is never negative. *)
Definition getb (data : list byte) (i : nat) : res Z :=
  match data !! i with
  | Some b => OK (byte_val b)
  | None => Raise IndexError
  end.

(** The signed reading of a displacement byte, as every pass writes it:
    [if rel > 127: rel -= 256]. *)
Definition signed_rel (rel : Z) : Z := if 127 <? rel then rel - 256 else rel.

(** The 8-bit two's-complement value of a byte, by its definition. *)
Definition twos_complement8 (b : Z) : Z := (b + 128) mod 256 - 128.

(** ** While loops *)

Section While.
Context {St : Type}.
Variable cond : St -> res bool.
Variable body : St -> res St.

Fixpoint while (fuel : nat) (s : St) : res St :=
  match fuel with
  | O => Raise OutOfFuel
  | S fuel' =>
      let* b := cond s in
      if b then let* s' := body s in while fuel' s' else OK s
  end.

(** The states in which the loop body was entered, in order. *)
Fixpoint iterations (fuel : nat) (s : St) : list St :=
  match fuel with
  | O => []
  | S fuel' =>
      match cond s with
      | OK true =>
          s :: match body s with
               | OK s' => iterations fuel' s'
               | Raise _ => []
               end
      | _ => []
      end
  end.
End While.

(** ** Python string formatting *)

Definition hex_digit (d : Z) : ascii :=
  match d with
  | 0 => "0" | 1 => "1" | 2 => "2" | 3 => "3" | 4 => "4" | 5 => "5"
  | 6 => "6" | 7 => "7" | 8 => "8" | 9 => "9" | 10 => "A" | 11 => "B"
  | 12 => "C" | 13 => "D" | 14 => "E" | _ => "F"
  end%char.

Fixpoint hex_go (fuel : nat) (n : Z) (acc : string) : string :=
  match fuel with
  | O => acc
  | S fuel' =>
      let acc' := String (hex_digit (n mod 16)) acc in
      if n <? 16 then acc' else hex_go fuel' (n / 16) acc'
  end.

(** Upper-case hexadecimal digits of a non-negative integer. *)
Definition hex_abs (n : Z) : string := hex_go (S (Z.to_nat (Z.log2 n))) n "".

Fixpoint repeat_char (c : ascii) (n : nat) : string :=
  match n with
  | O => EmptyString
  | S n' => String c (repeat_char c n')
  end.

Definition zfill (w : nat) (s : string) : string :=
  (repeat_char "0" (w - String.length s) +:+ s)%string.

(** [f"{n:0wX}"]: sign-aware zero padding to width [w]. *)
Definition fmt_X (w : nat) (n : Z) : string :=
  if n <? 0 then ("-" +:+ zfill (w - 1) (hex_abs (- n)))%string
  else zfill w (hex_abs n).

(** [f"{s:ws}"]: left-justified in a field of width [w]. *)
Definition fmt_s (w : nat) (s : string) : string :=
  (s +:+ repeat_char " " (w - String.length s))%string.

Fixpoint join (sep : string) (l : list string) : string :=
  match l with
  | [] => EmptyString
  | [s] => s
  | s :: l' => (s +:+ sep +:+ join sep l')%string
  end.

(** * The disassembler, [hc08_disasm.py] *)

Module Disasm.

(** The addressing-mode tags that occur in the two opcode tables. *)
Inductive mode : Set :=
| INH | IMM | DIR | EXT | IX | IX1 | IX2 | REL
| DIR_REL | IMM_REL | IX_REL | IX1_REL
| SP1 | SP2 | SP1_REL.

(** A table entry is [(mnemonic, addressing mode, size in bytes)]. *)

(** The literal part of [HC08_OPCODES]. *)
Definition HC08_OPCODES_literal : list (Z * (string * mode * nat)) := [
    (0x20, ("BRA", REL, 2%nat)); (0x21, ("BRN", REL, 2%nat));
    (0x22, ("BHI", REL, 2%nat)); (0x23, ("BLS", REL, 2%nat));
    (0x24, ("BCC", REL, 2%nat)); (0x25, ("BCS", REL, 2%nat));
    (0x26, ("BNE", REL, 2%nat)); (0x27, ("BEQ", REL, 2%nat));
    (0x28, ("BHCC", REL, 2%nat)); (0x29, ("BHCS", REL, 2%nat));
    (0x2A, ("BPL", REL, 2%nat)); (0x2B, ("BMI", REL, 2%nat));
    (0x2C, ("BMC", REL, 2%nat)); (0x2D, ("BMS", REL, 2%nat));
    (0x2E, ("BIL", REL, 2%nat)); (0x2F, ("BIH", REL, 2%nat));
    (0x30, ("NEG", DIR, 2%nat)); (0x33, ("COM", DIR, 2%nat));
    (0x34, ("LSR", DIR, 2%nat)); (0x36, ("ROR", DIR, 2%nat));
    (0x37, ("ASR", DIR, 2%nat)); (0x38, ("LSL", DIR, 2%nat));
    (0x39, ("ROL", DIR, 2%nat)); (0x3A, ("DEC", DIR, 2%nat));
    (0x3C, ("INC", DIR, 2%nat)); (0x3D, ("TST", DIR, 2%nat));
    (0x3F, ("CLR", DIR, 2%nat)); (0x40, ("NEGA", INH, 1%nat));
    (0x41, ("CBEQA", IMM_REL, 3%nat)); (0x42, ("MUL", INH, 1%nat));
    (0x43, ("COMA", INH, 1%nat)); (0x44, ("LSRA", INH, 1%nat));
    (0x46, ("RORA", INH, 1%nat)); (0x47, ("ASRA", INH, 1%nat));
    (0x48, ("LSLA", INH, 1%nat)); (0x49, ("ROLA", INH, 1%nat));
    (0x4A, ("DECA", INH, 1%nat)); (0x4B, ("DBNZA", REL, 2%nat));
    (0x4C, ("INCA", INH, 1%nat)); (0x4D, ("TSTA", INH, 1%nat));
    (0x4F, ("CLRA", INH, 1%nat)); (0x50, ("NEGX", INH, 1%nat));
    (0x51, ("CBEQX", IMM_REL, 3%nat)); (0x52, ("DIV", INH, 1%nat));
    (0x53, ("COMX", INH, 1%nat)); (0x54, ("LSRX", INH, 1%nat));
    (0x56, ("RORX", INH, 1%nat)); (0x57, ("ASRX", INH, 1%nat));
    (0x58, ("LSLX", INH, 1%nat)); (0x59, ("ROLX", INH, 1%nat));
    (0x5A, ("DECX", INH, 1%nat)); (0x5B, ("DBNZX", REL, 2%nat));
    (0x5C, ("INCX", INH, 1%nat)); (0x5D, ("TSTX", INH, 1%nat));
    (0x5F, ("CLRX", INH, 1%nat)); (0x60, ("NEG", IX, 1%nat));
    (0x61, ("CBEQ", IX_REL, 2%nat)); (0x63, ("COM", IX, 1%nat));
    (0x64, ("LSR", IX, 1%nat)); (0x66, ("ROR", IX, 1%nat));
    (0x67, ("ASR", IX, 1%nat)); (0x68, ("LSL", IX, 1%nat));
    (0x69, ("ROL", IX, 1%nat)); (0x6A, ("DEC", IX, 1%nat));
    (0x6B, ("DBNZ", IX_REL, 2%nat)); (0x6C, ("INC", IX, 1%nat));
    (0x6D, ("TST", IX, 1%nat)); (0x6F, ("CLR", IX, 1%nat));
    (0x70, ("NEG", IX1, 2%nat)); (0x71, ("CBEQ", IX1_REL, 3%nat));
    (0x73, ("COM", IX1, 2%nat)); (0x74, ("LSR", IX1, 2%nat));
    (0x76, ("ROR", IX1, 2%nat)); (0x77, ("ASR", IX1, 2%nat));
    (0x78, ("LSL", IX1, 2%nat)); (0x79, ("ROL", IX1, 2%nat));
    (0x7A, ("DEC", IX1, 2%nat)); (0x7B, ("DBNZ", IX1_REL, 3%nat));
    (0x7C, ("INC", IX1, 2%nat)); (0x7D, ("TST", IX1, 2%nat));
    (0x7F, ("CLR", IX1, 2%nat)); (0x80, ("RTI", INH, 1%nat));
    (0x81, ("RTS", INH, 1%nat)); (0x83, ("SWI", INH, 1%nat));
    (0x84, ("TAP", INH, 1%nat)); (0x85, ("TPA", INH, 1%nat));
    (0x86, ("PULA", INH, 1%nat)); (0x87, ("PSHA", INH, 1%nat));
    (0x88, ("PULX", INH, 1%nat)); (0x89, ("PSHX", INH, 1%nat));
    (0x8A, ("PULH", INH, 1%nat)); (0x8B, ("PSHH", INH, 1%nat));
    (0x8C, ("CLRH", INH, 1%nat)); (0x8E, ("STOP", INH, 1%nat));
    (0x8F, ("WAIT", INH, 1%nat)); (0x90, ("BGE", REL, 2%nat));
    (0x91, ("BLT", REL, 2%nat)); (0x92, ("BGT", REL, 2%nat));
    (0x93, ("BLE", REL, 2%nat)); (0x94, ("TXS", INH, 1%nat));
    (0x95, ("TSX", INH, 1%nat)); (0x97, ("TAX", INH, 1%nat));
    (0x98, ("CLC", INH, 1%nat)); (0x99, ("SEC", INH, 1%nat));
    (0x9A, ("CLI", INH, 1%nat)); (0x9B, ("SEI", INH, 1%nat));
    (0x9C, ("RSP", INH, 1%nat)); (0x9D, ("NOP", INH, 1%nat));
    (0x9F, ("TXA", INH, 1%nat)); (0xA0, ("SUB", IMM, 2%nat));
    (0xA1, ("CMP", IMM, 2%nat)); (0xA2, ("SBC", IMM, 2%nat));
    (0xA3, ("CPX", IMM, 2%nat)); (0xA4, ("AND", IMM, 2%nat));
    (0xA5, ("BIT", IMM, 2%nat)); (0xA6, ("LDA", IMM, 2%nat));
    (0xA8, ("EOR", IMM, 2%nat)); (0xA9, ("ADC", IMM, 2%nat));
    (0xAA, ("ORA", IMM, 2%nat)); (0xAB, ("ADD", IMM, 2%nat));
    (0xAD, ("BSR", REL, 2%nat)); (0xAE, ("LDX", IMM, 2%nat));
    (0xAF, ("AIX", IMM, 2%nat)); (0xB0, ("SUB", DIR, 2%nat));
    (0xB1, ("CMP", DIR, 2%nat)); (0xB2, ("SBC", DIR, 2%nat));
    (0xB3, ("CPX", DIR, 2%nat)); (0xB4, ("AND", DIR, 2%nat));
    (0xB5, ("BIT", DIR, 2%nat)); (0xB6, ("LDA", DIR, 2%nat));
    (0xB7, ("STA", DIR, 2%nat)); (0xB8, ("EOR", DIR, 2%nat));
    (0xB9, ("ADC", DIR, 2%nat)); (0xBA, ("ORA", DIR, 2%nat));
    (0xBB, ("ADD", DIR, 2%nat)); (0xBC, ("JMP", DIR, 2%nat));
    (0xBD, ("JSR", DIR, 2%nat)); (0xBE, ("LDX", DIR, 2%nat));
    (0xBF, ("STX", DIR, 2%nat)); (0xC0, ("SUB", EXT, 3%nat));
    (0xC1, ("CMP", EXT, 3%nat)); (0xC2, ("SBC", EXT, 3%nat));
    (0xC3, ("CPX", EXT, 3%nat)); (0xC4, ("AND", EXT, 3%nat));
    (0xC5, ("BIT", EXT, 3%nat)); (0xC6, ("LDA", EXT, 3%nat));
    (0xC7, ("STA", EXT, 3%nat)); (0xC8, ("EOR", EXT, 3%nat));
    (0xC9, ("ADC", EXT, 3%nat)); (0xCA, ("ORA", EXT, 3%nat));
    (0xCB, ("ADD", EXT, 3%nat)); (0xCC, ("JMP", EXT, 3%nat));
    (0xCD, ("JSR", EXT, 3%nat)); (0xCE, ("LDX", EXT, 3%nat));
    (0xCF, ("STX", EXT, 3%nat)); (0xD0, ("SUB", IX2, 3%nat));
    (0xD1, ("CMP", IX2, 3%nat)); (0xD2, ("SBC", IX2, 3%nat));
    (0xD3, ("CPX", IX2, 3%nat)); (0xD4, ("AND", IX2, 3%nat));
    (0xD5, ("BIT", IX2, 3%nat)); (0xD6, ("LDA", IX2, 3%nat));
    (0xD7, ("STA", IX2, 3%nat)); (0xD8, ("EOR", IX2, 3%nat));
    (0xD9, ("ADC", IX2, 3%nat)); (0xDA, ("ORA", IX2, 3%nat));
    (0xDB, ("ADD", IX2, 3%nat)); (0xDC, ("JMP", IX2, 3%nat));
    (0xDD, ("JSR", IX2, 3%nat)); (0xDE, ("LDX", IX2, 3%nat));
    (0xDF, ("STX", IX2, 3%nat)); (0xE0, ("SUB", IX1, 2%nat));
    (0xE1, ("CMP", IX1, 2%nat)); (0xE2, ("SBC", IX1, 2%nat));
    (0xE3, ("CPX", IX1, 2%nat)); (0xE4, ("AND", IX1, 2%nat));
    (0xE5, ("BIT", IX1, 2%nat)); (0xE6, ("LDA", IX1, 2%nat));
    (0xE7, ("STA", IX1, 2%nat)); (0xE8, ("EOR", IX1, 2%nat));
    (0xE9, ("ADC", IX1, 2%nat)); (0xEA, ("ORA", IX1, 2%nat));
    (0xEB, ("ADD", IX1, 2%nat)); (0xEC, ("JMP", IX1, 2%nat));
    (0xED, ("JSR", IX1, 2%nat)); (0xEE, ("LDX", IX1, 2%nat));
    (0xEF, ("STX", IX1, 2%nat)); (0xF0, ("SUB", IX, 1%nat));
    (0xF1, ("CMP", IX, 1%nat)); (0xF2, ("SBC", IX, 1%nat));
    (0xF3, ("CPX", IX, 1%nat)); (0xF4, ("AND", IX, 1%nat));
    (0xF5, ("BIT", IX, 1%nat)); (0xF6, ("LDA", IX, 1%nat));
    (0xF7, ("STA", IX, 1%nat)); (0xF8, ("EOR", IX, 1%nat));
    (0xF9, ("ADC", IX, 1%nat)); (0xFA, ("ORA", IX, 1%nat));
    (0xFB, ("ADD", IX, 1%nat)); (0xFC, ("JMP", IX, 1%nat));
    (0xFD, ("JSR", IX, 1%nat)); (0xFE, ("LDX", IX, 1%nat));
    (0xFF, ("STX", IX, 1%nat))
  ].

(** One round of the loop [for i in range(8)] that adds the bit
    manipulation opcodes 0x00-0x1F. *)
Definition add_bit_opcodes (m : gmap Z (string * mode * nat)) (i : nat) : gmap Z (string * mode * nat) :=
  let m1 := <[0x00 + Z.of_nat i * 2 := ("BRSET" +:+ pretty i, DIR_REL, 3%nat)]> m in
  let m2 := <[0x01 + Z.of_nat i * 2 := ("BRCLR" +:+ pretty i, DIR_REL, 3%nat)]> m1 in
  let m3 := <[0x10 + Z.of_nat i * 2 := ("BSET" +:+ pretty i, DIR, 2%nat)]> m2 in
  <[0x11 + Z.of_nat i * 2 := ("BCLR" +:+ pretty i, DIR, 2%nat)]> m3.

Definition HC08_OPCODES : gmap Z (string * mode * nat) :=
  foldl add_bit_opcodes (list_to_map HC08_OPCODES_literal) (seq 0 8).

(** Opcodes behind the 0x9E prefix; sizes do not count the prefix. *)
Definition HC08_9E_OPCODES_literal : list (Z * (string * mode * nat)) := [
    (0x60, ("NEG", SP1, 2%nat)); (0x63, ("COM", SP1, 2%nat));
    (0x64, ("LSR", SP1, 2%nat)); (0x66, ("ROR", SP1, 2%nat));
    (0x67, ("ASR", SP1, 2%nat)); (0x68, ("LSL", SP1, 2%nat));
    (0x69, ("ROL", SP1, 2%nat)); (0x6A, ("DEC", SP1, 2%nat));
    (0x6B, ("DBNZ", SP1_REL, 3%nat)); (0x6C, ("INC", SP1, 2%nat));
    (0x6D, ("TST", SP1, 2%nat)); (0x6F, ("CLR", SP1, 2%nat));
    (0xD0, ("SUB", SP2, 3%nat)); (0xD1, ("CMP", SP2, 3%nat));
    (0xD2, ("SBC", SP2, 3%nat)); (0xD3, ("CPX", SP2, 3%nat));
    (0xD4, ("AND", SP2, 3%nat)); (0xD5, ("BIT", SP2, 3%nat));
    (0xD6, ("LDA", SP2, 3%nat)); (0xD7, ("STA", SP2, 3%nat));
    (0xD8, ("EOR", SP2, 3%nat)); (0xD9, ("ADC", SP2, 3%nat));
    (0xDA, ("ORA", SP2, 3%nat)); (0xDB, ("ADD", SP2, 3%nat));
    (0xE0, ("SUB", SP1, 2%nat)); (0xE1, ("CMP", SP1, 2%nat));
    (0xE2, ("SBC", SP1, 2%nat)); (0xE3, ("CPX", SP1, 2%nat));
    (0xE4, ("AND", SP1, 2%nat)); (0xE5, ("BIT", SP1, 2%nat));
    (0xE6, ("LDA", SP1, 2%nat)); (0xE7, ("STA", SP1, 2%nat));
    (0xE8, ("EOR", SP1, 2%nat)); (0xE9, ("ADC", SP1, 2%nat));
    (0xEA, ("ORA", SP1, 2%nat)); (0xEB, ("ADD", SP1, 2%nat))
  ].

Definition HC08_9E_OPCODES : gmap Z (string * mode * nat) := list_to_map HC08_9E_OPCODES_literal.

Definition IO_REGS_literal : list (Z * string) := [
    (0x00, "PORTA"); (0x01, "PORTB"); (0x02, "PORTC"); (0x03, "PORTD");
    (0x04, "DDRA"); (0x05, "DDRB"); (0x06, "DDRC"); (0x07, "DDRD");
    (0x08, "PORTE"); (0x09, "PORTF"); (0x0A, "PORTG"); (0x0C, "DDRE");
    (0x0D, "DDRF"); (0x0E, "DDRG"); (0x10, "PTAPUE"); (0x11, "PTBPUE");
    (0x12, "PTCPUE"); (0x13, "PTDPUE"); (0x1A, "SCI1S1"); (0x1B, "SCI1S2");
    (0x1C, "SCI1C1"); (0x1D, "SCI1C2"); (0x1E, "SCI1C3"); (0x1F, "SCI1D");
    (0x20, "SPIC1"); (0x21, "SPIC2"); (0x22, "SPIBR"); (0x23, "SPIS");
    (0x25, "SPID"); (0x30, "T1SC"); (0x31, "T1CNTH"); (0x32, "T1CNTL");
    (0x33, "T1MODH"); (0x34, "T1MODL"); (0x35, "T1SC0"); (0x36, "T1CH0H");
    (0x37, "T1CH0L"); (0x38, "T1SC1"); (0x39, "T1CH1H"); (0x3A, "T1CH1L");
    (0x40, "ADCSC1"); (0x41, "ADCSC2"); (0x42, "ADCRH"); (0x43, "ADCRL");
    (0x48, "CANCTL0"); (0x49, "CANCTL1"); (0x4A, "CANBTR0"); (0x4B, "CANBTR1");
    (0x4C, "CANRFLG"); (0x4D, "CANRIER"); (0x4E, "CANTFLG"); (0x4F, "CANTIER")
  ].

Definition IO_REGS : gmap Z string := list_to_map IO_REGS_literal.

Definition get_reg_name (addr : Z) : option string :=
  match IO_REGS !! addr with
  | Some name => Some name
  | None =>
      if addr <? 0x40 then Some ("REG_" +:+ fmt_X 2 addr)
      else if addr <? 0x0840 then Some ("RAM_" +:+ fmt_X 4 addr)
      else None
  end.

(** Python truthiness of [reg_name]: neither [None] nor the empty string. *)
Definition truthy (o : option string) : option string :=
  match o with
  | Some EmptyString => None
  | _ => o
  end.

(** What one iteration of the loop in [disassemble] computes: the
    instruction's address, the bytes shown in [bytes_str], mnemonic,
    operand text and the amount [size] by which [pc] advances. *)
Record insn : Type := mk_insn {
  i_addr : Z;
  i_bytes : list Z;
  i_mnem : string;
  i_operand : string;
  i_size : nat;
  i_line : string  (* the text appended to [output] *)
}.

(** The line appended to [output] for a decoded instruction. *)
Definition render (addr : Z) (bs : list Z) (mnem operand : string) : string :=
  fmt_X 4 addr +:+ ": " +:+ fmt_s 15 (join " " (map (fmt_X 2) bs))
    +:+ " " +:+ fmt_s 8 mnem +:+ " " +:+ operand.

Definition decoded (addr : Z) (bs : list Z) (mnem operand : string) (size : nat) : insn :=
  mk_insn addr bs mnem operand size (render addr bs mnem operand).

(** The line appended for an undecoded byte. *)
Definition render_db (addr opcode : Z) : string :=
  fmt_X 4 addr +:+ ": " +:+ fmt_X 2 opcode +:+ "              DB       $" +:+ fmt_X 2 opcode.

(** The 1-byte record of an undecoded byte: the pseudo-instruction [DB]. *)
Definition db_insn (addr opcode : Z) : insn :=
  mk_insn addr [opcode] "DB" ("$" +:+ fmt_X 2 opcode) 1 (render_db addr opcode).

Section Decode.
Variable data : list byte.
Variable base_addr : Z.

Definition read_bytes (pc n : nat) : res (list Z) :=
  mapM (fun i => getb data (pc + i)) (seq 0 n).

(** Operand of an instruction behind the 0x9E prefix; [size] counts the
    prefix. *)
Definition operand_9E (md : mode) (pc size : nat) : res string :=
  let addr := base_addr + Z.of_nat pc in
  match md with
  | SP1 =>
      if (pc + 2 <? length data)%nat then
        let* offset := getb data (pc + 2) in
        OK (("$" +:+ fmt_X 2 offset +:+ ",SP")%string)
      else OK "???"
  | SP2 =>
      if (pc + 3 <? length data)%nat then
        let* hi := getb data (pc + 2) in
        let* lo := getb data (pc + 3) in
        let offset := Z.lor (Z.shiftl hi 8) lo in
        OK (("$" +:+ fmt_X 4 offset +:+ ",SP")%string)
      else OK "???"
  | SP1_REL =>
      if (pc + 3 <? length data)%nat then
        let* offset := getb data (pc + 2) in
        let* rel := getb data (pc + 3) in
        let target := addr + Z.of_nat size + signed_rel rel in
        OK (("$" +:+ fmt_X 2 offset +:+ ",SP, $" +:+ fmt_X 4 target)%string)
      else OK "???"
  | _ => OK "???"
  end.

(** The block guarded by [opcode == 0x9E and pc + 1 < len(data)]:
    [Some] is the instruction it emits before [continue], [None] means
    control falls through to the primary table. *)
Definition decode_prefixed (pc : nat) (opcode : Z) : res (option insn) :=
  let addr := base_addr + Z.of_nat pc in
  if (opcode =? 0x9E) && (pc + 1 <? length data)%nat then
    let* sub_op := getb data (pc + 1) in
    match HC08_9E_OPCODES !! sub_op with
    | Some (mnem, md, size0) =>
        let size := (size0 + 1)%nat in
        let* bs := read_bytes pc (Nat.min size (length data - pc)) in
        let* operand := operand_9E md pc size in
        OK (Some (decoded addr bs mnem operand size))
    | None => OK None
    end
  else OK None.

(** Operand of an instruction of the primary table. *)
Definition operand_primary (md : mode) (pc size : nat) : res string :=
  let addr := base_addr + Z.of_nat pc in
  match md with
  | INH => OK EmptyString
  | IMM =>
      let* imm := getb data (pc + 1) in
      OK (("#$" +:+ fmt_X 2 imm)%string)
  | DIR =>
      let* dir_addr := getb data (pc + 1) in
      match truthy (get_reg_name dir_addr) with
      | Some reg_name => OK (("<" +:+ reg_name)%string)
      | None => OK (("<$" +:+ fmt_X 2 dir_addr)%string)
      end
  | EXT =>
      let* hi := getb data (pc + 1) in
      let* lo := getb data (pc + 2) in
      let ext_addr := Z.lor (Z.shiftl hi 8) lo in
      OK (("$" +:+ fmt_X 4 ext_addr)%string)
  | IX => OK ",X"
  | IX1 =>
      let* offset := getb data (pc + 1) in
      OK (("$" +:+ fmt_X 2 offset +:+ ",X")%string)
  | IX2 =>
      let* hi := getb data (pc + 1) in
      let* lo := getb data (pc + 2) in
      let offset := Z.lor (Z.shiftl hi 8) lo in
      OK (("$" +:+ fmt_X 4 offset +:+ ",X")%string)
  | REL =>
      let* rel := getb data (pc + 1) in
      let target := addr + Z.of_nat size + signed_rel rel in
      OK (("$" +:+ fmt_X 4 target)%string)
  | DIR_REL =>
      let* dir_addr := getb data (pc + 1) in
      let* rel := getb data (pc + 2) in
      let target := addr + Z.of_nat size + signed_rel rel in
      match truthy (get_reg_name dir_addr) with
      | Some reg_name => OK (("<" +:+ reg_name +:+ ", $" +:+ fmt_X 4 target)%string)
      | None => OK (("<$" +:+ fmt_X 2 dir_addr +:+ ", $" +:+ fmt_X 4 target)%string)
      end
  | IMM_REL =>
      let* imm := getb data (pc + 1) in
      let* rel := getb data (pc + 2) in
      let target := addr + Z.of_nat size + signed_rel rel in
      OK (("#$" +:+ fmt_X 2 imm +:+ ", $" +:+ fmt_X 4 target)%string)
  | IX_REL =>
      let* rel := getb data (pc + 1) in
      let target := addr + Z.of_nat size + signed_rel rel in
      OK ((",X, $" +:+ fmt_X 4 target)%string)
  | IX1_REL =>
      let* offset := getb data (pc + 1) in
      let* rel := getb data (pc + 2) in
      let target := addr + Z.of_nat size + signed_rel rel in
      OK (("$" +:+ fmt_X 2 offset +:+ ",X, $" +:+ fmt_X 4 target)%string)
  | _ => OK "???"
  end.

(** The rest of the loop body, reached when the prefixed block did not
    [continue]. *)
Definition decode_primary (pc : nat) (opcode : Z) : res insn :=
  let addr := base_addr + Z.of_nat pc in
  match HC08_OPCODES !! opcode with
  | None => OK (db_insn addr opcode)
  | Some (mnem, md, size) =>
      if (length data <? pc + size)%nat then OK (db_insn addr opcode)
      else
        let* bs := read_bytes pc size in
        let* operand := operand_primary md pc size in
        OK (decoded addr bs mnem operand size)
  end.

(** One iteration of the loop at cursor [pc]. *)
Definition decode_at (pc : nat) : res insn :=
  let* opcode := getb data pc in
  let* pre := decode_prefixed pc opcode in
  match pre with
  | Some i => OK i
  | None => decode_primary pc opcode
  end.

(** Loop state: [pc], [lines], [output]. *)
Definition state : Type := nat * Z * list insn.

(** [pc < len(data)], and not the [break] on the line cap.  [max_lines]
    is [None] or an integer; [None] and 0 are both false in
    [if max_lines and ...]. *)
Definition dis_cond (max_lines : option Z) (s : state) : res bool :=
  let '(pc, lines, _) := s in
  OK ((pc <? length data)%nat &&
      negb (match max_lines with
            | None => false
            | Some n => negb (n =? 0) && (n <=? lines)
            end)).

Definition dis_body (s : state) : res state :=
  let '(pc, lines, output) := s in
  let* i := decode_at pc in
  OK ((pc + i_size i)%nat, lines + 1, output ++ [i]).

(** The instructions emitted by [disassemble], in order. *)
Definition disassemble_insns (max_lines : option Z) : res (list insn) :=
  let* '(_, _, output) :=
    while (dis_cond max_lines) dis_body (S (length data)) (0%nat, 0, []) in
  OK output.

(** [disassemble(data, base_addr, max_lines)]: the list of text lines. *)
Definition disassemble (max_lines : option Z) : res (list string) :=
  let* output := disassemble_insns max_lines in
  OK (map i_line output).
End Decode.

End Disasm.


(** * The analysis passes, [analyze_pdm.py] *)

Module Analyze.

Definition IO_REGS_literal : list (Z * string) := [
    (0x00, "PORTA"); (0x01, "PORTB"); (0x02, "PORTC"); (0x03, "PORTD");
    (0x04, "DDRA"); (0x05, "DDRB"); (0x06, "DDRC"); (0x07, "DDRD");
    (0x08, "PORTE"); (0x09, "PORTF"); (0x0A, "PORTG"); (0x0C, "DDRE");
    (0x0D, "DDRF"); (0x0E, "DDRG"); (0x10, "PTAPUE"); (0x11, "PTBPUE");
    (0x12, "PTCPUE"); (0x13, "PTDPUE"); (0x14, "PTEPUE"); (0x15, "PTFPUE");
    (0x16, "PTGPUE"); (0x18, "SCC1"); (0x19, "SCC2"); (0x1A, "SCC3");
    (0x1B, "SCS1"); (0x1C, "SCS2"); (0x1D, "SCDR"); (0x1E, "SCBR");
    (0x20, "SPCR"); (0x21, "SPSCR"); (0x22, "SPDR"); (0x24, "TBCR");
    (0x25, "TBDR"); (0x30, "T1SC"); (0x31, "T1CNTH"); (0x32, "T1CNTL");
    (0x33, "T1MODH"); (0x34, "T1MODL"); (0x35, "T1SC0"); (0x36, "T1CH0H");
    (0x37, "T1CH0L"); (0x38, "T1SC1"); (0x39, "T1CH1H"); (0x3A, "T1CH1L");
    (0x40, "T2SC"); (0x41, "T2CNTH"); (0x42, "T2CNTL"); (0x43, "T2MODH");
    (0x44, "T2MODL"); (0x45, "T2SC0"); (0x46, "T2CH0H"); (0x47, "T2CH0L");
    (0x48, "T2SC1"); (0x49, "T2CH1H"); (0x4A, "T2CH1L"); (0x50, "ADSCR");
    (0x51, "ADR"); (0x58, "CMCR0"); (0x59, "CMCR1"); (0x5A, "CBTR0");
    (0x5B, "CBTR1"); (0x5C, "CRFLG"); (0x5D, "CRIER"); (0x5E, "CTFLG");
    (0x5F, "CTIER"); (0x60, "CTARQ"); (0x61, "CTAAK"); (0x62, "CTBSEL");
    (0x63, "CIDAC"); (0x64, "CRXERR"); (0x65, "CTXERR"); (0x68, "CIDAR0");
    (0x69, "CIDAR1"); (0x6A, "CIDAR2"); (0x6B, "CIDAR3"); (0x70, "CIDMR0");
    (0x71, "CIDMR1"); (0x72, "CIDMR2"); (0x73, "CIDMR3"); (0x74, "CIDAR4");
    (0x75, "CIDAR5"); (0x76, "CIDAR6"); (0x77, "CIDAR7"); (0x78, "CIDMR4");
    (0x79, "CIDMR5"); (0x7A, "CIDMR6"); (0x7B, "CIDMR7"); (0x80, "CRXFG");
    (0x90, "CTXFG"); (0xFE00, "CONFIG2"); (0xFE01, "CONFIG1")
  ].

Definition IO_REGS : gmap Z string := list_to_map IO_REGS_literal.

(** [reg in IO_REGS] *)
Definition in_IO_REGS (reg : Z) : bool := bool_decide (is_Some (IO_REGS !! reg)).

Section Passes.
Variable data : list byte.
Variable base : Z.

(** The loop test [pc < len(data)] shared by the passes. *)
Definition in_buffer {A : Type} (s : nat * A) : res bool :=
  OK (fst s <? length data)%nat.

(** ** [find_subroutines] *)

Definition subs_body (s : nat * gset Z) : res (nat * gset Z) :=
  let '(pc, subs) := s in
  let* op := getb data pc in
  if (op =? 0xBD) && (pc + 1 <? length data)%nat then
    let* target := getb data (pc + 1) in
    OK ((pc + 2)%nat, {[target]} ∪ subs)
  else if (op =? 0xCD) && (pc + 2 <? length data)%nat then
    let* hi := getb data (pc + 1) in
    let* lo := getb data (pc + 2) in
    let target := Z.lor (Z.shiftl hi 8) lo in
    OK ((pc + 3)%nat, {[target]} ∪ subs)
  else if (op =? 0xAD) && (pc + 1 <? length data)%nat then
    let* rel := getb data (pc + 1) in
    let target := base + Z.of_nat pc + 2 + signed_rel rel in
    OK ((pc + 2)%nat, {[target]} ∪ subs)
  else OK ((pc + 1)%nat, subs).

(** [sorted(subs)] *)
Definition sorted (subs : gset Z) : list Z := merge_sort Z.le (elements subs).

Definition find_subroutines : res (list Z) :=
  let* '(_, subs) := while in_buffer subs_body (S (length data)) (0%nat, ∅) in
  OK (sorted subs).

(** ** [find_io_accesses] *)

(** [d[reg].append(addr)] on a [defaultdict(list)] *)
Definition append_site (d : gmap Z (list Z)) (reg addr : Z) : gmap Z (list Z) :=
  <[reg := default [] (d !! reg) ++ [addr]]> d.

Definition note_site (d : gmap Z (list Z)) (reg addr : Z) : gmap Z (list Z) :=
  if in_IO_REGS reg then append_site d reg addr else d.

Definition io_state : Type := nat * (gmap Z (list Z) * gmap Z (list Z)).

Definition io_body (s : io_state) : res io_state :=
  let '(pc, (io_reads, io_writes)) := s in
  let* op := getb data pc in
  let addr := base + Z.of_nat pc in
  if (op =? 0xB6) && (pc + 1 <? length data)%nat then
    let* reg := getb data (pc + 1) in
    OK ((pc + 2)%nat, (note_site io_reads reg addr, io_writes))
  else if (op =? 0xB7) && (pc + 1 <? length data)%nat then
    let* reg := getb data (pc + 1) in
    OK ((pc + 2)%nat, (io_reads, note_site io_writes reg addr))
  else if (op =? 0xBE) && (pc + 1 <? length data)%nat then
    let* reg := getb data (pc + 1) in
    OK ((pc + 2)%nat, (note_site io_reads reg addr, io_writes))
  else if (op =? 0xBF) && (pc + 1 <? length data)%nat then
    let* reg := getb data (pc + 1) in
    OK ((pc + 2)%nat, (io_reads, note_site io_writes reg addr))
  else if (0x10 <=? op) && (op <=? 0x1F) && (pc + 1 <? length data)%nat then
    let* reg := getb data (pc + 1) in
    OK ((pc + 2)%nat, (io_reads, note_site io_writes reg addr))
  else if (0x00 <=? op) && (op <=? 0x0F) && (pc + 2 <? length data)%nat then
    let* reg := getb data (pc + 1) in
    OK ((pc + 3)%nat, (note_site io_reads reg addr, io_writes))
  else if (op =? 0xC6) && (pc + 2 <? length data)%nat then
    let* hi := getb data (pc + 1) in
    let* lo := getb data (pc + 2) in
    let ext := Z.lor (Z.shiftl hi 8) lo in
    OK ((pc + 3)%nat, (note_site io_reads ext addr, io_writes))
  else if (op =? 0xC7) && (pc + 2 <? length data)%nat then
    let* hi := getb data (pc + 1) in
    let* lo := getb data (pc + 2) in
    let ext := Z.lor (Z.shiftl hi 8) lo in
    OK ((pc + 3)%nat, (io_reads, note_site io_writes ext addr))
  else OK ((pc + 1)%nat, (io_reads, io_writes)).

Definition find_io_accesses : res (gmap Z (list Z) * gmap Z (list Z)) :=
  let* '(_, tables) := while in_buffer io_body (S (length data)) (0%nat, (∅, ∅)) in
  OK tables.

(** ** [find_ram_usage] *)

(** [d[ext] += 1] on a [defaultdict(int)] *)
Definition bump (d : gmap Z Z) (ext : Z) : gmap Z Z :=
  <[ext := default 0 (d !! ext) + 1]> d.

Definition ram_state : Type := nat * (gmap Z Z * gmap Z Z).

Definition ram_body (s : ram_state) : res ram_state :=
  let '(pc, (ram_reads, ram_writes)) := s in
  let* op := getb data pc in
  if (0xC0 <=? op) && (op <=? 0xCF) && negb (bool_decide (op ∈ [0xCC; 0xCD]))
     && (pc + 2 <? length data)%nat then
    let* hi := getb data (pc + 1) in
    let* lo := getb data (pc + 2) in
    let ext := Z.lor (Z.shiftl hi 8) lo in
    if (0x0040 <=? ext) && (ext <=? 0x083F) then
      if op =? 0xC7 then OK ((pc + 3)%nat, (ram_reads, bump ram_writes ext))
      else OK ((pc + 3)%nat, (bump ram_reads ext, ram_writes))
    else OK ((pc + 3)%nat, (ram_reads, ram_writes))
  else OK ((pc + 1)%nat, (ram_reads, ram_writes)).

(** Returns [(ram_reads, ram_writes)].  The source's parameter [base] is
    not used by this pass. *)
Definition find_ram_usage : res (gmap Z Z * gmap Z Z) :=
  let* '(_, counters) := while in_buffer ram_body (S (length data)) (0%nat, (∅, ∅)) in
  OK counters.

(** ** [find_strings] *)

Definition printable (b : Z) : bool := (0x20 <=? b) && (b <=? 0x7E).

(** [i < len(data) and 0x20 <= data[i] <= 0x7E] *)
Definition run_cond (i : nat) : res bool :=
  if (i <? length data)%nat then
    let* b := getb data i in OK (printable b)
  else OK false.

Definition run_body (i : nat) : res nat := OK (i + 1)%nat.

(** [bytes(...).decode('ascii')]; a byte above 0x7F raises
    [UnicodeDecodeError], a [ValueError]. *)
Fixpoint decode_ascii (bs : list byte) : res string :=
  match bs with
  | [] => OK EmptyString
  | b :: bs' =>
      if byte_val b <? 128 then
        let* s := decode_ascii bs' in OK (String (ascii_of_byte b) s)
      else Raise ValueError
  end.

(** [data[start:i]] for [start <= i]. *)
Definition slice (start i : nat) : list byte := take (i - start) (drop start data).

Definition str_state : Type := nat * list (Z * string).

Definition str_body (min_len : Z) (s : str_state) : res str_state :=
  let '(i, strings) := s in
  let* b := getb data i in
  if printable b then
    let start := i in
    let* i' := while run_cond run_body (S (length data)) i in
    if min_len <=? Z.of_nat i' - Z.of_nat start then
      let* s := decode_ascii (slice start i') in
      OK ((i' + 1)%nat, strings ++ [(base + Z.of_nat start, s)])
    else OK ((i' + 1)%nat, strings)
  else OK ((i + 1)%nat, strings).

Definition find_strings (min_len : Z) : res (list (Z * string)) :=
  let* '(_, strings) := while in_buffer (str_body min_len) (S (length data)) (0%nat, []) in
  OK strings.

(** ** [analyze_main_loop] *)

(** The opcodes tested by [op in [0x20, 0x22, ...]]. *)
Definition branch_opcodes : list Z :=
  [0x20; 0x22; 0x23; 0x24; 0x25; 0x26; 0x27; 0x28; 0x29;
   0x2A; 0x2B; 0x2C; 0x2D; 0x2E; 0x2F; 0x90; 0x91; 0x92; 0x93].

Definition loop_state : Type := nat * list (Z * Z * Z).

Definition loop_body (s : loop_state) : res loop_state :=
  let '(pc, loops) := s in
  let* op := getb data pc in
  if bool_decide (op ∈ branch_opcodes) then
    if (pc + 1 <? length data)%nat then
      let* rel0 := getb data (pc + 1) in
      let rel := signed_rel rel0 in
      let target := base + Z.of_nat pc + 2 + rel in
      if rel <? 0 then
        OK ((pc + 2)%nat, loops ++ [(base + Z.of_nat pc, target, - rel)])
      else OK ((pc + 2)%nat, loops)
    else OK ((pc + 2)%nat, loops)
  else OK ((pc + 1)%nat, loops).

Definition analyze_main_loop : res (list (Z * Z * Z)) :=
  let* '(_, loops) := while in_buffer loop_body (S (length data)) (0%nat, []) in
  OK loops.
End Passes.

End Analyze.


(** * The S-record loader, [srec_to_bin.py] *)

Module Srec.

(** [s[start:stop]] for a non-negative [start]; a negative [stop] counts
    from the end of the string, as in Python. *)
Definition py_slice (s : string) (start : nat) (stop : Z) : string :=
  let n := Z.of_nat (String.length s) in
  let stop' := if stop <? 0 then Z.max 0 (stop + n) else stop in
  String.substring start (Z.to_nat stop' - start) s.

(** The loop [for i, b in enumerate(data): memory[address + i] = b],
    from index [i] on. *)
Fixpoint write_bytes (memory : gmap Z byte) (address : Z) (i : nat) (data : list byte)
  : gmap Z byte :=
  match data with
  | [] => memory
  | b :: data' => write_bytes (<[address + Z.of_nat i := b]> memory) address (S i) data'
  end.

(** Loader state: [memory], [start_addr] ([None] until the first data
    record) and [end_addr]. *)
Definition image : Type := gmap Z byte * option Z * Z.

(** What a data record (type 1 or 2) does once its fields are parsed. *)
Definition store_record (st : image) (address : Z) (data : list byte) : image :=
  let '(memory, start_addr, end_addr) := st in
  let start_addr' :=
    match start_addr with
    | None => address
    | Some s => if address <? s then address else s
    end in
  let end_addr' :=
    if end_addr <? address + Z.of_nat (length data)
    then address + Z.of_nat (length data) else end_addr in
  (write_bytes memory address 0 data, Some start_addr', end_addr').

Section Loader.
(** The Python built-ins the parser calls; [None] stands for the
    [ValueError] they raise on malformed text. *)
Variable strip : string -> string.                 (* str.strip() *)
Variable int16 : string -> option Z.               (* int(s, 16) *)
Variable fromhex : string -> option (list byte).   (* bytes.fromhex(s) *)

Definition value {A : Type} (o : option A) : res A :=
  match o with
  | Some a => OK a
  | None => Raise ValueError
  end.

(** The body of the loop over the lines of the file. *)
Definition parse_line (st : image) (raw : string) : res image :=
  let line := strip raw in
  match line with
  | EmptyString => OK st
  | String c _ =>
      if negb (Ascii.eqb c "S") then OK st
      else
        match String.get 1 line with
        | None => Raise IndexError
        | Some record_type =>
            if Ascii.eqb record_type "0" then
              let* byte_count := value (int16 (py_slice line 2 4)) in
              let data_hex := py_slice line 8 (8 + (byte_count - 3) * 2) in
              let* header := value (fromhex data_hex) in
              OK st
            else if Ascii.eqb record_type "1" then
              let* byte_count := value (int16 (py_slice line 2 4)) in
              let* address := value (int16 (py_slice line 4 8)) in
              let data_hex := py_slice line 8 (8 + (byte_count - 3) * 2) in
              let* data := value (fromhex data_hex) in
              OK (store_record st address data)
            else if Ascii.eqb record_type "2" then
              let* byte_count := value (int16 (py_slice line 2 4)) in
              let* address := value (int16 (py_slice line 4 10)) in
              let data_hex := py_slice line 10 (10 + (byte_count - 4) * 2) in
              let* data := value (fromhex data_hex) in
              OK (store_record st address data)
            else if Ascii.eqb record_type "9" then
              let* entry_point := value (int16 (py_slice line 4 8)) in
              OK st
            else if Ascii.eqb record_type "8" then
              let* entry_point := value (int16 (py_slice line 4 10)) in
              OK st
            else OK st
        end
  end.

Fixpoint parse_lines (st : image) (lines : list string) : res image :=
  match lines with
  | [] => OK st
  | raw :: lines' => let* st' := parse_line st raw in parse_lines st' lines'
  end.

(** [parse_srec]: returns [(memory, start_addr, end_addr)]. *)
Definition parse_srec (lines : list string) : res image :=
  parse_lines (∅, None, 0) lines.

(** Whether the loop body treats the line as a data record. *)
Definition is_data_record (raw : string) : bool :=
  match strip raw with
  | String c (String t _) => Ascii.eqb c "S" && (Ascii.eqb t "1" || Ascii.eqb t "2")
  | _ => false
  end.
End Loader.

(** The copy loop of [save_binary] for one item of [memory]. *)
Definition put_item (start_addr size : Z) (binary : list byte) (item : Z * byte) : list byte :=
  let '(addr, b) := item in
  let offset := addr - start_addr in
  if (0 <=? offset) && (offset <? size) then <[Z.to_nat offset := b]> binary else binary.

(** [save_binary]: the bytes written to the output file and the returned
    [size].  [start_addr] is whatever [parse_srec] returned, so it may be
    [None], on which [end_addr - start_addr] raises [TypeError];
    [bytearray] raises [ValueError] on a negative size.  The items of
    [memory] have distinct keys and are taken in the map's own order. *)
Definition save_binary (memory : gmap Z byte) (start_addr : option Z) (end_addr : Z)
  : res (list byte * Z) :=
  match start_addr with
  | None => Raise TypeError
  | Some start =>
      let size := end_addr - start in
      if size <? 0 then Raise ValueError
      else
        let zeroed := replicate (Z.to_nat size) x00 in
        let erased := foldl (fun bin i => <[i := xff]> bin) zeroed (seq 0 (Z.to_nat size)) in
        OK (foldl (put_item start size) erased (map_to_list memory), size)
  end.

(** ** Plain instances of the built-ins, for well-formed records *)

Definition hex_val (c : ascii) : option Z :=
  let n := Z.of_nat (nat_of_ascii c) in
  if (48 <=? n) && (n <=? 57) then Some (n - 48)
  else if (65 <=? n) && (n <=? 70) then Some (n - 55)
  else if (97 <=? n) && (n <=? 102) then Some (n - 87)
  else None.

Fixpoint hex_int_go (acc : Z) (s : string) : option Z :=
  match s with
  | EmptyString => Some acc
  | String c s' =>
      match hex_val c with
      | Some d => hex_int_go (acc * 16 + d) s'
      | None => None
      end
  end.

(** [int(s, 16)] on a non-empty string of hexadecimal digits. *)
Definition hex_int (s : string) : option Z :=
  match s with
  | EmptyString => None
  | _ => hex_int_go 0 s
  end.

(** [bytes.fromhex(s)] on a string of hexadecimal digit pairs. *)
Fixpoint hex_bytes (s : string) : option (list byte) :=
  match s with
  | EmptyString => Some []
  | String c1 (String c2 s') =>
      match hex_val c1, hex_val c2, hex_bytes s' with
      | Some h, Some l, Some bs =>
          match Byte.of_N (Z.to_N (h * 16 + l)) with
          | Some b => Some (b :: bs)
          | None => None
          end
      | _, _, _ => None
      end
  | _ => None
  end.

End Srec.

(** * Vocabulary of the properties *)

(** The highest byte an operand of the given mode reads, counted from the
    opcode as 1. *)
Definition operand_reach (md : Disasm.mode) : nat :=
  match md with
  | Disasm.INH | Disasm.IX => 1
  | Disasm.IMM | Disasm.DIR | Disasm.IX1 | Disasm.REL | Disasm.IX_REL => 2
  | Disasm.EXT | Disasm.IX2 | Disasm.DIR_REL | Disasm.IMM_REL | Disasm.IX1_REL => 3
  | Disasm.SP1 | Disasm.SP2 | Disasm.SP1_REL => 1
  end.

(** The size, without the prefix, that the secondary table gives to the
    instructions of each stack-pointer mode; other modes do not occur in
    it. *)
Definition prefixed_size (md : Disasm.mode) : option nat :=
  match md with
  | Disasm.SP1 => Some 2%nat
  | Disasm.SP2 | Disasm.SP1_REL => Some 3%nat
  | _ => None
  end.

(** The bytes at [i], ..., [j - 1] exist and are printable. *)
Definition printable_run (data : list byte) (i j : nat) : Prop :=
  forall k, (i <= k < j)%nat ->
    exists b, data !! k = Some b /\ Analyze.printable (byte_val b) = true.

(** The cursor positions at which the body of a scanning loop runs. *)
Definition cursor {A : Type} (data : list byte) (body : nat * A -> res (nat * A))
    (init : A) : list nat :=
  (iterations (Analyze.in_buffer data) body (S (length data)) (0%nat, init)).*1.

Definition subs_cursor (data : list byte) (base : Z) : list nat :=
  cursor data (Analyze.subs_body data base) ∅.

Definition loop_cursor (data : list byte) (base : Z) : list nat :=
  cursor data (Analyze.loop_body data base) [].

(** The call target of the instruction at [pc], in the words of the
    specification: the operand byte itself for [JSR] direct (0xBD), the
    big-endian 16-bit operand for [JSR] extended (0xCD), and
    [address + 2 + displacement] for [BSR] (0xAD); nothing for any other
    opcode or when the operand is cut by the buffer end. *)
Definition call_target (data : list byte) (base : Z) (pc : nat) : option Z :=
  match data !! pc with
  | Some op =>
      if byte_val op =? 0xBD then
        match data !! (pc + 1)%nat with
        | Some d => Some (byte_val d)
        | None => None
        end
      else if byte_val op =? 0xCD then
        match data !! (pc + 1)%nat, data !! (pc + 2)%nat with
        | Some hi, Some lo => Some (byte_val hi * 256 + byte_val lo)
        | _, _ => None
        end
      else if byte_val op =? 0xAD then
        match data !! (pc + 1)%nat with
        | Some d => Some (base + Z.of_nat pc + 2 + twos_complement8 (byte_val d))
        | None => None
        end
      else None
  | None => None
  end.

(** The length that the scan of [find_subroutines] gives the instruction
    at [pc]: two bytes for a call by direct address (0xBD) or by
    displacement (0xAD), three for a call by extended address (0xCD), when
    the operand lies in the buffer; one byte for everything else. *)
Definition call_width (data : list byte) (pc : nat) : nat :=
  match data !! pc with
  | Some op =>
      if (byte_val op =? 0xBD) && (pc + 1 <? length data)%nat then 2%nat
      else if (byte_val op =? 0xCD) && (pc + 2 <? length data)%nat then 3%nat
      else if (byte_val op =? 0xAD) && (pc + 1 <? length data)%nat then 2%nat
      else 1%nat
  | None => 1%nat
  end.

(** One step of the linear sweep: from an offset inside the buffer to the
    offset after the instruction that stands there. *)
Definition sweep_step (data : list byte) (p q : nat) : Prop :=
  (p < length data)%nat /\ q = (p + call_width data p)%nat.

(** [pc] is an instruction start of the linear sweep of the buffer: it is
    reached from offset 0 by stepping over whole instructions, and lies
    inside the buffer. *)
Definition scanned (data : list byte) (pc : nat) : Prop :=
  rtc (sweep_step data) 0%nat pc /\ (pc < length data)%nat.

(** The loop site of the branch at [pc]: for a branch opcode at address
    [A] whose displacement byte has the signed value [D < 0], the triple
    [(A, A + 2 + D, - D)]; nothing otherwise. *)
Definition loop_site (data : list byte) (base : Z) (pc : nat) : list (Z * Z * Z) :=
  match data !! pc, data !! (pc + 1)%nat with
  | Some op, Some d =>
      let A := base + Z.of_nat pc in
      let D := twos_complement8 (byte_val d) in
      if bool_decide (byte_val op ∈ Analyze.branch_opcodes) && (D <? 0)
      then [(A, A + 2 + D, - D)] else []
  | _, _ => []
  end.

(** The loader's invariant: every written address lies between
    [start_addr] and [end_addr]; nothing is written before the first data
    record. *)
Definition in_range (st : Srec.image) : Prop :=
  let '(memory, start_addr, end_addr) := st in
  match start_addr with
  | None => memory = ∅
  | Some s => s <= end_addr /\ forall a b, memory !! a = Some b -> s <= a < end_addr
  end.

(** The bytes the cursor advanced by over a list of instructions. *)
Definition consumed (l : list Disasm.insn) : nat :=
  foldr (fun i n => (Disasm.i_size i + n)%nat) 0%nat l.

(** The instructions follow one another from [addr] on, each at least one
    byte long: no gap and no overlap between their address ranges. *)
Fixpoint tiles (addr : Z) (l : list Disasm.insn) : Prop :=
  match l with
  | [] => True
  | i :: l' =>
      Disasm.i_addr i = addr /\ (1 <= Disasm.i_size i)%nat /\
      tiles (addr + Z.of_nat (Disasm.i_size i)) l'
  end.

(** The raw bytes shown by a list of instructions, one after the other. *)
Definition shown_bytes (l : list Disasm.insn) : list Z :=
  flat_map Disasm.i_bytes l.

(** The instructions span consecutive address ranges from [addr] on, each
    range as long as the raw bytes the instruction shows and not empty. *)
Fixpoint spans (addr : Z) (l : list Disasm.insn) : Prop :=
  match l with
  | [] => True
  | i :: l' =>
      Disasm.i_addr i = addr /\ Disasm.i_bytes i <> [] /\
      spans (addr + Z.of_nat (length (Disasm.i_bytes i))) l'
  end.

(** At [pc] stands a 0x9E-prefixed instruction of the secondary table whose
    size, prefix included, reaches past the end of the buffer. *)
Definition cut_prefixed (data : list byte) (pc : nat) : Prop :=
  exists op sub mnem md size0,
    data !! pc = Some op /\ byte_val op = 0x9E /\
    data !! (pc + 1)%nat = Some sub /\
    Disasm.HC08_9E_OPCODES !! byte_val sub = Some (mnem, md, size0) /\
    (length data < pc + (size0 + 1))%nat.

(** ** Vocabulary of the further properties *)

(** Whether the loader's loop body passes over the line without reading
    any field of it: a blank line, a line without the marker [S], or a
    record whose type is none of 0, 1, 2, 8, 9. *)
Definition is_skipped (strip : string -> string) (raw : string) : bool :=
  match strip raw with
  | EmptyString => true
  | String c rest =>
      if Ascii.eqb c "S" then
        match rest with
        | EmptyString => false
        | String t _ =>
            negb (Ascii.eqb t "0" || Ascii.eqb t "1" || Ascii.eqb t "2"
                  || Ascii.eqb t "9" || Ascii.eqb t "8")
        end
      else true
  end.

(** Where the payload of a data record ends in the line: after the 4 or 6
    address digits and the [byte_count - 3] or [byte_count - 4] payload
    bytes. *)
Definition payload_stop (record_type : ascii) (byte_count : Z) : Z :=
  if Ascii.eqb record_type "1" then 8 + (byte_count - 3) * 2
  else 10 + (byte_count - 4) * 2.

(** The addressing modes of the primary table whose operand holds a
    relative displacement. *)
Definition relative_family (md : Disasm.mode) : bool :=
  match md with
  | Disasm.REL | Disasm.DIR_REL | Disasm.IMM_REL | Disasm.IX_REL | Disasm.IX1_REL => true
  | _ => false
  end.

(** The prefixed block takes the instruction at [pc]: the byte is 0x9E, a
    byte follows it, and that byte has an entry in the secondary table. *)
Definition prefixed_at (data : list byte) (pc : nat) : Prop :=
  exists op sub e,
    data !! pc = Some op /\ byte_val op = 0x9E /\
    data !! (pc + 1)%nat = Some sub /\
    Disasm.HC08_9E_OPCODES !! byte_val sub = Some e.

(** The register access of the instruction at [pc] as [find_io_accesses]
    classifies it, [true] for a write: loads 0xB6 and 0xBE read, stores
    0xB7 and 0xBF write, and bit set/clear 0x10-0x1F writes the direct
    operand; bit tests 0x00-0x0F, three bytes long, read it; 0xC6 reads
    and 0xC7 writes the big-endian extended operand.  Nothing for another
    opcode or an instruction cut by the buffer end. *)
Definition io_access (data : list byte) (pc : nat) : option (bool * Z) :=
  match data !! pc with
  | None => None
  | Some op =>
      let o := byte_val op in
      if (o =? 0xB6) || (o =? 0xBE) then
        match data !! (pc + 1)%nat with
        | Some d => Some (false, byte_val d)
        | None => None
        end
      else if (o =? 0xB7) || (o =? 0xBF) || ((0x10 <=? o) && (o <=? 0x1F)) then
        match data !! (pc + 1)%nat with
        | Some d => Some (true, byte_val d)
        | None => None
        end
      else if (0x00 <=? o) && (o <=? 0x0F) then
        match data !! (pc + 1)%nat, data !! (pc + 2)%nat with
        | Some d, Some _ => Some (false, byte_val d)
        | _, _ => None
        end
      else if (o =? 0xC6) || (o =? 0xC7) then
        match data !! (pc + 1)%nat, data !! (pc + 2)%nat with
        | Some hi, Some lo => Some (o =? 0xC7, byte_val hi * 256 + byte_val lo)
        | _, _ => None
        end
      else None
  end.

(** What one access adds to the two tables of [find_io_accesses]. *)
Definition io_step (data : list byte) (base : Z)
    (tables : gmap Z (list Z) * gmap Z (list Z)) (pc : nat)
  : gmap Z (list Z) * gmap Z (list Z) :=
  match io_access data pc with
  | Some (false, reg) => (Analyze.note_site tables.1 reg (base + Z.of_nat pc), tables.2)
  | Some (true, reg) => (tables.1, Analyze.note_site tables.2 reg (base + Z.of_nat pc))
  | None => tables
  end.

Definition io_cursor (data : list byte) (base : Z) : list nat :=
  cursor data (Analyze.io_body data base) (∅, ∅).

(** The addresses, in scan order, of the instructions among [l] that
    access the register [reg] in the given direction; none for an address
    that [IO_REGS] does not name. *)
Definition io_sites_in (data : list byte) (base : Z) (write : bool) (reg : Z)
    (l : list nat) : list Z :=
  if Analyze.in_IO_REGS reg then
    (fun pc => base + Z.of_nat pc) <$>
      filter (fun pc => io_access data pc = Some (write, reg)) l
  else [].

Definition io_sites (data : list byte) (base : Z) (write : bool) (reg : Z) : list Z :=
  io_sites_in data base write reg (io_cursor data base).

(** A table of a [defaultdict] holds a key only once something was stored
    under it. *)
Definition nonempty {A : Type} (l : list A) : option (list A) :=
  match l with
  | [] => None
  | _ => Some l
  end.

(** The RAM access of the instruction at [pc] as [find_ram_usage] counts
    it, [true] for a write: an opcode of 0xC0-0xCF other than 0xCC and 0xCD
    with its two operand bytes in the buffer and the big-endian operand in
    0x0040..0x083F; a write for 0xC7 only. *)
Definition ram_access (data : list byte) (pc : nat) : option (bool * Z) :=
  match data !! pc, data !! (pc + 1)%nat, data !! (pc + 2)%nat with
  | Some op, Some hi, Some lo =>
      let o := byte_val op in
      let ext := byte_val hi * 256 + byte_val lo in
      if (0xC0 <=? o) && (o <=? 0xCF) && negb ((o =? 0xCC) || (o =? 0xCD))
         && (0x0040 <=? ext) && (ext <=? 0x083F)
      then Some (o =? 0xC7, ext) else None
  | _, _, _ => None
  end.

(** What one access adds to the two counters of [find_ram_usage]. *)
Definition ram_step (data : list byte) (counters : gmap Z Z * gmap Z Z) (pc : nat)
  : gmap Z Z * gmap Z Z :=
  match ram_access data pc with
  | Some (false, ext) => (Analyze.bump counters.1 ext, counters.2)
  | Some (true, ext) => (counters.1, Analyze.bump counters.2 ext)
  | None => counters
  end.

Definition ram_cursor (data : list byte) : list nat :=
  cursor data (Analyze.ram_body data) (∅, ∅).

(** How many of the instructions among [l] access the RAM address [a] in
    the given direction. *)
Definition ram_count_in (data : list byte) (write : bool) (a : Z) (l : list nat) : nat :=
  length (filter (fun pc => ram_access data pc = Some (write, a)) l).

Definition ram_count (data : list byte) (write : bool) (a : Z) : nat :=
  ram_count_in data write a (ram_cursor data).

(** A counter of a [defaultdict] exists only once it was incremented. *)
Definition positive (n : nat) : option Z :=
  match n with
  | O => None
  | S _ => Some (Z.of_nat n)
  end.

(** * The string extractor of [find_device_id.py] *)

Module DeviceId.

(** [bytes.decode('ascii', errors='ignore')]: a byte above 0x7F is left
    out. *)
Fixpoint decode_ignore (bs : list byte) : string :=
  match bs with
  | [] => EmptyString
  | b :: bs' =>
      if byte_val b <? 128 then String (ascii_of_byte b) (decode_ignore bs')
      else decode_ignore bs'
  end.

(** The test [len(current) >= min_length] and the append it guards. *)
Definition flush (min_length : Z) (strings : list string) (current : list byte)
  : list string :=
  if min_length <=? Z.of_nat (length current)
  then strings ++ [decode_ignore current] else strings.

(** The body of the loop [for byte in data], on the state
    [(strings, current)]. *)
Definition extract_step (min_length : Z) (st : list string * list byte) (b : byte)
  : list string * list byte :=
  let '(strings, current) := st in
  if (0x20 <=? byte_val b) && (byte_val b <=? 0x7e) then (strings, current ++ [b])
  else (flush min_length strings current, []).

(** [extract_strings(data, min_length)] *)
Definition extract_strings (data : list byte) (min_length : Z) : list string :=
  let '(strings, current) := foldl (extract_step min_length) ([], []) data in
  flush min_length strings current.

End DeviceId.

(** ** Vocabulary of the printable runs *)

(** The text of a byte string, character by character. *)
Definition text_of (bs : list byte) : string :=
  foldr (fun b s => String (ascii_of_byte b) s) EmptyString bs.

(** The byte at [k] exists and is not printable. *)
Definition unprintable_at (data : list byte) (k : nat) : Prop :=
  exists b, data !! k = Some b /\ Analyze.printable (byte_val b) = false.

(** The bytes at [i], ..., [j - 1] form a maximal printable run: not
    empty, all printable, and neither the byte before nor the byte after,
    where there is one, is printable. *)
Definition maximal_run (data : list byte) (i j : nat) : Prop :=
  (i < j <= length data)%nat /\ printable_run data i j /\
  (i = 0%nat \/ unprintable_at data (i - 1)) /\
  (j = length data \/ unprintable_at data j).

(** A run in progress is recorded when it ends, unless it is empty. *)
Definition emit_run (start : nat) (cur : list byte) : list (nat * list byte) :=
  match cur with
  | [] => []
  | _ => [(start, cur)]
  end.

(** The printable runs of [l], each with its offset, in order; [cur] is
    the run in progress, which started at offset [start], and [l] begins at
    offset [start + length cur]. *)
Fixpoint runs (start : nat) (cur : list byte) (l : list byte) : list (nat * list byte) :=
  match l with
  | [] => emit_run start cur
  | b :: l' =>
      if Analyze.printable (byte_val b) then runs start (cur ++ [b]) l'
      else emit_run start cur ++ runs (start + length cur + 1) [] l'
  end.

(** Runs of at least [min_len] bytes. *)
Definition long_runs (min_len : Z) (l : list (nat * list byte)) : list (nat * list byte) :=
  filter (fun r => min_len <= Z.of_nat (length r.2)) l.

(** The run in progress at position [p]: it started at [start], holds the
    bytes from there to [p], all printable, and cannot be extended to the
    left. *)
Definition in_progress (data : list byte) (start : nat) (cur : list byte) (p : nat) : Prop :=
  (start <= p <= length data)%nat /\ cur = Analyze.slice data start p /\
  printable_run data start p /\
  (start = 0%nat \/ unprintable_at data (start - 1)).

(** The entry that [find_strings] appends for the run [r]. *)
Definition located (base : Z) (r : nat * list byte) : Z * string :=
  (base + Z.of_nat r.1, text_of r.2).

(** * Properties *)

(** ** The result monad and the loop iterator *)

Lemma bind_OK {A B : Type} (m : res A) (k : A -> res B) (b : B) :
  bind m k = OK b -> exists a, m = OK a /\ k a = OK b.
Proof. destruct m as [a|e]; simpl; [eauto | discriminate]. Qed.

Lemma OK_inj {A : Type} (a b : A) : OK a = OK b -> a = b.
Proof. by intros [= ->]. Qed.

Lemma getb_Some (data : list byte) (i : nat) (b : byte) :
  data !! i = Some b -> getb data i = OK (byte_val b).
Proof. unfold getb. intros ->. reflexivity. Qed.

Lemma getb_lt (data : list byte) (i : nat) :
  (i < length data)%nat -> exists b, data !! i = Some b /\ getb data i = OK (byte_val b).
Proof.
  intros Hi. destruct (lookup_lt_is_Some_2 data i Hi) as [b Hb].
  exists b. split; [done | by apply getb_Some].
Qed.

Lemma byte_val_range (b : byte) : 0 <= byte_val b <= 255.
Proof. unfold byte_val. pose proof (Byte.to_N_bounded b). lia. Qed.

Lemma signed_rel_twos_complement (b : byte) :
  signed_rel (byte_val b) = twos_complement8 (byte_val b).
Proof.
  pose proof (byte_val_range b) as Hb.
  unfold signed_rel, twos_complement8.
  destruct (Z.ltb_spec 127 (byte_val b)) as [Hhi|Hlo].
  - replace (byte_val b + 128) with ((byte_val b - 128) + 1 * 256) by lia.
    rewrite Z.mod_add by lia. rewrite Z.mod_small by lia. lia.
  - rewrite Z.mod_small; lia.
Qed.

Lemma lor_shiftl_8 (hi lo : Z) :
  0 <= lo < 256 -> Z.lor (Z.shiftl hi 8) lo = hi * 256 + lo.
Proof.
  intros Hlo. rewrite <- Z.add_nocarry_lor.
  - rewrite Z.shiftl_mul_pow2 by lia. reflexivity.
  - apply Z.bits_inj'. intros n Hn. rewrite Z.land_spec, Z.bits_0.
    destruct (Z.lt_ge_cases n 8) as [Hlow|Hhigh].
    + rewrite Z.shiftl_spec_low by lia. reflexivity.
    + destruct (Z.eq_dec lo 0) as [->|Hnz]; [by rewrite Z.bits_0, andb_false_r|].
      rewrite (Z.bits_above_log2 lo n), andb_false_r; [done | lia |].
      assert (Z.log2 lo < 8) by (apply Z.log2_lt_pow2; lia). lia.
Qed.

Lemma twos_complement8_range (b : Z) : -128 <= twos_complement8 b <= 127.
Proof. unfold twos_complement8. pose proof (Z.mod_pos_bound (b + 128) 256). lia. Qed.

Section WhileFacts.
Context {St : Type}.
Variable cond : St -> res bool.
Variable body : St -> res St.

(** Total correctness: an invariant kept by the body and a measure the
    body decreases give a result, within any fuel above the measure. *)
Lemma while_total (I : St -> Prop) (m : St -> nat) :
  (forall s, I s ->
     exists b, cond s = OK b /\
       (b = true -> exists s', body s = OK s' /\ I s' /\ (m s' < m s)%nat)) ->
  forall fuel s, I s -> (m s < fuel)%nat ->
    exists sf, while cond body fuel s = OK sf /\ I sf /\ cond sf = OK false.
Proof.
  intros Hstep fuel. induction fuel as [|fuel IH]; intros s Hs Hm; [lia|].
  destruct (Hstep s Hs) as (b & Hc & Hb). simpl. rewrite Hc. simpl.
  destruct b.
  - destruct (Hb eq_refl) as (s' & Hbody & Hs' & Hdec).
    rewrite Hbody. simpl. apply IH; [done | lia].
  - exists s. done.
Qed.

(** The result of a loop, by induction on its iterations. *)
Lemma while_iterations_ind (R : St -> list St -> St -> Prop) :
  (forall s, R s [] s) ->
  (forall s s' l sf, cond s = OK true -> body s = OK s' -> R s' l sf -> R s (s :: l) sf) ->
  forall fuel s sf, while cond body fuel s = OK sf -> R s (iterations cond body fuel s) sf.
Proof.
  intros Hnil Hcons fuel. induction fuel as [|fuel IH]; intros s sf Hw; [discriminate|].
  simpl in Hw. apply bind_OK in Hw as (b & Hc & Hw). simpl. rewrite Hc.
  destruct b.
  - apply bind_OK in Hw as (s' & Hb & Hw). rewrite Hb. eauto.
  - injection Hw as <-. apply Hnil.
Qed.

(** A state in which the body was entered satisfies the loop test. *)
Lemma iterations_cond (fuel : nat) (s s1 : St) :
  s1 ∈ iterations cond body fuel s -> cond s1 = OK true.
Proof.
  revert s. induction fuel as [|fuel IH]; intros s; simpl; [by intros ?%elem_of_nil|].
  destruct (cond s) as [[|]|] eqn:Hc; try by intros ?%elem_of_nil.
  intros [->|Hin]%elem_of_cons; [done|].
  destruct (body s); [eauto | by apply elem_of_nil in Hin].
Qed.
End WhileFacts.

(** The cursor positions of a scan lie inside the buffer. *)
Lemma cursor_in_buffer {A : Type} (data : list byte)
    (body : nat * A -> res (nat * A)) (init : A) (pc : nat) :
  pc ∈ cursor data body init -> (pc < length data)%nat.
Proof.
  unfold cursor. intros [[pc' acc] [-> Hin]]%list_elem_of_fmap.
  apply iterations_cond in Hin. injection Hin as Hin. by apply Nat.ltb_lt in Hin.
Qed.

(** ** Tactics for the loop bodies *)

Ltac guard_facts :=
  repeat match goal with
    | H : _ && _ = true |- _ => apply andb_true_iff in H as [? ?]
    | H : (_ <? _)%nat = true |- _ => apply Nat.ltb_lt in H
    end.

Ltac read_ok data :=
  repeat match goal with
    | |- context [getb data ?i] =>
        let b := fresh "b" in
        destruct (getb_lt data i) as (b & _ & ->); [lia|]; cbn [bind]
    end.

Ltac split_guards :=
  repeat match goal with
    | |- context [if ?c then _ else _] =>
        let H := fresh "Hg" in destruct c eqn:H
    end.

Ltac body_total data :=
  read_ok data; split_guards; guard_facts; read_ok data; split_guards;
  (eexists; split; [reflexivity | cbn [fst]; lia]).

(** ** The opcode tables *)

Lemma HC08_OPCODES_sizes :
  map_Forall (fun _ (e : string * Disasm.mode * nat) => (operand_reach (e.1.2) <= e.2)%nat)
    Disasm.HC08_OPCODES.
Proof. apply (bool_decide_unpack _). vm_compute. exact I. Qed.

Lemma HC08_OPCODES_no_prefix : Disasm.HC08_OPCODES !! 0x9E = None.
Proof. reflexivity. Qed.

(** ** The disassembler never reads outside the buffer *)

Lemma mapM_ok {A B : Type} (f : A -> res B) (l : list A) :
  (forall a, a ∈ l -> exists b, f a = OK b) ->
  exists bs, mapM f l = OK bs /\ length bs = length l.
Proof.
  induction l as [|a l IH]; intros Hf; simpl.
  - by exists [].
  - destruct (Hf a) as [b Hb]; [by left|]. rewrite Hb. simpl.
    destruct IH as (bs & Hbs & Hlen); [intros; apply Hf; by right|].
    rewrite Hbs. simpl. exists (b :: bs). simpl. by rewrite Hlen.
Qed.

Section DisasmSafety.
Import Disasm.
Variable data : list byte.
Variable base_addr : Z.

Lemma read_bytes_ok (pc n : nat) :
  (pc + n <= length data)%nat ->
  exists bs, read_bytes data pc n = OK bs /\ length bs = n.
Proof.
  intros Hn. unfold read_bytes.
  destruct (mapM_ok (fun i => getb data (pc + i)) (seq 0 n)) as (bs & Hbs & Hlen).
  - intros i [_ Hi]%elem_of_seq.
    destruct (getb_lt data (pc + i)) as (b & _ & Hb); [lia | eauto].
  - exists bs. by rewrite Hlen, length_seq in *.
Qed.

Lemma operand_9E_ok (md : mode) (pc size : nat) :
  exists s, operand_9E data base_addr md pc size = OK s.
Proof.
  unfold operand_9E. destruct md; eauto.
  - destruct (Nat.ltb_spec (pc + 2) (length data)) as [H2|]; eauto.
    destruct (getb_lt data (pc + 2) H2) as (b & _ & ->). cbn [bind]. eauto.
  - destruct (Nat.ltb_spec (pc + 3) (length data)) as [H3|]; eauto.
    destruct (getb_lt data (pc + 2)) as (b2 & _ & ->); [lia|].
    destruct (getb_lt data (pc + 3) H3) as (b3 & _ & ->). cbn [bind]. eauto.
  - destruct (Nat.ltb_spec (pc + 3) (length data)) as [H3|]; eauto.
    destruct (getb_lt data (pc + 2)) as (b2 & _ & ->); [lia|].
    destruct (getb_lt data (pc + 3) H3) as (b3 & _ & ->). cbn [bind]. eauto.
Qed.

Lemma decode_prefixed_ok (pc : nat) (opcode : Z) :
  (pc < length data)%nat ->
  exists o, decode_prefixed data base_addr pc opcode = OK o /\
    forall i, o = Some i -> (1 <= i_size i)%nat.
Proof.
  intros Hpc. unfold decode_prefixed.
  destruct (opcode =? 0x9E); cbn [andb]; [|by exists None].
  destruct (Nat.ltb_spec (pc + 1) (length data)) as [H1|]; [|by exists None].
  destruct (getb_lt data (pc + 1) H1) as (b & _ & ->). cbn [bind].
  destruct (HC08_9E_OPCODES !! byte_val b) as [[[mnem md] size0]|]; [|by exists None].
  destruct (read_bytes_ok pc (Nat.min (size0 + 1) (length data - pc))) as (bs & -> & _); [lia|].
  destruct (operand_9E_ok md pc (size0 + 1)) as [operand ->]. cbn [bind].
  eexists. split; [reflexivity|]. intros i [= <-]. cbn [i_size decoded]. lia.
Qed.

Lemma operand_primary_ok (md : mode) (pc size : nat) :
  (pc + size <= length data)%nat -> (operand_reach md <= size)%nat ->
  exists s, operand_primary data base_addr md pc size = OK s.
Proof.
  intros Hfit Hreach. unfold operand_primary.
  destruct md; cbn [operand_reach] in Hreach; eauto;
    try (destruct (getb_lt data (pc + 1)) as (b1 & _ & ->); [lia|]; cbn [bind]);
    try (destruct (getb_lt data (pc + 2)) as (b2 & _ & ->); [lia|]; cbn [bind]);
    eauto;
    destruct (truthy (get_reg_name (byte_val b1))); eauto.
Qed.

Lemma decode_primary_ok (pc : nat) (opcode : Z) :
  (pc < length data)%nat ->
  exists i, decode_primary data base_addr pc opcode = OK i /\ (1 <= i_size i)%nat.
Proof.
  intros Hpc. unfold decode_primary.
  destruct (HC08_OPCODES !! opcode) as [[[mnem md] size]|] eqn:Hop;
    [|by eexists; split; [reflexivity | cbn [i_size db_insn]; lia]].
  pose proof (HC08_OPCODES_sizes _ _ Hop) as Hsz. cbn [fst snd] in Hsz.
  destruct (Nat.ltb_spec (length data) (pc + size)) as [|Hfit];
    [by eexists; split; [reflexivity | cbn [i_size db_insn]; lia]|].
  destruct (read_bytes_ok pc size Hfit) as (bs & -> & _).
  destruct (operand_primary_ok md pc size Hfit Hsz) as [operand ->]. cbn [bind].
  eexists. split; [reflexivity|]. cbn [i_size decoded].
  destruct md; cbn [operand_reach] in Hsz; lia.
Qed.

(** Every iteration decodes one instruction and advances the cursor. *)
Lemma decode_at_ok (pc : nat) :
  (pc < length data)%nat ->
  exists i, decode_at data base_addr pc = OK i /\ (1 <= i_size i)%nat.
Proof.
  intros Hpc. unfold decode_at.
  destruct (getb_lt data pc Hpc) as (b & _ & ->). cbn [bind].
  destruct (decode_prefixed_ok pc (byte_val b) Hpc) as (o & -> & Ho). cbn [bind].
  destruct o as [i|]; [by exists i; split; [|apply Ho] | by apply decode_primary_ok].
Qed.

Lemma disassemble_insns_ok (max_lines : option Z) :
  exists output, disassemble_insns data base_addr max_lines = OK output.
Proof.
  unfold disassemble_insns.
  destruct (while_total (dis_cond data max_lines) (dis_body data base_addr)
              (fun _ => True) (fun s => length data - s.1.1)%nat) with
    (fuel := S (length data)) (s := (0%nat, 0, @nil insn))
    as ([[pc lines] output] & -> & _); [| done | cbn [fst]; lia | by exists output].
  intros [[pc lines] output] _. eexists. split; [reflexivity|].
  intros Hc. apply andb_true_iff in Hc as [Hc%Nat.ltb_lt _]. unfold dis_body.
  destruct (decode_at_ok pc Hc) as (i & -> & Hi). cbn [bind].
  eexists. split; [reflexivity|]. split; [done|]. cbn [fst]. lia.
Qed.
End DisasmSafety.

(** ** The analysis passes never read outside the buffer *)

Section AnalyzeSafety.
Import Analyze.
Variable data : list byte.
Variable base : Z.

(** A pass whose body succeeds and advances the cursor inside the buffer
    runs to completion on the fuel it is given. *)
Lemma scan_total {A : Type} (body : nat * A -> res (nat * A)) (init : A) :
  (forall pc acc, (pc < length data)%nat ->
     exists s', body (pc, acc) = OK s' /\ (pc < s'.1)%nat) ->
  exists sf, while (in_buffer data) body (S (length data)) (0%nat, init) = OK sf.
Proof.
  intros Hbody.
  destruct (while_total (in_buffer data) body (fun _ => True)
              (fun s => length data - s.1)%nat) with
    (fuel := S (length data)) (s := (0%nat, init)) as (sf & Hsf & _);
    [| done | cbn [fst]; lia | by exists sf].
  intros [pc acc] _. eexists. split; [reflexivity|].
  cbn [fst]. intros Hc%Nat.ltb_lt.
  destruct (Hbody pc acc Hc) as (s' & Hs' & Hadv).
  exists s'. split; [done|]. split; [done|]. lia.
Qed.

Lemma subs_body_ok (pc : nat) (subs : gset Z) :
  (pc < length data)%nat ->
  exists s', subs_body data base (pc, subs) = OK s' /\ (pc < s'.1)%nat.
Proof. intros Hpc. unfold subs_body. body_total data. Qed.

Lemma io_body_ok (pc : nat) (tables : gmap Z (list Z) * gmap Z (list Z)) :
  (pc < length data)%nat ->
  exists s', io_body data base (pc, tables) = OK s' /\ (pc < s'.1)%nat.
Proof. intros Hpc. destruct tables as [r w]. unfold io_body. body_total data. Qed.

Lemma ram_body_ok (pc : nat) (counters : gmap Z Z * gmap Z Z) :
  (pc < length data)%nat ->
  exists s', ram_body data (pc, counters) = OK s' /\ (pc < s'.1)%nat.
Proof. intros Hpc. destruct counters as [r w]. unfold ram_body. body_total data. Qed.

Lemma loop_body_ok (pc : nat) (loops : list (Z * Z * Z)) :
  (pc < length data)%nat ->
  exists s', loop_body data base (pc, loops) = OK s' /\ (pc < s'.1)%nat.
Proof. intros Hpc. unfold loop_body. body_total data. Qed.

Lemma find_subroutines_ok : exists subs, find_subroutines data base = OK subs.
Proof.
  unfold find_subroutines.
  destruct (scan_total (subs_body data base) ∅ subs_body_ok) as [[pc subs] ->].
  by eexists.
Qed.

Lemma find_io_accesses_ok : exists tables, find_io_accesses data base = OK tables.
Proof.
  unfold find_io_accesses.
  destruct (scan_total (io_body data base) (∅, ∅) io_body_ok) as [[pc tables] ->].
  by eexists.
Qed.

Lemma find_ram_usage_ok : exists counters, find_ram_usage data = OK counters.
Proof.
  unfold find_ram_usage.
  destruct (scan_total (ram_body data) (∅, ∅) ram_body_ok) as [[pc counters] ->].
  by eexists.
Qed.

Lemma analyze_main_loop_ok : exists loops, analyze_main_loop data base = OK loops.
Proof.
  unfold analyze_main_loop.
  destruct (scan_total (loop_body data base) [] loop_body_ok) as [[pc loops] ->].
  by eexists.
Qed.
End AnalyzeSafety.

Section StringsSafety.
Import Analyze.
Variable data : list byte.
Variable base : Z.

(** The inner loop stops inside the buffer, past printable bytes only. *)
Lemma run_ok (i : nat) :
  (i <= length data)%nat ->
  exists j, while (run_cond data) run_body (S (length data)) i = OK j /\
    (i <= j <= length data)%nat /\ printable_run data i j.
Proof.
  intros Hi.
  destruct (while_total (run_cond data) run_body
              (fun j => (i <= j <= length data)%nat /\ printable_run data i j)
              (fun j => length data - j)%nat) with
    (fuel := S (length data)) (s := i) as (j & Hj & HI & _).
  - intros j [Hij Hrun]. unfold run_cond.
    destruct (Nat.ltb_spec j (length data)) as [Hlt|]; [|by eexists].
    destruct (getb_lt data j Hlt) as (b & Hb & ->). cbn [bind].
    eexists. split; [reflexivity|]. intros Hp.
    exists (j + 1)%nat. split; [done|]. split; [|lia].
    split; [lia|]. intros k Hk.
    destruct (decide (k = j)) as [->|]; [by exists b | apply Hrun; lia].
  - split; [lia|]. intros k Hk. lia.
  - lia.
  - by exists j.
Qed.

Lemma decode_ascii_ok (bs : list byte) :
  Forall (fun b => byte_val b < 128) bs -> exists s, decode_ascii bs = OK s.
Proof.
  induction 1 as [|b bs Hb _ [s IH]]; simpl; [by eexists|].
  destruct (Z.ltb_spec (byte_val b) 128); [|lia].
  rewrite IH. by eexists.
Qed.

Lemma slice_printable (i j : nat) :
  printable_run data i j -> Forall (fun b => byte_val b < 128) (slice data i j).
Proof.
  intros Hrun. apply Forall_lookup. intros k b Hk. unfold slice in Hk.
  apply lookup_take_Some in Hk as [Hk Hlt]. rewrite lookup_drop in Hk.
  destruct (Hrun (i + k)%nat) as (b' & Hb' & Hp); [lia|].
  assert (b' = b) as -> by congruence.
  unfold printable in Hp. apply andb_true_iff in Hp as [_ Hp%Z.leb_le]. lia.
Qed.

Lemma str_body_ok (min_len : Z) (i : nat) (strings : list (Z * string)) :
  (i < length data)%nat ->
  exists s', str_body data base min_len (i, strings) = OK s' /\ (i < s'.1)%nat.
Proof.
  intros Hi. unfold str_body.
  destruct (getb_lt data i Hi) as (b & _ & ->). cbn [bind].
  destruct (printable (byte_val b));
    [|by eexists; split; [reflexivity | cbn [fst]; lia]].
  destruct (run_ok i) as (j & -> & Hij & Hrun); [lia|]. cbn [bind].
  destruct (min_len <=? Z.of_nat j - Z.of_nat i);
    [|by eexists; split; [reflexivity | cbn [fst]; lia]].
  destruct (decode_ascii_ok _ (slice_printable i j Hrun)) as [s ->]. cbn [bind].
  eexists. split; [reflexivity | cbn [fst]; lia].
Qed.

Lemma find_strings_ok (min_len : Z) :
  exists strings, find_strings data base min_len = OK strings.
Proof.
  unfold find_strings.
  destruct (scan_total data (str_body data base min_len) [] (str_body_ok min_len))
    as [[i strings] ->].
  by eexists.
Qed.
End StringsSafety.

(** C9. No analysis pass indexes the buffer outside its bounds.  Every
    read [data[i]] of the six passes is a [getb], which raises
    [IndexError] unless [i < len(data)]; each pass returns a result on
    every buffer, so no read it performs is out of bounds, however the
    buffer ends. *)
Theorem passes_stay_in_bounds (data : list byte) (base : Z)
    (max_lines : option Z) (min_len : Z) :
  (exists output, Disasm.disassemble data base max_lines = OK output) /\
  (exists subs, Analyze.find_subroutines data base = OK subs) /\
  (exists tables, Analyze.find_io_accesses data base = OK tables) /\
  (exists counters, Analyze.find_ram_usage data = OK counters) /\
  (exists loops, Analyze.analyze_main_loop data base = OK loops) /\
  (exists strings, Analyze.find_strings data base min_len = OK strings).
Proof.
  repeat split.
  - unfold Disasm.disassemble.
    destruct (disassemble_insns_ok data base max_lines) as [output ->].
    by eexists.
  - apply find_subroutines_ok.
  - apply find_io_accesses_ok.
  - apply find_ram_usage_ok.
  - apply analyze_main_loop_ok.
  - apply find_strings_ok.
Qed.

(** ** The line cap of [disassemble] *)

Lemma while_ext {St : Type} (cond1 cond2 : St -> res bool) (body : St -> res St) :
  (forall s, cond1 s = cond2 s) ->
  forall fuel s, while cond1 body fuel s = while cond2 body fuel s.
Proof.
  intros Hc fuel. induction fuel as [|fuel IH]; intros s; simpl; [done|].
  rewrite Hc. destruct (cond2 s) as [[|]|]; simpl; [|done|done].
  destruct (body s); simpl; [apply IH | done].
Qed.

Section LineCap.
Import Disasm.
Variable data : list byte.
Variable base_addr : Z.

Lemma dis_cond_zero (s : state) : dis_cond data (Some 0) s = dis_cond data None s.
Proof. by destruct s as [[pc lines] output]. Qed.

(** The loop only ever appends to [output]. *)
Lemma dis_output_grows (max_lines : option Z) (fuel : nat) (s sf : state) :
  while (dis_cond data max_lines) (dis_body data base_addr) fuel s = OK sf ->
  exists rest, sf.2 = s.2 ++ rest.
Proof.
  revert s. induction fuel as [|fuel IH]; intros s Hw; [discriminate|].
  simpl in Hw. apply bind_OK in Hw as (b & _ & Hw). destruct b.
  - apply bind_OK in Hw as (s' & Hb & Hw).
    destruct s as [[pc lines] output]. unfold dis_body in Hb.
    apply bind_OK in Hb as (i & _ & [= <-]).
    destruct (IH _ Hw) as [rest ->]. cbn [snd].
    exists (i :: rest). by rewrite <- app_assoc.
  - injection Hw as <-. exists []. by rewrite app_nil_r.
Qed.

(** A run capped at [n >= 1] lines stops with the first [n] instructions
    of the uncapped run. *)
Lemma dis_capped (n : Z) (fuel : nat) :
  1 <= n ->
  forall pc output sf,
    (length output <= Z.to_nat n)%nat ->
    while (dis_cond data None) (dis_body data base_addr) fuel
      (pc, Z.of_nat (length output), output) = OK sf ->
    exists pc' lines',
      while (dis_cond data (Some n)) (dis_body data base_addr) fuel
        (pc, Z.of_nat (length output), output) = OK (pc', lines', take (Z.to_nat n) sf.2).
Proof.
  intros Hn. induction fuel as [|fuel IH]; intros pc output sf Hlen Hw; [discriminate|].
  pose proof (dis_output_grows _ _ _ _ Hw) as [rest Hrest]. cbn [snd] in Hrest.
  simpl in Hw. simpl.
  destruct (Nat.ltb_spec pc (length data)) as [Hpc|Hpc]; cbn [andb bind] in *.
  - destruct (Z.eqb_spec n 0) as [|_]; [lia|]. cbn [negb andb].
    apply bind_OK in Hw as (s' & Hb & Hw). unfold dis_body in Hb.
    apply bind_OK in Hb as (i & Hi & [= <-]).
    destruct (Z.leb_spec n (Z.of_nat (length output))) as [Hcap|Hcap]; cbn [negb].
    + exists pc, (Z.of_nat (length output)). rewrite Hrest.
      rewrite take_app_le by lia. rewrite take_ge by lia. done.
    + unfold dis_body at 1. rewrite Hi. cbn [bind].
      replace (Z.of_nat (length output) + 1) with (Z.of_nat (length (output ++ [i]))) in *
        by (rewrite length_app; simpl; lia).
      apply IH; [rewrite length_app; simpl; lia | done].
  - injection Hw as <-. cbn [snd]. exists pc, (Z.of_nat (length output)).
    by rewrite take_ge by lia.
Qed.

Lemma disassemble_insns_cap (n : Z) (full : list insn) :
  1 <= n ->
  disassemble_insns data base_addr None = OK full ->
  disassemble_insns data base_addr (Some n) = OK (take (Z.to_nat n) full).
Proof.
  intros Hn Hfull. unfold disassemble_insns in *.
  apply bind_OK in Hfull as ([[pcf linesf] outf] & Hw & [= <-]).
  destruct (dis_capped n (S (length data)) Hn 0%nat [] _ ltac:(simpl; lia) Hw)
    as (pc' & lines' & Hcap).
  change (Z.of_nat (length (@nil insn))) with 0 in Hcap. by rewrite Hcap.
Qed.

(** A negative cap stops the loop before the first instruction. *)
Lemma disassemble_insns_negative (n : Z) :
  n < 0 -> disassemble_insns data base_addr (Some n) = OK [].
Proof.
  intros Hn. unfold disassemble_insns. cbn [while dis_cond bind].
  destruct (Z.eqb_spec n 0) as [|_]; [lia|].
  destruct (Z.leb_spec n 0) as [_|]; [|lia].
  cbn [negb andb]. by rewrite andb_false_r.
Qed.
End LineCap.

(** ** Relative branch targets *)

(** C8. A relative-mode instruction at address [A] with tabulated length
    [L] and displacement byte [d] is rendered with the target
    [A + L + D], where [D] in -128..127 is the two's-complement value of
    [d]; at the extremes, byte 0x80 gives [A + L - 128] and byte 0x7F gives
    [A + L + 127]. *)
Theorem relative_target_law (data : list byte) (base : Z) (pc : nat)
    (op d : byte) (mnem : string) (L : nat) :
  data !! pc = Some op ->
  Disasm.HC08_OPCODES !! byte_val op = Some (mnem, Disasm.REL, L) ->
  (pc + L <= length data)%nat ->
  data !! (pc + 1)%nat = Some d ->
  let A := base + Z.of_nat pc in
  let D := twos_complement8 (byte_val d) in
  -128 <= D <= 127 /\
  (d = x80 -> D = -128) /\ (d = x7f -> D = 127) /\
  exists i, Disasm.decode_at data base pc = OK i /\
    Disasm.i_addr i = A /\ Disasm.i_mnem i = mnem /\ Disasm.i_size i = L /\
    Disasm.i_operand i = ("$" +:+ fmt_X 4 (A + Z.of_nat L + D))%string.
Proof.
  intros Hop Htab Hfit Hd A D.
  split; [apply twos_complement8_range|].
  split; [by intros ->|]. split; [by intros ->|].
  unfold Disasm.decode_at. rewrite (getb_Some _ _ _ Hop). cbn [bind].
  unfold Disasm.decode_prefixed.
  destruct (Z.eqb_spec (byte_val op) 0x9E) as [Heq|_].
  { rewrite Heq, HC08_OPCODES_no_prefix in Htab. discriminate. }
  cbn [andb bind]. unfold Disasm.decode_primary. rewrite Htab.
  destruct (Nat.ltb_spec (length data) (pc + L)) as [|_]; [lia|].
  destruct (read_bytes_ok data pc L Hfit) as (bs & -> & _). cbn [bind].
  unfold Disasm.operand_primary. rewrite (getb_Some _ _ _ Hd). cbn [bind].
  rewrite signed_rel_twos_complement.
  eexists. split; [reflexivity|]. done.
Qed.

(** The law at the lowest displacement: [BRA] with byte 0x80 at 0x8000. *)
Lemma relative_target_law_witness :
  -128 <= twos_complement8 (byte_val x80) <= 127 /\
  (x80 = x80 -> twos_complement8 (byte_val x80) = -128) /\
  (x80 = x7f -> twos_complement8 (byte_val x80) = 127) /\
  exists i, Disasm.decode_at [x20; x80] 0x8000 0 = OK i /\
    Disasm.i_addr i = 0x8000 + Z.of_nat 0 /\ Disasm.i_mnem i = "BRA" /\
    Disasm.i_size i = 2%nat /\
    Disasm.i_operand i =
      ("$" +:+ fmt_X 4 (0x8000 + Z.of_nat 0 + Z.of_nat 2 + twos_complement8 (byte_val x80)))%string.
Proof.
  apply (relative_target_law [x20; x80] 0x8000 0 x20 x80 "BRA" 2).
  - reflexivity.
  - reflexivity.
  - simpl. lia.
  - reflexivity.
Defined.

(** The two extremes, evaluated: 0x8000 + 2 - 128 = 0x7F82 and
    0x8000 + 2 + 127 = 0x8081. *)
Example relative_target_extremes :
  Disasm.disassemble [x20; x80] 0x8000 None = OK ["8000: 20 80           BRA      $7F82"] /\
  Disasm.disassemble [x20; x7f] 0x8000 None = OK ["8000: 20 7F           BRA      $8081"].
Proof. split; reflexivity. Qed.

(** ** Operands resolved against the register names *)

(** A direct-mode operand is looked up with [get_reg_name] and rendered as
    [<name] when a name is found. *)
Lemma direct_operand_named (data : list byte) (base : Z) (pc size : nat)
    (d : byte) (name : string) :
  data !! (pc + 1)%nat = Some d ->
  Disasm.truthy (Disasm.get_reg_name (byte_val d)) = Some name ->
  Disasm.operand_primary data base Disasm.DIR pc size = OK ("<" +:+ name)%string.
Proof.
  intros Hd Hname. unfold Disasm.operand_primary.
  rewrite (getb_Some _ _ _ Hd). cbn [bind]. by rewrite Hname.
Qed.

(** An extended-mode operand is rendered as the raw address, whatever the
    register table holds for it. *)
Lemma extended_operand_raw (data : list byte) (base : Z) (pc size : nat) (hi lo : byte) :
  data !! (pc + 1)%nat = Some hi ->
  data !! (pc + 2)%nat = Some lo ->
  Disasm.operand_primary data base Disasm.EXT pc size =
    OK ("$" +:+ fmt_X 4 (Z.lor (Z.shiftl (byte_val hi) 8) (byte_val lo)))%string.
Proof.
  intros Hhi Hlo. unfold Disasm.operand_primary.
  by rewrite (getb_Some _ _ _ Hhi), (getb_Some _ _ _ Hlo).
Qed.

(** C4. [LDA] extended at address 0x0000, which the register table names
    [PORTA], is rendered with the raw address [$0000]; the same register
    through the direct mode is rendered [<PORTA]. *)
Theorem extended_operand_keeps_hex :
  Disasm.get_reg_name 0x0000 = Some "PORTA" /\
  Disasm.disassemble [xc6; x00; x00] 0x8000 None =
    OK ["8000: C6 00 00        LDA      $0000"] /\
  Disasm.disassemble [xb6; x00] 0x8000 None =
    OK ["8000: B6 00           LDA      <PORTA"].
Proof. repeat split; reflexivity. Qed.

(** ** RAM counters by direction *)

(** The direction of a counted access: only opcode 0xC7 counts as a
    write; every other opcode of 0xC0-0xCF except 0xCC and 0xCD counts as a
    read. *)
Lemma ram_body_direction (data : list byte) (pc : nat) (r w : gmap Z Z) (op hi lo : byte) :
  data !! pc = Some op ->
  data !! (pc + 1)%nat = Some hi ->
  data !! (pc + 2)%nat = Some lo ->
  0xC0 <= byte_val op <= 0xCF -> byte_val op <> 0xCC -> byte_val op <> 0xCD ->
  0x0040 <= byte_val hi * 256 + byte_val lo <= 0x083F ->
  Analyze.ram_body data (pc, (r, w)) =
    OK ((pc + 3)%nat,
        if byte_val op =? 0xC7
        then (r, Analyze.bump w (byte_val hi * 256 + byte_val lo))
        else (Analyze.bump r (byte_val hi * 256 + byte_val lo), w)).
Proof.
  intros Hop Hhi Hlo Hrange Hcc Hcd Hram. unfold Analyze.ram_body.
  rewrite (getb_Some _ _ _ Hop). cbn [bind].
  apply lookup_lt_Some in Hlo as Hlt.
  destruct (Z.leb_spec 0xC0 (byte_val op)); [|lia].
  destruct (Z.leb_spec (byte_val op) 0xCF); [|lia].
  rewrite bool_decide_eq_false_2
    by (rewrite !elem_of_cons, elem_of_nil; intros [?|[?|?]]; done).
  destruct (Nat.ltb_spec (pc + 2) (length data)); [|lia]. cbn [andb negb].
  rewrite (getb_Some _ _ _ Hhi), (getb_Some _ _ _ Hlo). cbn [bind].
  rewrite lor_shiftl_8 by (pose proof (byte_val_range lo); lia).
  destruct (Z.leb_spec 0x0040 (byte_val hi * 256 + byte_val lo)); [|lia].
  destruct (Z.leb_spec (byte_val hi * 256 + byte_val lo) 0x083F); [|lia]. cbn [andb].
  by destruct (byte_val op =? 0xC7).
Qed.

(** C5. [STX] extended (0xCF) to the RAM address 0x0100 increments the
    read counter of that address and leaves the write counters empty;
    [STA] extended (0xC7) increments the write counter. *)
Theorem stx_extended_counted_as_read :
  Analyze.find_ram_usage [xcf; x01; x00] = OK ({[0x0100 := 1]}, ∅) /\
  Analyze.find_ram_usage [xc7; x01; x00] = OK (∅, {[0x0100 := 1]}).
Proof. split; reflexivity. Qed.

(** ** Coverage of the buffer *)

Lemma consumed_snoc (l : list Disasm.insn) (i : Disasm.insn) :
  consumed (l ++ [i]) = (consumed l + Disasm.i_size i)%nat.
Proof. induction l as [|j l IH]; simpl; [lia | rewrite IH; lia]. Qed.

Lemma tiles_snoc (addr : Z) (l : list Disasm.insn) (i : Disasm.insn) :
  tiles addr l ->
  Disasm.i_addr i = addr + Z.of_nat (consumed l) ->
  (1 <= Disasm.i_size i)%nat ->
  tiles addr (l ++ [i]).
Proof.
  revert addr. induction l as [|j l IH]; intros addr Hl Hi Hsz; simpl in *.
  - split; [lia | done].
  - destruct Hl as (Hj & Hjs & Hl). split; [done|]. split; [done|].
    apply IH; [done | lia | done].
Qed.

Section Coverage.
Import Disasm.
Variable data : list byte.
Variable base_addr : Z.

(** An instruction of the primary table, or an undecoded byte, ends inside
    the buffer. *)
Lemma decode_primary_extent (pc : nat) (opcode : Z) (i : insn) :
  (pc < length data)%nat ->
  decode_primary data base_addr pc opcode = OK i ->
  i_addr i = base_addr + Z.of_nat pc /\ (1 <= i_size i)%nat /\
  (pc + i_size i <= length data)%nat.
Proof.
  intros Hpc Hd. unfold decode_primary in Hd.
  destruct (HC08_OPCODES !! opcode) as [[[mnem md] size]|] eqn:Hop;
    [|apply OK_inj in Hd as <-; cbn [i_addr i_size db_insn]; lia].
  pose proof (HC08_OPCODES_sizes _ _ Hop) as Hsz. cbn [fst snd] in Hsz.
  destruct (Nat.ltb_spec (length data) (pc + size)) as [|Hfit];
    [apply OK_inj in Hd as <-; cbn [i_addr i_size db_insn]; lia|].
  apply bind_OK in Hd as (bs & _ & Hd). apply bind_OK in Hd as (operand & _ & Hd).
  apply OK_inj in Hd as <-. cbn [i_addr i_size decoded].
  split; [done|]. split; [|done]. destruct md; cbn [operand_reach] in Hsz; lia.
Qed.

(** An instruction starts at the cursor and ends inside the buffer, unless
    it is a prefixed instruction cut by the buffer end. *)
Lemma decode_at_extent (pc : nat) (i : insn) :
  (pc < length data)%nat ->
  decode_at data base_addr pc = OK i ->
  i_addr i = base_addr + Z.of_nat pc /\ (1 <= i_size i)%nat /\
  ((pc + i_size i <= length data)%nat \/ cut_prefixed data pc).
Proof.
  intros Hpc Hd. unfold decode_at in Hd.
  destruct (getb_lt data pc Hpc) as (op & Hop & Hg). rewrite Hg in Hd. cbn [bind] in Hd.
  apply bind_OK in Hd as (pre & Hpre & Hd).
  assert (pre = None -> i_addr i = base_addr + Z.of_nat pc /\ (1 <= i_size i)%nat /\
            ((pc + i_size i <= length data)%nat \/ cut_prefixed data pc)) as Hprimary.
  { intros ->. destruct (decode_primary_extent pc _ i Hpc Hd) as (? & ? & ?). auto. }
  unfold decode_prefixed in Hpre.
  destruct (Z.eqb_spec (byte_val op) 0x9E) as [E|_]; cbn [andb] in Hpre;
    [|apply OK_inj in Hpre as <-; by apply Hprimary].
  destruct (Nat.ltb_spec (pc + 1) (length data)) as [H1|_];
    [|apply OK_inj in Hpre as <-; by apply Hprimary].
  destruct (getb_lt data (pc + 1) H1) as (sub & Hsub & Hgs).
  rewrite Hgs in Hpre. cbn [bind] in Hpre.
  destruct (HC08_9E_OPCODES !! byte_val sub) as [[[mnem md] size0]|] eqn:Htab;
    [|apply OK_inj in Hpre as <-; by apply Hprimary].
  apply bind_OK in Hpre as (bs & _ & Hpre). apply bind_OK in Hpre as (operand & _ & Hpre).
  apply OK_inj in Hpre as <-. apply OK_inj in Hd as <-. cbn [i_addr i_size decoded].
  split; [done|]. split; [lia|].
  destruct (le_lt_dec (pc + (size0 + 1)) (length data)) as [Hfit|Hcut]; [by left|].
  right. by exists op, sub, mnem, md, size0.
Qed.

(** The uncapped run: the instructions tile the addresses from
    [base_addr] on and cover the buffer exactly, unless the last one is a
    prefixed instruction cut by the buffer end, which then reaches past
    it. *)
Lemma disassemble_coverage :
  exists output,
    disassemble_insns data base_addr None = OK output /\
    tiles base_addr output /\
    (consumed output = length data \/
     ((length data < consumed output)%nat /\
      exists i, last output = Some i /\
        cut_prefixed data (consumed output - i_size i))).
Proof.
  unfold disassemble_insns.
  destruct (while_total (dis_cond data None) (dis_body data base_addr)
              (fun s => tiles base_addr s.2 /\ consumed s.2 = s.1.1 /\
                 ((s.1.1 <= length data)%nat \/
                  exists i, last s.2 = Some i /\ cut_prefixed data (s.1.1 - i_size i)))
              (fun s => length data - s.1.1)%nat) with
    (fuel := S (length data)) (s := (0%nat, 0, @nil insn))
    as ([[pc lines] output] & -> & (Htiles & Hcons & Hend) & Hexit).
  - intros [[pc lines] output] (Htiles & Hcons & _). cbn [fst snd] in *.
    eexists. split; [reflexivity|].
    intros Hc. apply andb_true_iff in Hc as [Hc%Nat.ltb_lt _]. unfold dis_body.
    destruct (decode_at_ok data base_addr pc Hc) as (i & Hi & _). rewrite Hi. cbn [bind].
    destruct (decode_at_extent pc i Hc Hi) as (Haddr & Hsz & Hext).
    eexists. split; [reflexivity|]. cbn [fst snd]. split; [|lia].
    split; [apply tiles_snoc; [done | lia | done]|].
    split; [rewrite consumed_snoc; lia|].
    destruct Hext as [Hfit|Hcut]; [by left|]. right. exists i.
    rewrite last_snoc. split; [done|].
    by replace (pc + i_size i - i_size i)%nat with pc by lia.
  - cbn [fst snd]. split; [done|]. split; [done|]. left. lia.
  - cbn [fst]. lia.
  - cbn [fst snd bind] in *. exists output. split; [done|]. split; [done|].
    injection Hexit as Hexit. rewrite andb_true_r in Hexit. apply Nat.ltb_ge in Hexit.
    destruct (le_lt_dec pc (length data)) as [Hle|Hgt]; [left; lia|].
    right. split; [lia|]. destruct Hend as [?|Hcut]; [lia|]. by rewrite Hcons.
Qed.
End Coverage.

Lemma HC08_9E_OPCODES_sizes :
  map_Forall (fun _ (e : string * Disasm.mode * nat) => prefixed_size (e.1.2) = Some (e.2))
    Disasm.HC08_9E_OPCODES.
Proof. apply (bool_decide_unpack _). vm_compute. exact I. Qed.

Lemma spans_snoc (addr : Z) (l : list Disasm.insn) (i : Disasm.insn) :
  spans addr l ->
  Disasm.i_addr i = addr + Z.of_nat (length (shown_bytes l)) ->
  Disasm.i_bytes i <> [] ->
  spans addr (l ++ [i]).
Proof.
  revert addr. induction l as [|j l IH]; intros addr Hl Hi Hne; simpl in *.
  - split; [lia | done].
  - destruct Hl as (Hj & Hjne & Hl). split; [done|]. split; [done|].
    apply IH; [done | | done]. rewrite length_app in Hi. lia.
Qed.

Lemma shown_bytes_snoc (l : list Disasm.insn) (i : Disasm.insn) :
  shown_bytes (l ++ [i]) = shown_bytes l ++ Disasm.i_bytes i.
Proof. unfold shown_bytes. rewrite flat_map_app. simpl. by rewrite app_nil_r. Qed.

Section ShownBytes.
Import Disasm.
Variable data : list byte.
Variable base_addr : Z.

(** [read_bytes] returns the bytes of the buffer it was asked for. *)
Lemma read_bytes_take (pc n : nat) :
  (pc + n <= length data)%nat ->
  read_bytes data pc n = OK (byte_val <$> take n (drop pc data)).
Proof.
  unfold read_bytes. intros Hfit.
  assert (forall k, (k + n <= length data - pc)%nat ->
            mapM (fun i => getb data (pc + i)) (seq k n)
              = OK (byte_val <$> take n (drop (pc + k) data))) as Hgen.
  { clear Hfit. induction n as [|n IH]; intros k Hk; [done|].
    cbn [seq mapM].
    destruct (getb_lt data (pc + k)) as (b & Hb & ->); [lia|]. cbn [bind].
    rewrite IH by lia. cbn [bind].
    rewrite (drop_S data b (pc + k) Hb). cbn [take fmap list_fmap].
    by replace (pc + S k)%nat with (S (pc + k)) by lia. }
  rewrite Hgen by lia. by rewrite Nat.add_0_r.
Qed.

(** The bytes an instruction shows are the bytes of the buffer from the
    cursor on, as many as its size or as are left. *)
Lemma decode_at_bytes (pc : nat) (i : insn) :
  (pc < length data)%nat ->
  decode_at data base_addr pc = OK i ->
  i_addr i = base_addr + Z.of_nat pc /\ (1 <= i_size i)%nat /\
  i_bytes i = byte_val <$> take (i_size i) (drop pc data).
Proof.
  intros Hpc Hd. unfold decode_at in Hd.
  destruct (getb_lt data pc Hpc) as (op & Hop & Hg). rewrite Hg in Hd. cbn [bind] in Hd.
  apply bind_OK in Hd as (pre & Hpre & Hd).
  assert (pre = None -> i_addr i = base_addr + Z.of_nat pc /\ (1 <= i_size i)%nat /\
            i_bytes i = byte_val <$> take (i_size i) (drop pc data)) as Hprimary.
  { intros ->. unfold decode_primary in Hd.
    assert (i = db_insn (base_addr + Z.of_nat pc) (byte_val op) ->
            i_addr i = base_addr + Z.of_nat pc /\ (1 <= i_size i)%nat /\
            i_bytes i = byte_val <$> take (i_size i) (drop pc data)) as Hdb.
    { intros ->. cbn [i_addr i_size i_bytes db_insn].
      rewrite (drop_S data op pc Hop). cbn [take fmap list_fmap]. by rewrite take_0. }
    destruct (HC08_OPCODES !! byte_val op) as [[[mnem md] size]|] eqn:Htab;
      [|apply OK_inj in Hd as <-; by apply Hdb].
    pose proof (HC08_OPCODES_sizes _ _ Htab) as Hsz. cbn [fst snd] in Hsz.
    destruct (Nat.ltb_spec (length data) (pc + size)) as [|Hfit];
      [apply OK_inj in Hd as <-; by apply Hdb|].
    rewrite (read_bytes_take pc size Hfit) in Hd. cbn [bind] in Hd.
    apply bind_OK in Hd as (operand & _ & Hd). apply OK_inj in Hd as <-.
    cbn [i_addr i_size i_bytes decoded]. split; [done|]. split; [|done].
    destruct md; cbn [operand_reach] in Hsz; lia. }
  unfold decode_prefixed in Hpre.
  destruct (byte_val op =? 0x9E); cbn [andb] in Hpre;
    [|apply OK_inj in Hpre as <-; by apply Hprimary].
  destruct (Nat.ltb_spec (pc + 1) (length data)) as [H1|_];
    [|apply OK_inj in Hpre as <-; by apply Hprimary].
  destruct (getb_lt data (pc + 1) H1) as (sub & Hsub & Hgs).
  rewrite Hgs in Hpre. cbn [bind] in Hpre.
  destruct (HC08_9E_OPCODES !! byte_val sub) as [[[mnem md] size0]|] eqn:Htab;
    [|apply OK_inj in Hpre as <-; by apply Hprimary].
  rewrite read_bytes_take in Hpre by lia. cbn [bind] in Hpre.
  apply bind_OK in Hpre as (operand & _ & Hpre).
  apply OK_inj in Hpre as <-. apply OK_inj in Hd as <-.
  cbn [i_addr i_size i_bytes decoded]. split; [done|]. split; [lia|].
  f_equal. destruct (Nat.min_spec (size0 + 1) (length data - pc)) as [[_ ->]|[Hle ->]];
    [done|].
  rewrite !take_ge; [done | |]; rewrite length_drop; lia.
Qed.


Lemma disassemble_shown :
  exists output,
    disassemble_insns data base_addr None = OK output /\
    spans base_addr output /\
    shown_bytes output = byte_val <$> data.
Proof.
  unfold disassemble_insns.
  destruct (while_total (dis_cond data None) (dis_body data base_addr)
              (fun s => spans base_addr s.2 /\
                 shown_bytes s.2 = byte_val <$> take s.1.1 data)
              (fun s => length data - s.1.1)%nat) with
    (fuel := S (length data)) (s := (0%nat, 0, @nil insn))
    as ([[pc lines] output] & -> & (Hspans & Hshown) & Hexit).
  - intros [[pc lines] output] (Hspans & Hshown). cbn [fst snd] in *.
    eexists. split; [reflexivity|].
    intros Hc. apply andb_true_iff in Hc as [Hc%Nat.ltb_lt _]. unfold dis_body.
    destruct (decode_at_ok data base_addr pc Hc) as (i & Hi & _). rewrite Hi. cbn [bind].
    destruct (decode_at_bytes pc i Hc Hi) as (Haddr & Hsz & Hbytes).
    eexists. split; [reflexivity|]. cbn [fst snd]. split; [|lia]. split.
    + apply spans_snoc; [done | |].
      * rewrite Hshown, length_fmap, length_take. lia.
      * rewrite Hbytes. destruct (lookup_lt_is_Some_2 data pc Hc) as [b Hb].
        rewrite (drop_S data b pc Hb). by destruct (i_size i); [lia|].
    + rewrite shown_bytes_snoc, Hshown, Hbytes, <- fmap_app. f_equal.
      by rewrite take_take_drop.
  - done.
  - cbn [fst]. lia.
  - cbn [fst snd bind] in *. exists output. split; [done|]. split; [done|].
    injection Hexit as Hexit. rewrite andb_true_r in Hexit. apply Nat.ltb_ge in Hexit.
    by rewrite Hshown, take_ge.
Qed.
End ShownBytes.




(** ** The line cap and the whole buffer *)

(** C10, as the code has it.  [max_lines = 0] disables the cap: the run is
    the run with no cap at all, and it decodes the whole buffer, its
    instructions following one another from [base] and showing, taken
    together, every byte of the buffer, so it is not empty unless the
    buffer is.  For [max_lines >= 1] the output is the first [max_lines]
    lines of that list, hence at most [max_lines] of them.  A negative
    [max_lines] is not disabled like 0: the cap stops the loop before the
    first instruction and no line is returned. *)
Theorem max_lines_zero_disables_cap (data : list byte) (base : Z) :
  exists insns,
    Disasm.disassemble_insns data base (Some 0) = OK insns /\
    spans base insns /\
    shown_bytes insns = byte_val <$> data /\
    (data <> [] -> insns <> []) /\
    Disasm.disassemble data base (Some 0) = OK (Disasm.i_line <$> insns) /\
    Disasm.disassemble data base None = OK (Disasm.i_line <$> insns) /\
    (forall n, 1 <= n ->
       Disasm.disassemble data base (Some n)
       = OK (take (Z.to_nat n) (Disasm.i_line <$> insns)) /\
       Z.of_nat (length (take (Z.to_nat n) (Disasm.i_line <$> insns))) <= n) /\
    (forall n, n < 0 -> Disasm.disassemble data base (Some n) = OK []).
Proof.
  destruct (disassemble_shown data base) as (insns & Hfull & Hspans & Hshown).
  assert (Disasm.disassemble_insns data base (Some 0) = OK insns) as Hzero.
  { rewrite <- Hfull. unfold Disasm.disassemble_insns.
    by rewrite (while_ext _ _ _ (dis_cond_zero data)). }
  exists insns. unfold Disasm.disassemble.
  split; [exact Hzero|]. split; [exact Hspans|]. split; [exact Hshown|]. split.
  { intros Hne ->. apply Hne. by destruct data. }
  split; [by rewrite Hzero|]. split; [by rewrite Hfull|]. split.
  - intros n Hn. rewrite (disassemble_insns_cap data base n insns Hn Hfull). cbn [bind].
    split; [by rewrite fmap_take|]. rewrite length_take. lia.
  - intros n Hn. by rewrite (disassemble_insns_negative data base n Hn).
Qed.

(** The three regimes on a buffer of three one-byte instructions. *)
Lemma max_lines_zero_disables_cap_witness :
  exists lines,
    Disasm.disassemble [x9d; x9d; x9d] 0x8000 (Some 0) = OK lines /\
    Disasm.disassemble [x9d; x9d; x9d] 0x8000 None = OK lines /\
    lines <> [] /\
    Disasm.disassemble [x9d; x9d; x9d] 0x8000 (Some 2) = OK (take 2 lines) /\
    Z.of_nat (length (take 2 lines)) <= 2 /\
    Disasm.disassemble [x9d; x9d; x9d] 0x8000 (Some (-1)) = OK [].
Proof.
  destruct (max_lines_zero_disables_cap [x9d; x9d; x9d] 0x8000)
    as (insns & _ & _ & _ & Hne & H0 & Hnone & Hcap & Hneg).
  exists (Disasm.i_line <$> insns). split; [exact H0|]. split; [exact Hnone|]. split.
  { intros Hnil%fmap_nil_inv. by apply Hne. }
  destruct (Hcap 2 ltac:(lia)) as [H2 Hlen]. split; [exact H2|]. split; [exact Hlen|].
  apply Hneg. lia.
Defined.

(** C10 as stated fails for a negative [max_lines]: the cap takes effect
    although [max_lines >= 1] does not hold.  On the one-byte buffer [9D]
    the uncapped run and the run with [max_lines = 0] return the line of
    [NOP]; the run with [max_lines = -1] returns no line. *)
Lemma negative_max_lines_counterexample :
  Disasm.disassemble [x9d] 0x8000 None = OK ["8000: 9D              NOP      "] /\
  Disasm.disassemble [x9d] 0x8000 (Some 0) = OK ["8000: 9D              NOP      "] /\
  Disasm.disassemble [x9d] 0x8000 (Some (-1)) = OK [] /\
  Disasm.disassemble [x9d] 0x8000 (Some (-1)) <> Disasm.disassemble [x9d] 0x8000 None /\
  ~ (1 <= -1).
Proof. repeat split; [discriminate | lia]. Qed.

(** ** Call targets *)

Lemma sorted_strict (l : list Z) :
  StronglySorted Z.le l -> NoDup l -> StronglySorted Z.lt l.
Proof.
  induction 1 as [|x l Hl IH Hx]; intros Hnd; [constructor|].
  apply NoDup_cons in Hnd as [Hnin Hnd]. constructor; [by apply IH|].
  apply Forall_forall. intros y Hy.
  pose proof (proj1 (Forall_forall _ _) Hx y Hy) as Hle.
  assert (x <> y) by (intros ->; done). lia.
Qed.

Lemma add_target (t target : Z) (subs : gset Z) :
  t ∈ {[target]} ∪ subs <-> t ∈ subs \/ Some target = Some t.
Proof.
  rewrite elem_of_union, elem_of_singleton. split.
  - intros [->|Hin]; [by right | by left].
  - intros [Hin|[= ->]]; [by right | by left].
Qed.

Lemma no_target (t : Z) (subs : gset Z) : t ∈ subs <-> t ∈ subs \/ None = Some t.
Proof. split; [by left | by intros [?|?]]. Qed.

Section CallTargets.
Import Analyze.
Variable data : list byte.
Variable base : Z.

(** One iteration adds the call target at the cursor, if any. *)
Lemma subs_body_target (pc : nat) (subs : gset Z) (s' : nat * gset Z) :
  (pc < length data)%nat ->
  subs_body data base (pc, subs) = OK s' ->
  forall t, t ∈ s'.2 <-> t ∈ subs \/ call_target data base pc = Some t.
Proof.
  intros Hpc Hb t. unfold subs_body in Hb. unfold call_target.
  destruct (getb_lt data pc Hpc) as (op & Hop & Hg).
  rewrite Hg in Hb. rewrite Hop. cbn [bind] in Hb.
  destruct (Z.eqb_spec (byte_val op) 0xBD) as [E|_].
  { rewrite E in Hb. cbn [andb Z.eqb Pos.eqb] in Hb.
    destruct (Nat.ltb_spec (pc + 1) (length data)) as [H1|H1].
    - destruct (getb_lt data (pc + 1) H1) as (d & Hd & Hgd).
      rewrite Hgd in Hb. rewrite Hd. apply OK_inj in Hb as <-. apply add_target.
    - rewrite (lookup_ge_None_2 data (pc + 1)) by lia.
      apply OK_inj in Hb as <-. apply no_target. }
  destruct (Z.eqb_spec (byte_val op) 0xCD) as [E|_].
  { rewrite E in Hb. cbn [andb Z.eqb Pos.eqb] in Hb.
    destruct (Nat.ltb_spec (pc + 2) (length data)) as [H2|H2].
    - destruct (getb_lt data (pc + 1)) as (hi & Hhi & Hghi); [lia|].
      destruct (getb_lt data (pc + 2) H2) as (lo & Hlo & Hglo).
      rewrite Hghi, Hglo in Hb. rewrite Hhi, Hlo. apply OK_inj in Hb as <-. cbn [snd].
      rewrite lor_shiftl_8 by (pose proof (byte_val_range lo); lia). apply add_target.
    - rewrite (lookup_ge_None_2 data (pc + 2)) by lia.
      apply OK_inj in Hb as <-. cbn [snd].
      destruct (data !! (pc + 1)%nat); apply no_target. }
  destruct (Z.eqb_spec (byte_val op) 0xAD) as [E|_]; cbn [andb] in Hb.
  { destruct (Nat.ltb_spec (pc + 1) (length data)) as [H1|H1].
    - destruct (getb_lt data (pc + 1) H1) as (d & Hd & Hgd).
      rewrite Hgd in Hb. rewrite Hd. apply OK_inj in Hb as <-. cbn [snd].
      rewrite signed_rel_twos_complement. apply add_target.
    - rewrite (lookup_ge_None_2 data (pc + 1)) by lia.
      apply OK_inj in Hb as <-. apply no_target. }
  apply OK_inj in Hb as <-. apply no_target.
Qed.

Lemma subs_collected (fuel : nat) (s sf : nat * gset Z) :
  while (in_buffer data) (subs_body data base) fuel s = OK sf ->
  forall t, t ∈ sf.2 <->
    t ∈ s.2 \/
    exists pc, pc ∈ (iterations (in_buffer data) (subs_body data base) fuel s).*1 /\
      call_target data base pc = Some t.
Proof.
  apply (while_iterations_ind (in_buffer data) (subs_body data base)
           (fun s l sf => forall t, t ∈ sf.2 <->
              t ∈ s.2 \/ exists pc, pc ∈ l.*1 /\ call_target data base pc = Some t)).
  - intros s0 t. split; [by left|]. by intros [?|(pc & ?%elem_of_nil & _)].
  - intros [pc subs] s' l sf0 Hc Hb IH t.
    injection Hc as Hc%Nat.ltb_lt. cbn [fst] in Hc.
    pose proof (subs_body_target pc subs s' Hc Hb t) as Hstep.
    rewrite IH, Hstep. cbn [snd fmap list_fmap fst]. split.
    + intros [[?|?]|(pc' & Hin & Ht)]; [by left | right | right].
      * exists pc. split; [by left | done].
      * exists pc'. split; [by right | done].
    + intros [?|(pc' & [->|Hin]%elem_of_cons & Ht)]; [by left; left | by left; right |].
      right. by exists pc'.
Qed.
(** One iteration steps over the instruction at the cursor. *)
Lemma subs_body_width (pc : nat) (subs : gset Z) (s' : nat * gset Z) :
  (pc < length data)%nat ->
  subs_body data base (pc, subs) = OK s' ->
  s'.1 = (pc + call_width data pc)%nat.
Proof.
  intros Hpc Hb. unfold subs_body in Hb. unfold call_width.
  destruct (getb_lt data pc Hpc) as (op & Hop & Hg).
  rewrite Hg in Hb. rewrite Hop. cbn [bind] in Hb.
  destruct ((byte_val op =? 0xBD) && (pc + 1 <? length data)%nat) eqn:E1.
  { apply bind_OK in Hb as (t & _ & Hb). by apply OK_inj in Hb as <-. }
  destruct ((byte_val op =? 0xCD) && (pc + 2 <? length data)%nat) eqn:E2.
  { apply bind_OK in Hb as (hi & _ & Hb). apply bind_OK in Hb as (lo & _ & Hb).
    by apply OK_inj in Hb as <-. }
  destruct ((byte_val op =? 0xAD) && (pc + 1 <? length data)%nat) eqn:E3.
  { apply bind_OK in Hb as (rel & _ & Hb). by apply OK_inj in Hb as <-. }
  by apply OK_inj in Hb as <-.
Qed.

(** The body runs at exactly the instruction starts of the sweep. *)
Lemma subs_iterations_scanned (fuel : nat) :
  forall a subs pc,
    (length data - a < fuel)%nat ->
    pc ∈ (iterations (in_buffer data) (subs_body data base) fuel (a, subs)).*1 <->
    rtc (sweep_step data) a pc /\ (pc < length data)%nat.
Proof.
  induction fuel as [|fuel IH]; intros a subs pc Hfuel; [lia|].
  cbn [iterations]. unfold in_buffer at 1. cbn [fst].
  destruct (Nat.ltb_spec a (length data)) as [Ha|Ha].
  - destruct (subs_body_ok data base a subs Ha) as ([a' subs'] & Hb & Hadv).
    pose proof (subs_body_width a subs _ Ha Hb) as Hw. cbn [fst] in Hw, Hadv.
    rewrite Hb. cbn [fmap list_fmap fst]. rewrite elem_of_cons.
    change (list_fmap _ _ fst ?l) with (l.*1).
    rewrite (IH a' subs' pc) by lia. subst a'. split.
    + intros [->|[Hr Hpc]]; [by split|]. split; [|done].
      eapply rtc_l; [|exact Hr]. by split.
    + intros [Hr Hpc]. apply rtc_inv in Hr as [->|(q & [_ ->] & Hr)]; [by left | by right].
  - cbn [fmap list_fmap]. split; [by intros ?%elem_of_nil|].
    intros [Hr Hpc]. apply rtc_inv in Hr as [->|(q & [Hlt _] & _)]; lia.
Qed.

Lemma subs_cursor_scanned (pc : nat) : pc ∈ subs_cursor data base <-> scanned data pc.
Proof.
  unfold subs_cursor, cursor, scanned. apply subs_iterations_scanned. lia.
Qed.
End CallTargets.

(** C7. [find_subroutines] returns the call targets in strictly ascending
    order (sorted, no duplicates), and an address is returned exactly when
    it is the target of one of the three call forms at an instruction start
    of the linear sweep of the buffer: the operand byte itself after 0xBD,
    the big-endian 16-bit operand after 0xCD, address + 2 + signed
    displacement after 0xAD. *)
Theorem call_targets_sorted_set (data : list byte) (base : Z) :
  exists subs,
    Analyze.find_subroutines data base = OK subs /\
    StronglySorted Z.lt subs /\
    forall t, t ∈ subs <->
      exists pc, scanned data pc /\ call_target data base pc = Some t.
Proof.
  unfold Analyze.find_subroutines.
  destruct (scan_total data (Analyze.subs_body data base) ∅ (subs_body_ok data base))
    as [[pcf subs] Hw].
  rewrite Hw. cbn [bind]. exists (Analyze.sorted subs). split; [done|]. split.
  - apply sorted_strict.
    + apply (StronglySorted_merge_sort Z.le); apply _.
    + unfold Analyze.sorted. rewrite merge_sort_Permutation. apply NoDup_elements.
  - intros t. unfold Analyze.sorted. rewrite merge_sort_Permutation, elem_of_elements.
    rewrite (subs_collected data base _ _ _ Hw t). cbn [snd]. split.
    + intros [?%not_elem_of_empty|(pc & Hin & Ht)]; [done|].
      exists pc. split; [|done]. by apply (subs_cursor_scanned data base pc).
    + intros (pc & Hin & Ht). right. exists pc. split; [|done].
      by apply (subs_cursor_scanned data base pc).
Qed.

(** The three call forms in one buffer: a direct call to 0x10, an extended
    call whose operand bytes are themselves call opcodes, a relative call
    back to its own address, the direct call again, and a relative call cut
    by the buffer end. *)
Lemma call_targets_sorted_set_witness :
  Analyze.find_subroutines
    [xbd; x10; xcd; xbd; xad; xad; xfe; xbd; x10; x9d; xad] 0x8000
  = OK [0x10; 0x8005; 0xBDAD] /\
  forall t, t ∈ [0x10; 0x8005; 0xBDAD] <->
    exists pc,
      scanned [xbd; x10; xcd; xbd; xad; xad; xfe; xbd; x10; x9d; xad] pc /\
      call_target [xbd; x10; xcd; xbd; xad; xad; xfe; xbd; x10; x9d; xad] 0x8000 pc = Some t.
Proof.
  destruct (call_targets_sorted_set
              [xbd; x10; xcd; xbd; xad; xad; xfe; xbd; x10; x9d; xad] 0x8000)
    as (subs & Hf & _ & Hmem).
  vm_compute in Hf. injection Hf as <-. split; [reflexivity | exact Hmem].
Defined.

(** ** Backward branches *)

Section LoopSites.
Import Analyze.
Variable data : list byte.
Variable base : Z.

(** One iteration appends the loop site at the cursor, if any. *)
Lemma loop_body_site (pc : nat) (loops : list (Z * Z * Z)) (s' : loop_state) :
  (pc < length data)%nat ->
  loop_body data base (pc, loops) = OK s' ->
  s'.2 = loops ++ loop_site data base pc.
Proof.
  intros Hpc Hb. unfold loop_body in Hb. unfold loop_site.
  destruct (getb_lt data pc Hpc) as (op & Hop & Hg).
  rewrite Hg in Hb. rewrite Hop. cbn [bind] in Hb.
  destruct (Nat.ltb_spec (pc + 1) (length data)) as [H1|H1].
  - destruct (getb_lt data (pc + 1) H1) as (d & Hd & Hgd).
    rewrite Hgd in Hb. rewrite Hd. cbn [bind] in Hb.
    rewrite signed_rel_twos_complement in Hb.
    destruct (bool_decide (byte_val op ∈ branch_opcodes)); cbn [andb].
    + destruct (twos_complement8 (byte_val d) <? 0);
        apply OK_inj in Hb as <-; cbn [snd]; [done | by rewrite app_nil_r].
    + apply OK_inj in Hb as <-. cbn [snd]. by rewrite app_nil_r.
  - rewrite (lookup_ge_None_2 data (pc + 1)) by lia.
    destruct (bool_decide (byte_val op ∈ branch_opcodes));
      apply OK_inj in Hb as <-; cbn [snd]; by rewrite app_nil_r.
Qed.

Lemma loops_collected (fuel : nat) (s sf : loop_state) :
  while (in_buffer data) (loop_body data base) fuel s = OK sf ->
  sf.2 = s.2 ++
    flat_map (loop_site data base)
      (iterations (in_buffer data) (loop_body data base) fuel s).*1.
Proof.
  apply (while_iterations_ind (in_buffer data) (loop_body data base)
           (fun s l sf => sf.2 = s.2 ++ flat_map (loop_site data base) l.*1)).
  - intros s0. by rewrite app_nil_r.
  - intros [pc loops] s' l sf0 Hc Hb IH.
    injection Hc as Hc%Nat.ltb_lt. cbn [fst] in Hc.
    rewrite IH, (loop_body_site pc loops s' Hc Hb).
    cbn [snd fmap list_fmap fst flat_map]. by rewrite <- app_assoc.
Qed.
End LoopSites.

(** C2, as the code has it.  The list returned by [analyze_main_loop]
    holds, for the positions of the scan in order and without
    deduplication, one triple [(A, A + 2 + D, - D)] for each branch opcode
    at address [A] whose displacement byte has a negative signed value [D]
    (that is, whose target is at most [A + 1]), and nothing else.  The
    third component is [- D = A + 2 - target].  On the bytes [20 FE] at
    0x8000 the site is [(0x8000, 0x8000, 2)]. *)
Theorem loop_sites_by_displacement (data : list byte) (base : Z) :
  Analyze.analyze_main_loop data base =
    OK (flat_map (loop_site data base) (loop_cursor data base)) /\
  Analyze.analyze_main_loop [x20; xfe] 0x8000 = OK [(0x8000, 0x8000, 2)].
Proof.
  split; [|reflexivity].
  unfold Analyze.analyze_main_loop.
  destruct (scan_total data (Analyze.loop_body data base) [] (loop_body_ok data base))
    as [[pcf loops] Hw].
  rewrite Hw. cbn [bind].
  pose proof (loops_collected data base _ _ _ Hw) as Hall. cbn [snd app] in Hall.
  by rewrite Hall.
Qed.

(** C2 as stated fails: on [20 FE] at 0x8000 the recorded distance is 2,
    not [A - target = 0]; and on [20 FF] a site is recorded although its
    target 0x8001 lies above the branch address. *)
Lemma loop_site_distance_counterexample :
  Analyze.analyze_main_loop [x20; xfe] 0x8000 = OK [(0x8000, 0x8000, 2)] /\
  Analyze.analyze_main_loop [x20; xfe] 0x8000 <> OK [(0x8000, 0x8000, 0x8000 - 0x8000)] /\
  Analyze.analyze_main_loop [x20; xff] 0x8000 = OK [(0x8000, 0x8001, 1)] /\
  ~ (0x8001 <= 0x8000).
Proof. repeat split; [discriminate | lia]. Qed.

(** ** The loader without data records *)

Section LoaderNoData.
Import Srec.
Variable strip : string -> string.
Variable int16 : string -> option Z.
Variable fromhex : string -> option (list byte).

(** A line that is not a data record leaves the state as it is. *)
Lemma parse_line_non_data (st st' : image) (raw : string) :
  is_data_record strip raw = false ->
  parse_line strip int16 fromhex st raw = OK st' ->
  st' = st.
Proof.
  unfold is_data_record, parse_line. intros Hnd Hp.
  destruct (strip raw) as [|c line]; [by apply OK_inj in Hp|].
  destruct (Ascii.eqb c "S"); cbn [negb andb] in *; [|by apply OK_inj in Hp].
  destruct line as [|t line]; cbn [String.get] in Hp; [discriminate|].
  destruct (Ascii.eqb t "0").
  { apply bind_OK in Hp as (bc & _ & Hp). apply bind_OK in Hp as (hd & _ & Hp).
    by apply OK_inj in Hp. }
  apply orb_false_iff in Hnd as [H1 H2]. rewrite H1, H2 in Hp.
  destruct (Ascii.eqb t "9").
  { apply bind_OK in Hp as (ep & _ & Hp). by apply OK_inj in Hp. }
  destruct (Ascii.eqb t "8").
  { apply bind_OK in Hp as (ep & _ & Hp). by apply OK_inj in Hp. }
  by apply OK_inj in Hp.
Qed.

Lemma parse_lines_non_data (st : image) (lines : list string) :
  Forall (fun raw => is_data_record strip raw = false) lines ->
  Forall (fun raw => exists st', parse_line strip int16 fromhex st raw = OK st') lines ->
  parse_lines strip int16 fromhex st lines = OK st.
Proof.
  induction 1 as [|raw lines Hnd _ IH]; intros Hok; [done|].
  apply Forall_cons in Hok as [[st' Hp] Hok]. cbn [parse_lines].
  rewrite Hp. cbn [bind].
  by rewrite (parse_line_non_data st st' raw Hnd Hp), IH.
Qed.
End LoaderNoData.

(** C3, as the code has it.  When no line is a data record (type 1 or 2)
    and no line raises on its own, [parse_srec] raises nothing: it returns
    the empty memory with [start_addr = None] and [end_addr = 0].  Only
    materializing that result fails, [save_binary] raising [TypeError] on
    [end_addr - start_addr], so no dense image is produced from it. *)
Theorem no_data_records_no_load_error
    (strip : string -> string) (int16 : string -> option Z)
    (fromhex : string -> option (list byte)) (lines : list string) :
  Forall (fun raw => Srec.is_data_record strip raw = false) lines ->
  Forall (fun raw => exists st,
            Srec.parse_line strip int16 fromhex (∅, None, 0) raw = OK st) lines ->
  Srec.parse_srec strip int16 fromhex lines = OK (∅, None, 0) /\
  Srec.save_binary ∅ None 0 = Raise TypeError.
Proof.
  intros Hnd Hok. split; [|reflexivity].
  by apply parse_lines_non_data.
Qed.

(** A file with a header and an end record only. *)
Lemma no_data_records_no_load_error_witness :
  Srec.parse_srec id Srec.hex_int Srec.hex_bytes ["S00600004844521B"; ""; "S9030000FC"]
    = OK (∅, None, 0) /\
  Srec.save_binary ∅ None 0 = Raise TypeError.
Proof.
  apply (no_data_records_no_load_error id Srec.hex_int Srec.hex_bytes).
  - repeat constructor.
  - repeat constructor; eexists; reflexivity.
Defined.

(** C3 as stated fails: with zero data records read, [parse_srec] returns
    normally instead of reporting an error. *)
Lemma zero_data_records_counterexample :
  Srec.parse_srec id Srec.hex_int Srec.hex_bytes ["S00600004844521B"; "S9030000FC"]
    = OK (∅, None, 0) /\
  Srec.parse_srec id Srec.hex_int Srec.hex_bytes [] = OK (∅, None, 0).
Proof. split; reflexivity. Qed.

(** ** Loading, then materializing *)

Lemma fill_prefix {A : Type} (x : A) (l : list A) (k : nat) :
  (k <= length l)%nat ->
  foldl (fun bin i => <[i := x]> bin) l (seq 0 k) = replicate k x ++ drop k l.
Proof.
  induction k as [|k IH]; intros Hk; [by rewrite drop_0|].
  rewrite seq_S, foldl_app, IH by lia. cbn [foldl plus].
  destruct (lookup_lt_is_Some_2 l k) as [y Hy]; [lia|].
  rewrite (drop_S l y k Hy).
  rewrite insert_app_r_alt by (rewrite length_replicate; lia).
  rewrite length_replicate, Nat.sub_diag. cbn [insert list_insert].
  by rewrite replicate_S_end, <- app_assoc.
Qed.

Lemma fill_all {A : Type} (x y : A) (n : nat) :
  foldl (fun bin i => <[i := x]> bin) (replicate n y) (seq 0 n) = replicate n x.
Proof.
  rewrite fill_prefix by (by rewrite length_replicate).
  by rewrite drop_ge, app_nil_r by (by rewrite length_replicate).
Qed.

Section Materialize.
Import Srec.
Variable start_addr size : Z.

Lemma put_item_length (binary : list byte) (item : Z * byte) :
  length (put_item start_addr size binary item) = length binary.
Proof.
  destruct item as [addr b]. unfold put_item.
  destruct (_ && _); [apply length_insert | done].
Qed.

Lemma put_items_length (items : list (Z * byte)) (binary : list byte) :
  length (foldl (put_item start_addr size) binary items) = length binary.
Proof.
  revert binary. induction items as [|item items IH]; intros binary; [done|].
  cbn [foldl]. by rewrite IH, put_item_length.
Qed.

(** An offset no item maps to keeps its byte. *)
Lemma put_items_untouched (items : list (Z * byte)) (binary : list byte) (addr : Z) :
  start_addr <= addr ->
  addr ∉ items.*1 ->
  foldl (put_item start_addr size) binary items !! Z.to_nat (addr - start_addr)
    = binary !! Z.to_nat (addr - start_addr).
Proof.
  intros Hlo. revert binary.
  induction items as [|[a b] items IH]; intros binary Hnin; [done|].
  cbn [fmap list_fmap fst] in Hnin. apply not_elem_of_cons in Hnin as [Hne Hnin].
  cbn [foldl]. rewrite IH by done. unfold put_item.
  destruct (Z.leb_spec 0 (a - start_addr)); cbn [andb]; [|done].
  destruct (a - start_addr <? size); [|done].
  apply list_lookup_insert_ne. lia.
Qed.

(** An item inside the range is found at its offset. *)
Lemma put_items_written (items : list (Z * byte)) (binary : list byte) (addr : Z) (b : byte) :
  NoDup items.*1 ->
  (addr, b) ∈ items ->
  start_addr <= addr < start_addr + size ->
  Z.of_nat (length binary) = size ->
  foldl (put_item start_addr size) binary items !! Z.to_nat (addr - start_addr) = Some b.
Proof.
  intros Hnd Hin Hrange. revert binary Hnd Hin.
  induction items as [|[a b'] items IH]; intros binary Hnd Hin Hlen;
    [by apply elem_of_nil in Hin|].
  cbn [fmap list_fmap fst] in Hnd. apply NoDup_cons in Hnd as [Hnin Hnd].
  cbn [foldl]. apply elem_of_cons in Hin as [[= <- <-]|Hin].
  - rewrite put_items_untouched by (done || lia). unfold put_item.
    destruct (Z.leb_spec 0 (addr - start_addr)); [|lia].
    destruct (Z.ltb_spec (addr - start_addr) size); [|lia]. cbn [andb].
    apply list_lookup_insert_eq. lia.
  - apply IH; [done | done |]. by rewrite put_item_length.
Qed.
End Materialize.

Section LoaderInvariant.
Import Srec.
Variable strip : string -> string.
Variable int16 : string -> option Z.
Variable fromhex : string -> option (list byte).

(** What [write_bytes] leaves at an address. *)
Lemma write_bytes_lookup (data : list byte) (memory : gmap Z byte) (address : Z)
    (i : nat) (a : Z) :
  write_bytes memory address i data !! a =
    if decide (address + Z.of_nat i <= a < address + Z.of_nat i + Z.of_nat (length data))
    then data !! Z.to_nat (a - address - Z.of_nat i)
    else memory !! a.
Proof.
  revert memory i. induction data as [|b data IH]; intros memory i; cbn [write_bytes length].
  { case_decide; [lia | done]. }
  rewrite IH. repeat case_decide; try lia.
  - replace (Z.to_nat (a - address - Z.of_nat i))
      with (S (Z.to_nat (a - address - Z.of_nat (S i)))) by lia. done.
  - assert (a = address + Z.of_nat i) as -> by lia.
    rewrite lookup_insert_eq.
    by replace (address + Z.of_nat i - address - Z.of_nat i) with 0 by lia.
  - apply lookup_insert_ne. lia.
Qed.

Lemma store_record_in_range (st : image) (address : Z) (data : list byte) :
  in_range st -> in_range (store_record st address data).
Proof.
  destruct st as [[memory start_addr] end_addr]. unfold in_range, store_record.
  intros Hst.
  assert (forall s e, s <= address -> address + Z.of_nat (length data) <= e ->
            (forall a b, memory !! a = Some b -> s <= a < e) ->
            forall a b, write_bytes memory address 0 data !! a = Some b -> s <= a < e)
    as Hwrite.
  { intros s e Hs He Hold a b. rewrite write_bytes_lookup.
    case_decide; [lia | apply Hold]. }
  destruct start_addr as [s|].
  - destruct Hst as [Hse Hold].
    destruct (Z.ltb_spec address s), (Z.ltb_spec end_addr (address + Z.of_nat (length data)));
      (split; [lia|]); apply Hwrite; try lia;
      intros a b Hab; specialize (Hold a b Hab); lia.
  - subst memory.
    destruct (Z.ltb_spec end_addr (address + Z.of_nat (length data)));
      (split; [lia|]); apply Hwrite; try lia; intros a b Hab; by rewrite lookup_empty in Hab.
Qed.

Lemma parse_line_in_range (st st' : image) (raw : string) :
  in_range st -> parse_line strip int16 fromhex st raw = OK st' -> in_range st'.
Proof.
  intros Hst Hp. unfold parse_line in Hp.
  destruct (strip raw) as [|c line]; [by apply OK_inj in Hp as <-|].
  destruct (negb (Ascii.eqb c "S")); [by apply OK_inj in Hp as <-|].
  destruct (String.get 1 (String c line)) as [t|]; [|discriminate].
  repeat match type of Hp with
         | (if ?c then _ else _) = _ => destruct c
         | bind _ _ = _ => let x := fresh "x" in apply bind_OK in Hp as (x & _ & Hp)
         end;
    apply OK_inj in Hp as <-; try done; by apply store_record_in_range.
Qed.

Lemma parse_lines_in_range (lines : list string) (st st' : image) :
  in_range st -> parse_lines strip int16 fromhex st lines = OK st' -> in_range st'.
Proof.
  revert st. induction lines as [|raw lines IH]; intros st Hst Hp; cbn [parse_lines] in Hp.
  - by apply OK_inj in Hp as <-.
  - apply bind_OK in Hp as (st1 & Hp1 & Hp). eauto using parse_line_in_range.
Qed.
End LoaderInvariant.

(** A data record leaves its payload in [memory], byte [i] at
    [address + i]. *)
Lemma store_record_payload (st : Srec.image) (address : Z) (data : list byte) (i : nat) (b : byte) :
  data !! i = Some b ->
  (Srec.store_record st address data).1.1 !! (address + Z.of_nat i) = Some b.
Proof.
  intros Hi. destruct st as [[memory start_addr] end_addr]. cbn [Srec.store_record fst].
  rewrite write_bytes_lookup. apply lookup_lt_Some in Hi as Hlt.
  case_decide; [|lia].
  by replace (Z.to_nat (address + Z.of_nat i - address - Z.of_nat 0%nat)) with i by lia.
Qed.

(** C6. Loading then materializing is a faithful round trip: the dense
    buffer has length [end_addr - start_addr]; every address written from a
    data record lies in [[start_addr, end_addr)] and the buffer holds its
    byte at offset [address - start_addr]; every address of the range that
    was never written reads back as 0xFF. *)
Theorem load_then_save_roundtrip
    (strip : string -> string) (int16 : string -> option Z)
    (fromhex : string -> option (list byte)) (lines : list string)
    (memory : gmap Z byte) (start_addr end_addr : Z) :
  Srec.parse_srec strip int16 fromhex lines = OK (memory, Some start_addr, end_addr) ->
  exists binary,
    Srec.save_binary memory (Some start_addr) end_addr
      = OK (binary, end_addr - start_addr) /\
    Z.of_nat (length binary) = end_addr - start_addr /\
    (forall addr b, memory !! addr = Some b ->
       start_addr <= addr < end_addr /\
       binary !! Z.to_nat (addr - start_addr) = Some b) /\
    (forall addr, start_addr <= addr < end_addr -> memory !! addr = None ->
       binary !! Z.to_nat (addr - start_addr) = Some xff).
Proof.
  intros Hp.
  assert (in_range (memory, Some start_addr, end_addr)) as [Hse Hin].
  { apply (parse_lines_in_range strip int16 fromhex lines (∅, None, 0)); done. }
  unfold Srec.save_binary.
  destruct (Z.ltb_spec (end_addr - start_addr) 0) as [|_]; [lia|].
  rewrite fill_all. eexists. split; [reflexivity|].
  set (size := end_addr - start_addr).
  assert (Z.of_nat (length (replicate (Z.to_nat size) xff)) = size) as Hlen
    by (rewrite length_replicate; lia).
  split; [by rewrite put_items_length|]. split.
  - intros addr b Hab. split; [by eapply Hin|].
    apply put_items_written.
    + apply NoDup_fst_map_to_list.
    + by apply elem_of_map_to_list.
    + specialize (Hin addr b Hab). lia.
    + done.
  - intros addr Hrange Hnone. rewrite put_items_untouched.
    + apply lookup_replicate_2. lia.
    + lia.
    + intros [[a b] [Ha Hin']]%list_elem_of_fmap. cbn [fst] in Ha. subst a.
      apply elem_of_map_to_list in Hin'. congruence.
Qed.

(** Two data records with a gap of two bytes between them. *)
Lemma load_then_save_roundtrip_witness :
  exists binary,
    Srec.save_binary (<[0x104 := xcc]> (<[0x101 := xbb]> (<[0x100 := xaa]> ∅)))
      (Some 0x100) 0x105 = OK (binary, 0x105 - 0x100) /\
    Z.of_nat (length binary) = 0x105 - 0x100 /\
    (forall addr b,
       (<[0x104 := xcc]> (<[0x101 := xbb]> (<[0x100 := xaa]> ∅)) : gmap Z byte) !! addr
         = Some b ->
       0x100 <= addr < 0x105 /\ binary !! Z.to_nat (addr - 0x100) = Some b) /\
    (forall addr, 0x100 <= addr < 0x105 ->
       (<[0x104 := xcc]> (<[0x101 := xbb]> (<[0x100 := xaa]> ∅)) : gmap Z byte) !! addr
         = None ->
       binary !! Z.to_nat (addr - 0x100) = Some xff).
Proof.
  apply (load_then_save_roundtrip id Srec.hex_int Srec.hex_bytes
           ["S1050100AABB00"; "S1040104CC00"; "S9030000FC"]).
  reflexivity.
Defined.

(** The image of those records, byte for byte. *)
Example load_then_save_bytes :
  Srec.save_binary (<[0x104 := xcc]> (<[0x101 := xbb]> (<[0x100 := xaa]> ∅)))
    (Some 0x100) 0x105 = OK ([xaa; xbb; xff; xff; xcc], 5).
Proof. reflexivity. Qed.

(** * Further properties *)

(** ** Loops *)

Section WhileInvariant.
Context {St : Type}.
Variable cond : St -> res bool.
Variable body : St -> res St.

(** Partial correctness: what the body keeps holds of the result. *)
Lemma while_invariant (P : St -> Prop) :
  (forall s s', P s -> cond s = OK true -> body s = OK s' -> P s') ->
  forall fuel s sf, P s -> while cond body fuel s = OK sf -> P sf /\ cond sf = OK false.
Proof.
  intros Hstep fuel. induction fuel as [|fuel IH]; intros s sf Hs Hw; [discriminate|].
  simpl in Hw. apply bind_OK in Hw as (b & Hc & Hw). destruct b.
  - apply bind_OK in Hw as (s' & Hb & Hw). eauto.
  - apply OK_inj in Hw as <-. done.
Qed.
End WhileInvariant.

(** ** The loader: lines it passes over *)

Section LoaderLines.
Import Srec.
Variable strip : string -> string.
Variable int16 : string -> option Z.
Variable fromhex : string -> option (list byte).

Lemma parse_lines_app (st : image) (l1 l2 : list string) :
  parse_lines strip int16 fromhex st (l1 ++ l2) =
    let* st' := parse_lines strip int16 fromhex st l1 in
    parse_lines strip int16 fromhex st' l2.
Proof.
  revert st. induction l1 as [|raw l1 IH]; intros st; [done|].
  cbn [app parse_lines]. destruct (parse_line strip int16 fromhex st raw); cbn [bind]; [|done].
  apply IH.
Qed.

Lemma parse_line_skipped (st : image) (raw : string) :
  is_skipped strip raw = true -> parse_line strip int16 fromhex st raw = OK st.
Proof.
  unfold is_skipped, parse_line. intros Hs.
  destruct (strip raw) as [|c rest]; [done|].
  destruct (Ascii.eqb c "S"); cbn [negb]; [|done].
  destruct rest as [|t rest]; [discriminate|]. cbn [String.get].
  apply negb_true_iff in Hs. repeat apply orb_false_iff in Hs as [Hs ?].
  by repeat match goal with H : Ascii.eqb _ _ = false |- _ => rewrite H; clear H end.
Qed.
End LoaderLines.

(** X1. A blank line, a line that does not begin with [S] and a record of
    a type other than 0, 1, 2, 8, 9 are passed over wherever they stand:
    the result of [parse_srec], error or image, is the same with and
    without the line. *)
Theorem skipped_line_changes_nothing
    (strip : string -> string) (int16 : string -> option Z)
    (fromhex : string -> option (list byte)) (before after : list string) (raw : string) :
  is_skipped strip raw = true ->
  Srec.parse_srec strip int16 fromhex (before ++ raw :: after) =
    Srec.parse_srec strip int16 fromhex (before ++ after).
Proof.
  intros Hs. unfold Srec.parse_srec. rewrite !parse_lines_app.
  destruct (Srec.parse_lines strip int16 fromhex (∅, None, 0) before) as [st|e];
    cbn [bind]; [|done].
  cbn [Srec.parse_lines]. by rewrite (parse_line_skipped strip int16 fromhex st raw Hs).
Qed.

(** An [S5] count record between two data records. *)
Lemma skipped_line_changes_nothing_witness :
  Srec.parse_srec id Srec.hex_int Srec.hex_bytes
    (["S1050100AABB00"] ++ "S5030002FA" :: ["S1040104CC00"]) =
  Srec.parse_srec id Srec.hex_int Srec.hex_bytes (["S1050100AABB00"] ++ ["S1040104CC00"]).
Proof.
  apply (skipped_line_changes_nothing id Srec.hex_int Srec.hex_bytes).
  reflexivity.
Defined.

(** ** The loader: when an image comes out *)

Section LoaderStart.
Import Srec.
Variable strip : string -> string.
Variable int16 : string -> option Z.
Variable fromhex : string -> option (list byte).

(** A data record that parses sets [start_addr]; any other line keeps it. *)
Lemma parse_line_start (st st' : image) (raw : string) :
  parse_line strip int16 fromhex st raw = OK st' ->
  (st'.1.2 = None <-> st.1.2 = None /\ is_data_record strip raw = false).
Proof.
  intros Hp. destruct (is_data_record strip raw) eqn:Hd.
  - assert (exists address data, st' = store_record st address data) as (address & data & ->).
    { unfold is_data_record, parse_line in *.
      destruct (strip raw) as [|c [|t rest]]; try discriminate.
      apply andb_true_iff in Hd as [Hc Ht]. rewrite Hc in Hp. cbn [negb String.get] in Hp.
      destruct (Ascii.eqb_spec t "0") as [->|_]; [discriminate|].
      destruct (Ascii.eqb t "1").
      { apply bind_OK in Hp as (bc & _ & Hp). apply bind_OK in Hp as (address & _ & Hp).
        apply bind_OK in Hp as (data & _ & Hp). apply OK_inj in Hp as <-. eauto. }
      destruct (Ascii.eqb t "2"); [|discriminate].
      apply bind_OK in Hp as (bc & _ & Hp). apply bind_OK in Hp as (address & _ & Hp).
      apply bind_OK in Hp as (data & _ & Hp). apply OK_inj in Hp as <-. eauto. }
    destruct st as [[memory start_addr] end_addr]. cbn [store_record fst snd].
    split; [discriminate | by intros [_ ?]].
  - rewrite (parse_line_non_data strip int16 fromhex st st' raw Hd Hp). tauto.
Qed.

Lemma parse_lines_start (lines : list string) (st st' : image) :
  parse_lines strip int16 fromhex st lines = OK st' ->
  (st'.1.2 = None <->
   st.1.2 = None /\ Forall (fun raw => is_data_record strip raw = false) lines).
Proof.
  revert st. induction lines as [|raw lines IH]; intros st Hp; cbn [parse_lines] in Hp.
  - apply OK_inj in Hp as <-. split; [by split | by intros [? _]].
  - apply bind_OK in Hp as (st1 & Hp1 & Hp).
    rewrite (IH st1 Hp), (parse_line_start st st1 raw Hp1), Forall_cons. tauto.
Qed.
End LoaderStart.

Lemma Forall_false_or_Exists_true {A : Type} (f : A -> bool) (l : list A) :
  Forall (fun a => f a = false) l \/ Exists (fun a => f a = true) l.
Proof.
  induction l as [|a l [IH|IH]]; [by left | | by right; right].
  destruct (f a) eqn:Ha; [by right; left | by left; constructor].
Qed.

(** X2. When [parse_srec] returns, its [start_addr] is [None] exactly when
    no line was a data record, and [save_binary] on the returned triple
    succeeds exactly when some line was one: with at least one data record
    a dense image always comes out, with none never. *)
Theorem image_iff_data_record
    (strip : string -> string) (int16 : string -> option Z)
    (fromhex : string -> option (list byte)) (lines : list string)
    (memory : gmap Z byte) (start_addr : option Z) (end_addr : Z) :
  Srec.parse_srec strip int16 fromhex lines = OK (memory, start_addr, end_addr) ->
  (start_addr = None <->
   Forall (fun raw => Srec.is_data_record strip raw = false) lines) /\
  ((exists out, Srec.save_binary memory start_addr end_addr = OK out) <->
   Exists (fun raw => Srec.is_data_record strip raw = true) lines).
Proof.
  intros Hp.
  pose proof (parse_lines_start strip int16 fromhex lines _ _ Hp) as Hstart.
  cbn [fst snd] in Hstart.
  assert (start_addr = None <->
          Forall (fun raw => Srec.is_data_record strip raw = false) lines) as Hnone
    by (rewrite Hstart; split; [by intros [_ ?] | by split]).
  split; [done|].
  assert (in_range (memory, start_addr, end_addr)) as Hrange
    by (by apply (parse_lines_in_range strip int16 fromhex lines (∅, None, 0))).
  split.
  - intros [out Hout]. destruct start_addr as [s|]; [|discriminate].
    destruct (Forall_false_or_Exists_true (Srec.is_data_record strip) lines)
      as [Hall|Hex]; [|done].
    apply Hnone in Hall. discriminate.
  - intros Hex. destruct start_addr as [s|].
    + destruct Hrange as [Hse _]. unfold Srec.save_binary.
      destruct (Z.ltb_spec (end_addr - s) 0); [lia | by eexists].
    + exfalso. apply Exists_exists in Hex as (raw & Hin & Hraw).
      pose proof (proj1 Hnone eq_refl) as Hall.
      rewrite Forall_forall in Hall. specialize (Hall raw Hin). congruence.
Qed.

(** One data record after a header. *)
Lemma image_iff_data_record_witness :
  (Some 0x100 = None <->
   Forall (fun raw => Srec.is_data_record id raw = false)
     ["S00600004844521B"; "S1050100AABB00"]) /\
  ((exists out,
      Srec.save_binary (<[0x101 := xbb]> (<[0x100 := xaa]> ∅)) (Some 0x100) 0x102 = OK out) <->
   Exists (fun raw => Srec.is_data_record id raw = true)
     ["S00600004844521B"; "S1050100AABB00"]).
Proof.
  apply (image_iff_data_record id Srec.hex_int Srec.hex_bytes).
  reflexivity.
Defined.

(** ** The loader: what a data record writes *)

(** X3. A data record overwrites the addresses [address], ...,
    [address + len(data) - 1] with its payload, whatever was there, and
    leaves every other address as it was (on overlap the later record
    wins); [start_addr] becomes the least record address so far and
    [end_addr] the greatest record end so far, which starts from 0. *)
Theorem data_record_overlays (memory : gmap Z byte) (start_addr : option Z)
    (end_addr address : Z) (data : list byte) (a : Z) :
  let st' := Srec.store_record (memory, start_addr, end_addr) address data in
  st'.1.1 !! a =
    (if decide (address <= a < address + Z.of_nat (length data))
     then data !! Z.to_nat (a - address) else memory !! a) /\
  st'.1.2 = Some (match start_addr with
                  | None => address
                  | Some s => Z.min address s
                  end) /\
  st'.2 = Z.max end_addr (address + Z.of_nat (length data)).
Proof.
  cbn [Srec.store_record fst snd]. split; [|split].
  - rewrite write_bytes_lookup. repeat case_decide; try lia; [|done].
    by replace (a - address - Z.of_nat 0%nat) with (a - address) by lia.
  - destruct start_addr as [s|]; [|done].
    destruct (Z.ltb_spec address s); f_equal; lia.
  - destruct (Z.ltb_spec end_addr (address + Z.of_nat (length data))); lia.
Qed.

(** ** Materializing any memory map *)

(** X4. [save_binary] on any memory map and any range with
    [start_addr <= end_addr] returns [end_addr - start_addr] bytes, the byte
    at offset [k] being the map's byte at [start_addr + k] or 0xFF when the
    map has none; entries outside the range are dropped.  With
    [end_addr < start_addr] it raises [ValueError]. *)
Theorem save_binary_dense (memory : gmap Z byte) (start_addr end_addr : Z) :
  (start_addr <= end_addr ->
   exists binary,
     Srec.save_binary memory (Some start_addr) end_addr
       = OK (binary, end_addr - start_addr) /\
     Z.of_nat (length binary) = end_addr - start_addr /\
     forall k, (k < length binary)%nat ->
       binary !! k = Some (default xff (memory !! (start_addr + Z.of_nat k)))) /\
  (end_addr < start_addr ->
   Srec.save_binary memory (Some start_addr) end_addr = Raise ValueError).
Proof.
  unfold Srec.save_binary. split; intros Hrange.
  - destruct (Z.ltb_spec (end_addr - start_addr) 0) as [|_]; [lia|].
    rewrite fill_all. eexists. split; [reflexivity|].
    set (size := end_addr - start_addr).
    assert (Z.of_nat (length (replicate (Z.to_nat size) xff)) = size) as Hlen
      by (rewrite length_replicate; lia).
    split; [by rewrite put_items_length|].
    intros k Hk. rewrite put_items_length in Hk.
    replace k with (Z.to_nat (start_addr + Z.of_nat k - start_addr)) at 1 by lia.
    destruct (memory !! (start_addr + Z.of_nat k)) as [b|] eqn:Hb; cbn [default].
    + apply put_items_written; [apply NoDup_fst_map_to_list | | lia | done].
      by apply elem_of_map_to_list.
    + rewrite put_items_untouched.
      * apply lookup_replicate_2. lia.
      * lia.
      * intros [[a b] [Ha Hin]]%list_elem_of_fmap. cbn [fst] in Ha. subst a.
        apply elem_of_map_to_list in Hin. congruence.
  - destruct (Z.ltb_spec (end_addr - start_addr) 0); [done | lia].
Qed.

(** A range wider than the map on both sides, and an entry outside it. *)
Lemma save_binary_dense_witness :
  (0x0FF <= 0x103 ->
   exists binary,
     Srec.save_binary (<[0x200 := x11]> (<[0x100 := xaa]> ∅)) (Some 0x0FF) 0x103
       = OK (binary, 0x103 - 0x0FF) /\
     Z.of_nat (length binary) = 0x103 - 0x0FF /\
     forall k, (k < length binary)%nat ->
       binary !! k =
         Some (default xff
                 ((<[0x200 := x11]> (<[0x100 := xaa]> ∅) : gmap Z byte)
                    !! (0x0FF + Z.of_nat k)))) /\
  (0x103 < 0x0FF ->
   Srec.save_binary (<[0x200 := x11]> (<[0x100 := xaa]> ∅)) (Some 0x0FF) 0x103
     = Raise ValueError).
Proof.
  exact (save_binary_dense (<[0x200 := x11]> (<[0x100 := xaa]> ∅)) 0x0FF 0x103).
Defined.

(** ** The loader: what follows the payload *)

Lemma substring_none (n : nat) (s : string) : String.substring n 0 s = EmptyString.
Proof. revert n. induction s as [|c s IH]; intros [|n]; simpl; auto. Qed.

Lemma substring_app_l (p s : string) (n m : nat) :
  (n + m <= String.length p)%nat ->
  String.substring n m (p +:+ s) = String.substring n m p.
Proof.
  revert n m. induction p as [|c p IH]; intros n m Hnm; simpl in Hnm.
  - assert (n = 0 /\ m = 0)%nat as [-> ->] by lia. simpl. by destruct s.
  - destruct n as [|n]; simpl.
    + destruct m as [|m]; [done|]. f_equal. apply IH. lia.
    + apply IH. lia.
Qed.

Lemma py_slice_app_l (p s : string) (start : nat) (stop : Z) :
  0 <= stop <= Z.of_nat (String.length p) ->
  Srec.py_slice (p +:+ s) start stop = Srec.py_slice p start stop.
Proof.
  intros Hstop. unfold Srec.py_slice.
  destruct (Z.ltb_spec stop 0); [lia|].
  destruct (Z.to_nat stop - start)%nat as [|m] eqn:Hm; [by rewrite !substring_none|].
  apply substring_app_l. lia.
Qed.

(** X5. Nothing is read from a data record after its payload: two lines
    that agree up to the end of the payload (the type, the count, the
    address and the payload digits) are loaded alike, whatever follows.
    In particular the checksum digits are never looked at. *)
Theorem after_payload_ignored
    (strip : string -> string) (int16 : string -> option Z)
    (fromhex : string -> option (list byte)) (st : Srec.image)
    (raw1 raw2 p s1 s2 : string) (t : ascii) (bc : Z) :
  strip raw1 = (p +:+ s1)%string ->
  strip raw2 = (p +:+ s2)%string ->
  String.get 0 p = Some "S"%char ->
  String.get 1 p = Some t ->
  t = "1"%char \/ t = "2"%char ->
  int16 (Srec.py_slice p 2 4) = Some bc ->
  (if Ascii.eqb t "1" then 8 else 10) <= Z.of_nat (String.length p) ->
  0 <= payload_stop t bc <= Z.of_nat (String.length p) ->
  Srec.parse_line strip int16 fromhex st raw1 = Srec.parse_line strip int16 fromhex st raw2.
Proof.
  intros H1 H2 HS Ht Htype Hbc Hhead Hstop.
  assert (forall s raw, strip raw = (p +:+ s)%string ->
            Srec.parse_line strip int16 fromhex st raw =
            let* address := Srec.value (int16 (Srec.py_slice p 4 (if Ascii.eqb t "1" then 8 else 10))) in
            let* data := Srec.value (fromhex (Srec.py_slice p (if Ascii.eqb t "1" then 8 else 10)%nat
                                                (payload_stop t bc))) in
            OK (Srec.store_record st address data)) as Hline.
  { intros s raw Hraw. unfold Srec.parse_line. rewrite Hraw.
    destruct p as [|c [|t' p]]; try discriminate.
    injection HS as ->. injection Ht as ->. cbn [String.append negb Ascii.eqb Bool.eqb].
    change (String "S" (String t (p +:+ s))) with (String "S" (String t p) +:+ s)%string.
    cbn [String.get]. unfold payload_stop in *.
    rewrite !(py_slice_app_l (String "S" (String t p)) s 2 4) by (destruct Htype as [->| ->]; simpl in *; lia).
    rewrite Hbc. cbn [Srec.value bind].
    destruct Htype as [->| ->]; cbn [Ascii.eqb Bool.eqb andb] in *.
    - by rewrite !py_slice_app_l by lia.
    - by rewrite !py_slice_app_l by lia. }
  by rewrite (Hline s1 raw1 H1), (Hline s2 raw2 H2).
Qed.

(** The same record with the checksum [00] and with the checksum [FF]. *)
Lemma after_payload_ignored_witness :
  Srec.parse_line id Srec.hex_int Srec.hex_bytes (∅, None, 0) "S1050100AABB00" =
  Srec.parse_line id Srec.hex_int Srec.hex_bytes (∅, None, 0) "S1050100AABBFF".
Proof.
  apply (after_payload_ignored id Srec.hex_int Srec.hex_bytes (∅, None, 0)
           "S1050100AABB00" "S1050100AABBFF" "S1050100AABB" "00" "FF" "1"%char 5);
    try reflexivity.
  - by left.
  - simpl. lia.
  - vm_compute. split; discriminate.
Defined.

Lemma string_app_assoc (a b c : string) : ((a +:+ b) +:+ c = a +:+ (b +:+ c))%string.
Proof.
  induction a as [|x a IH]; [done|].
  change (String x ((a +:+ b) +:+ c) = String x (a +:+ (b +:+ c)))%string.
  by rewrite IH.
Qed.

(** ** The disassembler: register names *)

Lemma IO_REGS_named :
  map_Forall (fun k name => k < 0x0840 /\ name <> EmptyString) Disasm.IO_REGS.
Proof. apply (bool_decide_unpack _). vm_compute. exact I. Qed.

Lemma get_reg_name_None (addr : Z) : Disasm.get_reg_name addr = None <-> 0x0840 <= addr.
Proof.
  unfold Disasm.get_reg_name.
  destruct (Disasm.IO_REGS !! addr) as [name|] eqn:Hreg.
  - destruct (IO_REGS_named _ _ Hreg) as [Hlt _]. split; [discriminate | lia].
  - destruct (Z.ltb_spec addr 0x40); [split; [discriminate | lia]|].
    destruct (Z.ltb_spec addr 0x0840); split; (discriminate || lia || done).
Qed.

Lemma get_reg_name_truthy (addr : Z) (name : string) :
  Disasm.get_reg_name addr = Some name -> Disasm.truthy (Some name) = Some name.
Proof.
  unfold Disasm.get_reg_name.
  destruct (Disasm.IO_REGS !! addr) as [name'|] eqn:Hreg.
  - intros [= <-]. destruct (IO_REGS_named _ _ Hreg) as [_ Hne]. by destruct name'.
  - destruct (addr <? 0x40); [by intros [= <-]|].
    destruct (addr <? 0x0840); [by intros [= <-] | discriminate].
Qed.

(** X6. [get_reg_name] names every address below 0x0840 (a register of
    the table, or [REG_xx] below 0x40, or [RAM_xxxx]) and no address from
    0x0840 on; a name it returns is never empty, so it always counts as
    found. *)
Theorem reg_name_coverage (addr : Z) :
  (Disasm.get_reg_name addr = None <-> 0x0840 <= addr) /\
  (forall name, Disasm.get_reg_name addr = Some name -> name <> EmptyString).
Proof.
  split; [apply get_reg_name_None|].
  intros name Hname%get_reg_name_truthy ->. discriminate.
Qed.

(** ** The disassembler: one instruction *)

Section DecodeForms.
Import Disasm.
Variable data : list byte.
Variable base_addr : Z.

(** The prefixed block is not entered on an opcode of the primary table. *)
Lemma decode_prefixed_primary (pc : nat) (op : byte) (e : string * mode * nat) :
  HC08_OPCODES !! byte_val op = Some e ->
  decode_prefixed data base_addr pc (byte_val op) = OK None.
Proof.
  intros Htab. unfold decode_prefixed.
  destruct (Z.eqb_spec (byte_val op) 0x9E) as [Heq|_]; [|done].
  rewrite Heq, HC08_OPCODES_no_prefix in Htab. discriminate.
Qed.

(** An instruction of the primary table that fits in the buffer. *)
Lemma decode_at_primary (pc : nat) (op : byte) (mnem : string) (md : mode) (size : nat) :
  data !! pc = Some op ->
  HC08_OPCODES !! byte_val op = Some (mnem, md, size) ->
  (pc + size <= length data)%nat ->
  decode_at data base_addr pc =
    let* operand := operand_primary data base_addr md pc size in
    OK (decoded (base_addr + Z.of_nat pc) (byte_val <$> take size (drop pc data))
          mnem operand size).
Proof.
  intros Hop Htab Hfit. unfold decode_at. rewrite (getb_Some _ _ _ Hop). cbn [bind].
  rewrite (decode_prefixed_primary pc op _ Htab). cbn [bind].
  unfold decode_primary. rewrite Htab.
  destruct (Nat.ltb_spec (length data) (pc + size)); [lia|].
  by rewrite (read_bytes_take data pc size Hfit).
Qed.

(** An instruction behind the prefix. *)
Lemma decode_at_prefixed (pc : nat) (op sub : byte) (mnem : string) (md : mode)
    (size0 : nat) :
  data !! pc = Some op -> byte_val op = 0x9E ->
  data !! (pc + 1)%nat = Some sub ->
  HC08_9E_OPCODES !! byte_val sub = Some (mnem, md, size0) ->
  decode_at data base_addr pc =
    let* operand := operand_9E data base_addr md pc (size0 + 1) in
    OK (decoded (base_addr + Z.of_nat pc)
          (byte_val <$> take (Nat.min (size0 + 1) (length data - pc)) (drop pc data))
          mnem operand (size0 + 1)%nat).
Proof.
  intros Hop Hpre Hsub Htab. apply lookup_lt_Some in Hsub as H1.
  unfold decode_at. rewrite (getb_Some _ _ _ Hop). cbn [bind].
  unfold decode_prefixed. rewrite Hpre.
  destruct (Nat.ltb_spec (pc + 1) (length data)); [|lia]. cbn [andb Z.eqb Pos.eqb].
  rewrite (getb_Some _ _ _ Hsub). cbn [bind]. rewrite Htab.
  rewrite read_bytes_take by lia. cbn [bind].
  by destruct (operand_9E data base_addr md pc (size0 + 1)).
Qed.
End DecodeForms.

Lemma HC08_OPCODES_exact_sizes :
  map_Forall (fun _ (e : string * Disasm.mode * nat) => operand_reach (e.1.2) = e.2)
    Disasm.HC08_OPCODES.
Proof. apply (bool_decide_unpack _). vm_compute. exact I. Qed.

Lemma HC08_OPCODES_not_DB :
  map_Forall (fun _ (e : string * Disasm.mode * nat) => e.1.1 <> "DB") Disasm.HC08_OPCODES.
Proof. apply (bool_decide_unpack _). vm_compute. exact I. Qed.

Lemma HC08_9E_OPCODES_not_DB :
  map_Forall (fun _ (e : string * Disasm.mode * nat) => e.1.1 <> "DB")
    Disasm.HC08_9E_OPCODES.
Proof. apply (bool_decide_unpack _). vm_compute. exact I. Qed.

(** X7. A direct-mode operand is always rendered by name: the operand byte
    is below 0x0840, so [get_reg_name] finds a name for it and the operand
    text is [<name]; the raw form [<$xx] never appears. *)
Theorem direct_operand_always_named (data : list byte) (base : Z) (pc : nat)
    (op d : byte) (mnem : string) (size : nat) :
  data !! pc = Some op ->
  Disasm.HC08_OPCODES !! byte_val op = Some (mnem, Disasm.DIR, size) ->
  (pc + size <= length data)%nat ->
  data !! (pc + 1)%nat = Some d ->
  exists name i,
    Disasm.get_reg_name (byte_val d) = Some name /\
    Disasm.decode_at data base pc = OK i /\
    Disasm.i_mnem i = mnem /\
    Disasm.i_operand i = ("<" +:+ name)%string.
Proof.
  intros Hop Htab Hfit Hd.
  destruct (Disasm.get_reg_name (byte_val d)) as [name|] eqn:Hname.
  2: { apply get_reg_name_None in Hname. pose proof (byte_val_range d). lia. }
  exists name. eexists. split; [done|].
  rewrite (decode_at_primary data base pc op mnem Disasm.DIR size Hop Htab Hfit).
  rewrite (direct_operand_named data base pc size d name Hd);
    [|rewrite Hname; by apply (get_reg_name_truthy (byte_val d))].
  cbn [bind]. done.
Qed.

(** [STA] direct to 0x00, which the table names [PORTA]. *)
Lemma direct_operand_always_named_witness :
  exists name i,
    Disasm.get_reg_name (byte_val x00) = Some name /\
    Disasm.decode_at [xb7; x00] 0x8000 0 = OK i /\
    Disasm.i_mnem i = "STA" /\
    Disasm.i_operand i = ("<" +:+ name)%string.
Proof.
  apply (direct_operand_always_named [xb7; x00] 0x8000 0 xb7 x00 "STA" 2).
  - reflexivity.
  - reflexivity.
  - simpl. lia.
  - reflexivity.
Defined.

(** X8. In every addressing mode with a relative displacement, the
    displacement is the last byte of the instruction and the rendered
    target, which ends the operand text, is [A + L + D] for the
    instruction's address [A], its full length [L] and the two's-complement
    value [D] of that byte: for the five relative modes of the primary
    table, and for the prefixed stack-pointer mode, whose length counts the
    prefix. *)
Theorem every_relative_target (data : list byte) (base : Z) (pc : nat) (op d : byte) :
  data !! pc = Some op ->
  (forall mnem md L,
     Disasm.HC08_OPCODES !! byte_val op = Some (mnem, md, L) ->
     relative_family md = true ->
     (pc + L <= length data)%nat ->
     data !! (pc + L - 1)%nat = Some d ->
     exists i front,
       Disasm.decode_at data base pc = OK i /\ Disasm.i_size i = L /\
       Disasm.i_operand i =
         (front +:+ "$" +:+
          fmt_X 4 (base + Z.of_nat pc + Z.of_nat L + twos_complement8 (byte_val d)))%string) /\
  (forall sub mnem size0,
     byte_val op = 0x9E ->
     data !! (pc + 1)%nat = Some sub ->
     Disasm.HC08_9E_OPCODES !! byte_val sub = Some (mnem, Disasm.SP1_REL, size0) ->
     (pc + (size0 + 1) <= length data)%nat ->
     data !! (pc + size0)%nat = Some d ->
     exists i front,
       Disasm.decode_at data base pc = OK i /\ Disasm.i_size i = (size0 + 1)%nat /\
       Disasm.i_operand i =
         (front +:+ "$" +:+
          fmt_X 4 (base + Z.of_nat pc + Z.of_nat (size0 + 1)
                   + twos_complement8 (byte_val d)))%string).
Proof.
  intros Hop. split.
  - intros mnem md L Htab Hrel Hfit Hd.
    pose proof (HC08_OPCODES_exact_sizes _ _ Htab) as Hsz. cbn [fst snd] in Hsz.
    rewrite (decode_at_primary data base pc op mnem md L Hop Htab Hfit).
    unfold Disasm.operand_primary.
    destruct md; try discriminate; cbn [operand_reach] in Hsz; subst L;
      cbn [Nat.add Nat.sub] in Hd.
    + replace (pc + 2 - 1)%nat with (pc + 1)%nat in Hd by lia.
      rewrite (getb_Some _ _ _ Hd). cbn [bind]. rewrite signed_rel_twos_complement.
      eexists _, EmptyString. by repeat split.
    + replace (pc + 3 - 1)%nat with (pc + 2)%nat in Hd by lia.
      destruct (getb_lt data (pc + 1)) as (r & _ & ->); [lia|].
      rewrite (getb_Some _ _ _ Hd). cbn [bind]. rewrite signed_rel_twos_complement.
      destruct (Disasm.truthy (Disasm.get_reg_name (byte_val r))) as [name|]; cbn [bind].
      * eexists _, ("<" +:+ name +:+ ", ")%string. repeat split.
        cbn [Disasm.i_operand Disasm.decoded]. by rewrite !string_app_assoc.
      * eexists _, ("<$" +:+ fmt_X 2 (byte_val r) +:+ ", ")%string. repeat split.
        cbn [Disasm.i_operand Disasm.decoded]. by rewrite !string_app_assoc.
    + replace (pc + 3 - 1)%nat with (pc + 2)%nat in Hd by lia.
      destruct (getb_lt data (pc + 1)) as (r & _ & ->); [lia|].
      rewrite (getb_Some _ _ _ Hd). cbn [bind]. rewrite signed_rel_twos_complement.
      eexists _, ("#$" +:+ fmt_X 2 (byte_val r) +:+ ", ")%string. repeat split.
      cbn [Disasm.i_operand Disasm.decoded]. by rewrite !string_app_assoc.
    + replace (pc + 2 - 1)%nat with (pc + 1)%nat in Hd by lia.
      rewrite (getb_Some _ _ _ Hd). cbn [bind]. rewrite signed_rel_twos_complement.
      eexists _, ",X, "%string. by repeat split.
    + replace (pc + 3 - 1)%nat with (pc + 2)%nat in Hd by lia.
      destruct (getb_lt data (pc + 1)) as (r & _ & ->); [lia|].
      rewrite (getb_Some _ _ _ Hd). cbn [bind]. rewrite signed_rel_twos_complement.
      eexists _, ("$" +:+ fmt_X 2 (byte_val r) +:+ ",X, ")%string. repeat split.
      cbn [Disasm.i_operand Disasm.decoded]. by rewrite !string_app_assoc.
  - intros sub mnem size0 Hpre Hsub Htab Hfit Hd.
    pose proof (HC08_9E_OPCODES_sizes _ _ Htab) as Hsz. cbn [fst snd prefixed_size] in Hsz.
    apply (inj Some) in Hsz. subst size0.
    rewrite (decode_at_prefixed data base pc op sub mnem _ 3 Hop Hpre Hsub Htab).
    unfold Disasm.operand_9E.
    destruct (Nat.ltb_spec (pc + 3) (length data)); [|lia].
    destruct (getb_lt data (pc + 2)) as (r & _ & ->); [lia|].
    rewrite (getb_Some _ _ _ Hd). cbn [bind]. rewrite signed_rel_twos_complement.
    eexists _, ("$" +:+ fmt_X 2 (byte_val r) +:+ ",SP, ")%string. repeat split.
    cbn [Disasm.i_operand Disasm.decoded]. by rewrite !string_app_assoc.
Qed.

(** [BRCLR0 <PORTC, ...] with displacement 0x80, and [DBNZ] behind the
    prefix with displacement 0x7F. *)
Lemma every_relative_target_witness :
  (exists i front,
     Disasm.decode_at [x01; x02; x80] 0x8000 0 = OK i /\ Disasm.i_size i = 3%nat /\
     Disasm.i_operand i =
       (front +:+ "$" +:+
        fmt_X 4 (0x8000 + Z.of_nat 0 + Z.of_nat 3 + twos_complement8 (byte_val x80)))%string) /\
  (exists i front,
     Disasm.decode_at [x9e; x6b; x05; x7f] 0x8000 0 = OK i /\
     Disasm.i_size i = (3 + 1)%nat /\
     Disasm.i_operand i =
       (front +:+ "$" +:+
        fmt_X 4 (0x8000 + Z.of_nat 0 + Z.of_nat (3 + 1)
                 + twos_complement8 (byte_val x7f)))%string).
Proof.
  split.
  - apply (proj1 (every_relative_target [x01; x02; x80] 0x8000 0 x01 x80 eq_refl)
             "BRCLR0" Disasm.DIR_REL 3%nat); try reflexivity; simpl; lia.
  - apply (proj2 (every_relative_target [x9e; x6b; x05; x7f] 0x8000 0 x9e x7f eq_refl)
             x6b "DBNZ" 3%nat); try reflexivity; simpl; lia.
Defined.

(** ** The disassembler: how many lines *)

Lemma shown_bytes_length_bounds (l : list Disasm.insn) :
  Forall (fun i => (1 <= length (Disasm.i_bytes i) <= 4)%nat) l ->
  (length l <= length (shown_bytes l) <= 4 * length l)%nat.
Proof.
  induction 1 as [|i l Hi _ IH]; [simpl; lia|].
  unfold shown_bytes in *. cbn [flat_map length]. rewrite length_app. lia.
Qed.

Section LineCount.
Import Disasm.
Variable data : list byte.
Variable base_addr : Z.

(** No instruction is longer than four bytes. *)
Lemma decode_at_size_le (pc : nat) (i : insn) :
  (pc < length data)%nat ->
  decode_at data base_addr pc = OK i ->
  (i_size i <= 4)%nat.
Proof.
  intros Hpc Hd. unfold decode_at in Hd.
  destruct (getb_lt data pc Hpc) as (op & Hop & Hg). rewrite Hg in Hd. cbn [bind] in Hd.
  apply bind_OK in Hd as (pre & Hpre & Hd).
  assert (pre = None -> (i_size i <= 4)%nat) as Hprimary.
  { intros ->. unfold decode_primary in Hd.
    destruct (HC08_OPCODES !! byte_val op) as [[[mnem md] size]|] eqn:Htab;
      [|apply OK_inj in Hd as <-; cbn [i_size db_insn]; lia].
    pose proof (HC08_OPCODES_exact_sizes _ _ Htab) as Hsz. cbn [fst snd] in Hsz.
    destruct (length data <? pc + size)%nat;
      [apply OK_inj in Hd as <-; cbn [i_size db_insn]; lia|].
    apply bind_OK in Hd as (bs & _ & Hd). apply bind_OK in Hd as (operand & _ & Hd).
    apply OK_inj in Hd as <-. cbn [i_size decoded]. subst size. destruct md; simpl; lia. }
  unfold decode_prefixed in Hpre.
  destruct (byte_val op =? 0x9E); cbn [andb] in Hpre;
    [|apply OK_inj in Hpre as <-; by apply Hprimary].
  destruct (Nat.ltb_spec (pc + 1) (length data)) as [H1|_];
    [|apply OK_inj in Hpre as <-; by apply Hprimary].
  destruct (getb_lt data (pc + 1) H1) as (sub & Hsub & Hgs).
  rewrite Hgs in Hpre. cbn [bind] in Hpre.
  destruct (HC08_9E_OPCODES !! byte_val sub) as [[[mnem md] size0]|] eqn:Htab;
    [|apply OK_inj in Hpre as <-; by apply Hprimary].
  pose proof (HC08_9E_OPCODES_sizes _ _ Htab) as Hsz. cbn [fst snd] in Hsz.
  apply bind_OK in Hpre as (bs & _ & Hpre). apply bind_OK in Hpre as (operand & _ & Hpre).
  apply OK_inj in Hpre as <-. apply OK_inj in Hd as <-. cbn [i_size decoded].
  destruct md; cbn [prefixed_size] in Hsz; try discriminate;
    apply (inj Some) in Hsz; subst size0; lia.
Qed.

(** Under any line cap the bytes shown so far are the bytes of the buffer
    up to the cursor, and every instruction shows one to four bytes. *)
Lemma dis_shown_invariant (max_lines : option Z) (fuel : nat) (sf : state) :
  while (dis_cond data max_lines) (dis_body data base_addr) fuel (0%nat, 0, []) = OK sf ->
  (shown_bytes sf.2 = byte_val <$> take sf.1.1 data /\
   Forall (fun i => (1 <= length (i_bytes i) <= 4)%nat) sf.2) /\
  dis_cond data max_lines sf = OK false.
Proof.
  apply (while_invariant (dis_cond data max_lines) (dis_body data base_addr)
           (fun s => shown_bytes s.2 = byte_val <$> take s.1.1 data /\
                     Forall (fun i => (1 <= length (i_bytes i) <= 4)%nat) s.2)).
  - intros [[pc lines] output] s' [Hshown Hall] Hc Hb. cbn [fst snd] in *.
    injection Hc as Hc. apply andb_true_iff in Hc as [Hc%Nat.ltb_lt _].
    unfold dis_body in Hb. apply bind_OK in Hb as (i & Hi & Hb).
    apply OK_inj in Hb as <-. cbn [fst snd].
    destruct (decode_at_bytes data base_addr pc i Hc Hi) as (_ & Hsz & Hbytes).
    pose proof (decode_at_size_le pc i Hc Hi) as Hle.
    split.
    + rewrite shown_bytes_snoc, Hshown, Hbytes, <- fmap_app. f_equal.
      by rewrite take_take_drop.
    + apply Forall_app. split; [done|]. apply Forall_singleton.
      rewrite Hbytes, length_fmap, length_take, length_drop. lia.
  - split; [done | constructor].
Qed.
End LineCount.

(** X9. [disassemble] never returns more lines than the buffer has bytes,
    under any line cap; with no cap it returns at least a quarter as many,
    since an instruction takes at most four bytes; and a negative
    [max_lines] returns no line at all. *)
Theorem line_count_bounds (data : list byte) (base : Z) (max_lines : option Z) :
  exists output,
    Disasm.disassemble data base max_lines = OK output /\
    (length output <= length data)%nat /\
    (max_lines = None -> (length data <= 4 * length output)%nat) /\
    (forall n, max_lines = Some n -> n < 0 -> output = []).
Proof.
  unfold Disasm.disassemble.
  destruct (disassemble_insns_ok data base max_lines) as [output Hout].
  rewrite Hout. cbn [bind]. exists (map Disasm.i_line output).
  split; [done|]. rewrite length_map.
  unfold Disasm.disassemble_insns in Hout.
  apply bind_OK in Hout as ([[pc lines] out] & Hw & Hout). apply OK_inj in Hout as ->.
  destruct (dis_shown_invariant data base max_lines _ _ Hw) as [[Hshown Hall] Hexit].
  cbn [fst snd] in *.
  pose proof (shown_bytes_length_bounds output Hall) as Hlen.
  rewrite Hshown, length_fmap, length_take in Hlen.
  split; [lia|]. split.
  - intros ->. injection Hexit as Hexit. rewrite andb_true_r in Hexit.
    apply Nat.ltb_ge in Hexit. lia.
  - intros n -> Hn. simpl in Hw.
    destruct (Z.eqb_spec n 0); [lia|]. destruct (Z.leb_spec n 0); [|lia].
    rewrite andb_false_r in Hw. cbn [bind] in Hw. by injection Hw as _ _ <-.
Qed.

(** Two [NOP]s under the cap -1. *)
Lemma line_count_bounds_witness :
  exists output,
    Disasm.disassemble [x9d; x9d] 0x8000 (Some (-1)) = OK output /\
    (length output <= length [x9d; x9d])%nat /\
    (Some (-1) = None -> (length [x9d; x9d] <= 4 * length output)%nat) /\
    output = [].
Proof.
  destruct (line_count_bounds [x9d; x9d] 0x8000 (Some (-1)))
    as (output & Hout & Hle & Hfull & Hneg).
  exists output. split; [exact Hout|]. split; [exact Hle|]. split; [exact Hfull|].
  apply (Hneg (-1)); [reflexivity | lia].
Defined.

(** ** The disassembler: undecoded bytes *)

(** X10. The 1-byte [DB] record is emitted exactly when the prefixed block
    does not take the instruction and the byte at the cursor either has no
    entry in the primary table or has one whose size passes the end of the
    buffer; the record then holds that one byte, and the cursor advances by
    one. *)
Theorem undecoded_exactly_when (data : list byte) (base : Z) (pc : nat)
    (op : byte) (i : Disasm.insn) :
  data !! pc = Some op ->
  Disasm.decode_at data base pc = OK i ->
  (Disasm.i_mnem i = "DB" <->
   ~ prefixed_at data pc /\
   (Disasm.HC08_OPCODES !! byte_val op = None \/
    exists mnem md size,
      Disasm.HC08_OPCODES !! byte_val op = Some (mnem, md, size) /\
      (length data < pc + size)%nat)) /\
  (Disasm.i_mnem i = "DB" -> i = Disasm.db_insn (base + Z.of_nat pc) (byte_val op)).
Proof.
  intros Hop Hd.
  assert (prefixed_at data pc -> Disasm.i_mnem i <> "DB") as Hpre.
  { intros (op' & sub & [[mnem md] size0] & Hop' & Hpre & Hsub & Htab).
    assert (op' = op) as -> by congruence.
    rewrite (decode_at_prefixed data base pc op sub mnem md size0 Hop Hpre Hsub Htab) in Hd.
    apply bind_OK in Hd as (operand & _ & Hd). apply OK_inj in Hd as <-.
    cbn [Disasm.i_mnem Disasm.decoded]. apply (HC08_9E_OPCODES_not_DB _ _ Htab). }
  assert (~ prefixed_at data pc ->
          Disasm.decode_primary data base pc (byte_val op) = OK i) as Hprimary.
  { intros Hnp. unfold Disasm.decode_at in Hd. rewrite (getb_Some _ _ _ Hop) in Hd.
    cbn [bind] in Hd. apply bind_OK in Hd as (pre & Hp & Hd).
    destruct pre as [j|]; [|done]. exfalso. apply Hnp.
    unfold Disasm.decode_prefixed in Hp.
    destruct (Z.eqb_spec (byte_val op) 0x9E) as [Heq|]; [|discriminate].
    destruct (Nat.ltb_spec (pc + 1) (length data)) as [H1|]; [|discriminate].
    destruct (getb_lt data (pc + 1) H1) as (sub & Hsub & Hgs).
    rewrite Hgs in Hp. cbn [andb bind] in Hp.
    destruct (Disasm.HC08_9E_OPCODES !! byte_val sub) as [e|] eqn:Htab; [|discriminate].
    by exists op, sub, e. }
  assert (prefixed_at data pc \/ ~ prefixed_at data pc) as [Hp|Hnp].
  { destruct (Z.eq_dec (byte_val op) 0x9E) as [Heq|Hne].
    2: { right. intros (op' & _ & _ & Hop' & Hpre' & _). congruence. }
    destruct (data !! (pc + 1)%nat) as [sub|] eqn:Hsub.
    2: { right. intros (_ & sub & _ & _ & _ & Hsub' & _). congruence. }
    destruct (Disasm.HC08_9E_OPCODES !! byte_val sub) as [e|] eqn:Htab.
    - left. by exists op, sub, e.
    - right. intros (_ & sub' & e & _ & _ & Hsub' & Htab'). congruence. }
  - pose proof (Hpre Hp). split; [|done]. split; [done | by intros [? _]].
  - specialize (Hprimary Hnp). unfold Disasm.decode_primary in Hprimary.
    destruct (Disasm.HC08_OPCODES !! byte_val op) as [[[mnem md] size]|] eqn:Htab.
    + destruct (Nat.ltb_spec (length data) (pc + size)) as [Hcut|Hfit].
      * apply OK_inj in Hprimary as <-. split; [|done].
        split; [|done]. intros _. split; [done|]. right. by exists mnem, md, size.
      * apply bind_OK in Hprimary as (bs & _ & Hprimary).
        apply bind_OK in Hprimary as (operand & _ & Hprimary).
        apply OK_inj in Hprimary as <-. cbn [Disasm.i_mnem Disasm.decoded].
        pose proof (HC08_OPCODES_not_DB _ _ Htab) as Hne. cbn [fst] in Hne.
        split; [|done]. split; [done|].
        intros [_ [?|(m' & md' & size' & [= <- <- <-] & Hcut)]]; [discriminate | lia].
    + apply OK_inj in Hprimary as <-. split; [|done].
      split; [|done]. intros _. split; [done | by left].
Qed.

(** Byte 0x8D, which has no entry, in the middle of a buffer. *)
Lemma undecoded_exactly_when_witness :
  (Disasm.i_mnem (Disasm.db_insn (0x8000 + Z.of_nat 1) (byte_val x8d)) = "DB" <->
   ~ prefixed_at [x9d; x8d; x9d] 1 /\
   (Disasm.HC08_OPCODES !! byte_val x8d = None \/
    exists mnem md size,
      Disasm.HC08_OPCODES !! byte_val x8d = Some (mnem, md, size) /\
      (length [x9d; x8d; x9d] < 1 + size)%nat)) /\
  (Disasm.i_mnem (Disasm.db_insn (0x8000 + Z.of_nat 1) (byte_val x8d)) = "DB" ->
   Disasm.db_insn (0x8000 + Z.of_nat 1) (byte_val x8d)
     = Disasm.db_insn (0x8000 + Z.of_nat 1) (byte_val x8d)).
Proof.
  apply (undecoded_exactly_when [x9d; x8d; x9d] 0x8000 1 x8d); reflexivity.
Defined.

(** ** Scans: the cursor only moves forward *)

Section CursorOrder.
Context {A : Type}.
Variable data : list byte.
Variable body : nat * A -> res (nat * A).
Hypothesis body_advances :
  forall pc acc s', (pc < length data)%nat -> body (pc, acc) = OK s' -> (pc < s'.1)%nat.

Lemma iterations_from (fuel : nat) (s s1 : nat * A) :
  s1 ∈ iterations (Analyze.in_buffer data) body fuel s -> (s.1 <= s1.1)%nat.
Proof.
  revert s. induction fuel as [|fuel IH]; intros [pc acc]; cbn [iterations];
    [by intros ?%elem_of_nil|].
  unfold Analyze.in_buffer at 1. cbn [fst].
  destruct (Nat.ltb_spec pc (length data)) as [Hpc|]; [|by intros ?%elem_of_nil].
  intros [->|Hin]%elem_of_cons; [done|].
  destruct (body (pc, acc)) as [s'|] eqn:Hb; [|by apply elem_of_nil in Hin].
  specialize (IH s' Hin). specialize (body_advances pc acc s' Hpc Hb). cbn [fst]. lia.
Qed.

Lemma iterations_increasing (fuel : nat) (s : nat * A) :
  StronglySorted lt (iterations (Analyze.in_buffer data) body fuel s).*1.
Proof.
  revert s. induction fuel as [|fuel IH]; intros [pc acc]; cbn [iterations];
    [constructor|].
  unfold Analyze.in_buffer at 1. cbn [fst].
  destruct (Nat.ltb_spec pc (length data)) as [Hpc|]; [|constructor].
  cbn [fmap list_fmap fst]. destruct (body (pc, acc)) as [s'|] eqn:Hb;
    [|repeat constructor].
  constructor; [apply IH|].
  apply Forall_forall. intros pc' [s1 [-> Hin]]%list_elem_of_fmap.
  apply iterations_from in Hin. specialize (body_advances pc acc s' Hpc Hb). lia.
Qed.

(** The positions of a scan are strictly increasing. *)
Lemma cursor_increasing (init : A) : StronglySorted lt (cursor data body init).
Proof. apply iterations_increasing. Qed.

(** A loop over the buffer computes a fold over its cursor positions. *)
Lemma scan_fold (step : A -> nat -> A) (init : A) (sf : nat * A) :
  (forall pc acc s', (pc < length data)%nat -> body (pc, acc) = OK s' ->
     s'.2 = step acc pc) ->
  while (Analyze.in_buffer data) body (S (length data)) (0%nat, init) = OK sf ->
  sf.2 = foldl step init (cursor data body init).
Proof.
  intros Hstep. unfold cursor.
  apply (while_iterations_ind (Analyze.in_buffer data) body
           (fun s l sf => sf.2 = foldl step s.2 l.*1)); [done|].
  intros [pc acc] s' l sf0 Hc Hb IH. injection Hc as Hc%Nat.ltb_lt. cbn [fst] in Hc.
  cbn [fmap list_fmap fst snd foldl]. by rewrite IH, (Hstep pc acc s' Hc Hb).
Qed.
End CursorOrder.

(** ** Backward branches: where and how far *)

Lemma loop_site_shape (data : list byte) (base : Z) (pc : nat) (site : Z * Z * Z) :
  site ∈ loop_site data base pc ->
  site.1.1 = base + Z.of_nat pc /\ (pc + 1 < length data)%nat /\
  1 <= site.2 <= 128 /\ site.1.2 = site.1.1 + 2 - site.2.
Proof.
  unfold loop_site.
  destruct (data !! pc) as [op|]; [|by intros ?%elem_of_nil].
  destruct (data !! (pc + 1)%nat) as [d|] eqn:Hd; [|by intros ?%elem_of_nil].
  apply lookup_lt_Some in Hd.
  destruct (bool_decide _); cbn [andb]; [|by intros ?%elem_of_nil].
  destruct (Z.ltb_spec (twos_complement8 (byte_val d)) 0); [|by intros ?%elem_of_nil].
  intros ->%list_elem_of_singleton. cbn [fst snd].
  pose proof (twos_complement8_range (byte_val d)). lia.
Qed.

Lemma loop_sites_sorted (data : list byte) (base : Z) (l : list nat) :
  StronglySorted lt l ->
  StronglySorted (fun x y : Z * Z * Z => x.1.1 < y.1.1) (flat_map (loop_site data base) l).
Proof.
  induction 1 as [|pc l Hl IH Hpc]; cbn [flat_map]; [constructor|].
  assert (forall site, site ∈ flat_map (loop_site data base) l ->
            base + Z.of_nat pc < site.1.1) as Hlater.
  { intros site Hin. apply list_elem_of_In, in_flat_map in Hin as (pc' & Hpc' & Hin).
    apply list_elem_of_In in Hpc', Hin. apply loop_site_shape in Hin as (-> & _).
    apply (proj1 (Forall_forall _ _) Hpc) in Hpc'. lia. }
  unfold loop_site at 1.
  destruct (data !! pc) as [op|]; [|done].
  destruct (data !! (pc + 1)%nat) as [d|]; [|done].
  destruct (_ && _); [|done]. cbn [app]. constructor; [done|].
  apply Forall_forall. intros site Hin. cbn [fst]. by apply Hlater.
Qed.

(** X11. Every loop site [(A, T, d)] returned by [analyze_main_loop] is a
    branch inside the buffer together with its displacement byte
    ([base <= A] and [A + 1 < base + len]), jumps back by [d] between 1
    and 128 bytes counted from the end of the branch ([T = A + 2 - d]),
    and the sites are listed by strictly ascending address, so no branch
    is listed twice. *)
Theorem loop_sites_bounded_ascending (data : list byte) (base : Z) :
  exists loops,
    Analyze.analyze_main_loop data base = OK loops /\
    Forall (fun site : Z * Z * Z =>
              base <= site.1.1 /\ site.1.1 + 1 < base + Z.of_nat (length data) /\
              1 <= site.2 <= 128 /\ site.1.2 = site.1.1 + 2 - site.2) loops /\
    StronglySorted (fun x y : Z * Z * Z => x.1.1 < y.1.1) loops.
Proof.
  unfold Analyze.analyze_main_loop.
  destruct (scan_total data (Analyze.loop_body data base) [] (loop_body_ok data base))
    as [[pcf loops] Hw].
  rewrite Hw. cbn [bind]. exists loops. split; [done|].
  pose proof (loops_collected data base _ _ _ Hw) as Hall. cbn [snd app] in Hall.
  subst loops. split.
  - apply Forall_forall. intros site Hin.
    apply list_elem_of_In, in_flat_map in Hin as (pc & _ & Hin).
    apply list_elem_of_In, loop_site_shape in Hin as (Ha & Hpc & Hd & Ht). lia.
  - apply loop_sites_sorted.
    apply (iterations_increasing data (Analyze.loop_body data base)).
    intros pc acc s' Hpc Hb.
    destruct (loop_body_ok data base pc acc Hpc) as (s'' & Hb' & Hadv). congruence.
Qed.

(** ** Register accesses, register by register *)

Ltac zcases :=
  repeat match goal with
    | H : context [Z.eqb ?a ?b] |- _ => destruct (Z.eqb_spec a b); try lia
    | H : context [Z.leb ?a ?b] |- _ => destruct (Z.leb_spec a b); try lia
    | |- context [Z.eqb ?a ?b] => destruct (Z.eqb_spec a b); try lia
    | |- context [Z.leb ?a ?b] => destruct (Z.leb_spec a b); try lia
    end.

Ltac operand_cases data pc :=
  let d1 := fresh "d" in let H1 := fresh "Hd" in
  let d2 := fresh "d" in let H2 := fresh "Hd" in
  destruct (data !! (pc + 1)%nat) as [d1|] eqn:H1;
    [pose proof (lookup_lt_Some _ _ _ H1); pose proof (getb_Some _ _ _ H1)
    |pose proof (proj1 (lookup_ge_None _ _) H1)];
  (destruct (data !! (pc + 2)%nat) as [d2|] eqn:H2;
    [pose proof (lookup_lt_Some _ _ _ H2); pose proof (getb_Some _ _ _ H2);
     pose proof (byte_val_range d2)
    |pose proof (proj1 (lookup_ge_None _ _) H2)]).

Ltac guard_cases :=
  repeat match goal with
    | H : context [Nat.ltb ?a ?b] |- _ => destruct (Nat.ltb_spec a b); try lia
    end.

Section IoAccesses.
Import Analyze.
Variable data : list byte.
Variable base : Z.

(** One iteration records the access at the cursor, if any. *)
Lemma io_body_step (pc : nat) (tables : gmap Z (list Z) * gmap Z (list Z))
    (s' : io_state) :
  (pc < length data)%nat ->
  io_body data base (pc, tables) = OK s' ->
  s'.2 = io_step data base tables pc.
Proof.
  intros Hpc Hb. destruct tables as [r w]. unfold io_body in Hb.
  unfold io_step, io_access.
  destruct (getb_lt data pc Hpc) as (op & Hop & Hg). rewrite Hg in Hb. rewrite Hop.
  cbn [bind fst snd] in *.
  operand_cases data pc; zcases; cbn [andb orb] in *; guard_cases;
    repeat match goal with
      | H : getb _ _ = OK _ |- _ => rewrite H in Hb; clear H
      end;
    cbn [bind] in Hb; try rewrite lor_shiftl_8 in Hb by lia;
    apply OK_inj in Hb as <-; reflexivity.
Qed.

Lemma io_tables_fold (sf : io_state) :
  while (in_buffer data) (io_body data base) (S (length data)) (0%nat, (∅, ∅)) = OK sf ->
  sf.2 = foldl (io_step data base) (∅, ∅) (io_cursor data base).
Proof. apply scan_fold. apply io_body_step. Qed.

Lemma nonempty_default {A : Type} (l : list A) : default [] (nonempty l) = l.
Proof. by destruct l. Qed.

Lemma nonempty_snoc {A : Type} (l : list A) (x : A) : nonempty (l ++ [x]) = Some (l ++ [x]).
Proof. by destruct l. Qed.

Lemma note_site_lookup (d : gmap Z (list Z)) (f : Z -> list Z) (reg addr reg' : Z) :
  (forall k, d !! k = nonempty (f k)) ->
  note_site d reg addr !! reg' =
    nonempty (f reg' ++ if bool_decide (reg' = reg) && in_IO_REGS reg then [addr] else []).
Proof.
  intros Hd. unfold note_site, append_site.
  destruct (in_IO_REGS reg); [|by rewrite andb_false_r, app_nil_r].
  rewrite andb_true_r. case_bool_decide as Heq.
  - subst reg'. by rewrite lookup_insert_eq, Hd, nonempty_default, nonempty_snoc.
  - rewrite lookup_insert_ne by done. by rewrite app_nil_r.
Qed.

Lemma io_sites_in_cons (write : bool) (reg : Z) (pc : nat) (l : list nat) :
  io_sites_in data base write reg (pc :: l) =
    (if bool_decide (io_access data pc = Some (write, reg)) && in_IO_REGS reg
     then [base + Z.of_nat pc] else []) ++ io_sites_in data base write reg l.
Proof.
  unfold io_sites_in. destruct (in_IO_REGS reg); [|by rewrite andb_false_r].
  rewrite andb_true_r, filter_cons. by case_bool_decide; case_decide.
Qed.

Lemma io_fold_lookup (l : list nat) (r w : gmap Z (list Z)) (fr fw : Z -> list Z) :
  (forall k, r !! k = nonempty (fr k)) ->
  (forall k, w !! k = nonempty (fw k)) ->
  forall reg,
    (foldl (io_step data base) (r, w) l).1 !! reg
      = nonempty (fr reg ++ io_sites_in data base false reg l) /\
    (foldl (io_step data base) (r, w) l).2 !! reg
      = nonempty (fw reg ++ io_sites_in data base true reg l).
Proof.
  revert r w fr fw. induction l as [|pc l IH]; intros r w fr fw Hr Hw reg.
  { unfold io_sites_in. cbn [foldl fst snd].
    destruct (in_IO_REGS reg); cbn [filter fmap list_fmap]; rewrite ?app_nil_r; auto. }
  cbn [foldl]. rewrite !io_sites_in_cons, !app_assoc. unfold io_step at 2 4.
  destruct (io_access data pc) as [[[|] reg0]|] eqn:Hacc; cbn [fst snd].
  - destruct (IH r (note_site w reg0 (base + Z.of_nat pc)) fr
                (fun k => fw k ++ if bool_decide (k = reg0) && in_IO_REGS reg0
                                  then [base + Z.of_nat pc] else [])
                Hr (fun k => note_site_lookup w fw reg0 _ k Hw) reg) as [-> ->].
    rewrite bool_decide_eq_false_2 by discriminate. cbn [andb]. rewrite app_nil_r.
    split; [done|]. do 3 f_equal.
    destruct (decide (reg = reg0)) as [->|Hne].
    + by rewrite !bool_decide_eq_true_2.
    + rewrite !bool_decide_eq_false_2; [done | congruence | done].
  - destruct (IH (note_site r reg0 (base + Z.of_nat pc)) w
                (fun k => fr k ++ if bool_decide (k = reg0) && in_IO_REGS reg0
                                  then [base + Z.of_nat pc] else [])
                fw (fun k => note_site_lookup r fr reg0 _ k Hr) Hw reg) as [-> ->].
    rewrite (bool_decide_eq_false_2 (Some (false, reg0) = Some (true, reg))) by discriminate.
    cbn [andb]. rewrite app_nil_r.
    split; [|done]. do 3 f_equal.
    destruct (decide (reg = reg0)) as [->|Hne].
    + by rewrite !bool_decide_eq_true_2.
    + rewrite !bool_decide_eq_false_2; [done | congruence | done].
  - destruct (IH r w fr fw Hr Hw reg) as [-> ->].
    rewrite !bool_decide_eq_false_2 by discriminate. cbn [andb]. by rewrite !app_nil_r.
Qed.

Lemma io_sites_sorted (write : bool) (reg : Z) (l : list nat) :
  StronglySorted lt l -> StronglySorted Z.lt (io_sites_in data base write reg l).
Proof.
  unfold io_sites_in. intros Hl. destruct (in_IO_REGS reg); [|constructor].
  induction Hl as [|pc l Hl IH Hpc]; [constructor|].
  rewrite filter_cons. case_decide; [|done]. cbn [fmap list_fmap].
  constructor; [done|]. apply Forall_forall.
  intros a [pc' [-> Hin]]%list_elem_of_fmap. apply list_elem_of_filter in Hin as [_ Hin].
  apply (proj1 (Forall_forall _ _) Hpc) in Hin. lia.
Qed.
End IoAccesses.

(** X12. The two tables of [find_io_accesses] hold, for every register
    that [IO_REGS] names, the addresses of the instructions of the scan
    that read it and that write it, in ascending order, the direction being
    fixed by the opcode; a register never accessed, and an address the table
    does not name, is not a key of either table. *)
Theorem io_accesses_by_register (data : list byte) (base : Z) :
  exists io_reads io_writes,
    Analyze.find_io_accesses data base = OK (io_reads, io_writes) /\
    forall reg,
      io_reads !! reg = nonempty (io_sites data base false reg) /\
      io_writes !! reg = nonempty (io_sites data base true reg) /\
      StronglySorted Z.lt (io_sites data base false reg) /\
      StronglySorted Z.lt (io_sites data base true reg) /\
      (Analyze.IO_REGS !! reg = None ->
       io_reads !! reg = None /\ io_writes !! reg = None).
Proof.
  unfold Analyze.find_io_accesses.
  destruct (scan_total data (Analyze.io_body data base) (∅, ∅) (io_body_ok data base))
    as [[pcf [io_reads io_writes]] Hw].
  rewrite Hw. cbn [bind]. exists io_reads, io_writes. split; [done|].
  pose proof (io_tables_fold data base _ Hw) as Hfold. cbn [snd] in Hfold.
  assert (StronglySorted lt (io_cursor data base)) as Hsorted.
  { apply (iterations_increasing data (Analyze.io_body data base)).
    intros pc acc s' Hpc Hb.
    destruct (io_body_ok data base pc acc Hpc) as (s'' & Hb' & Hadv). congruence. }
  intros reg.
  destruct (io_fold_lookup data base (io_cursor data base) ∅ ∅ (fun _ => []) (fun _ => [])
              (fun k => lookup_empty k) (fun k => lookup_empty k) reg) as [Hr Hwr].
  rewrite <- Hfold in Hr, Hwr. cbn [fst snd app] in Hr, Hwr.
  split; [done|]. split; [done|].
  split; [by apply io_sites_sorted|]. split; [by apply io_sites_sorted|].
  intros Hnone. rewrite Hr, Hwr. unfold io_sites, io_sites_in, Analyze.in_IO_REGS.
  rewrite bool_decide_eq_false_2; [done|]. rewrite Hnone. by intros [? ?].
Qed.

(** [STA] direct to 0x18 ([SCC1]) at 0x9000: a write site of that
    register. *)
Lemma io_accesses_by_register_witness :
  exists io_reads io_writes,
    Analyze.find_io_accesses [xb7; x18] 0x9000 = OK (io_reads, io_writes) /\
    io_reads !! 0x18 = nonempty (io_sites [xb7; x18] 0x9000 false 0x18) /\
    io_writes !! 0x18 = nonempty (io_sites [xb7; x18] 0x9000 true 0x18) /\
    StronglySorted Z.lt (io_sites [xb7; x18] 0x9000 false 0x18) /\
    StronglySorted Z.lt (io_sites [xb7; x18] 0x9000 true 0x18) /\
    (Analyze.IO_REGS !! 0x18 = None ->
     io_reads !! 0x18 = None /\ io_writes !! 0x18 = None).
Proof.
  destruct (io_accesses_by_register [xb7; x18] 0x9000) as (r & w & Hf & Hall).
  exists r, w. split; [exact Hf | exact (Hall 0x18)].
Defined.

(** ** RAM accesses, address by address *)

Section RamUsage.
Import Analyze.
Variable data : list byte.

(** One iteration counts the access at the cursor, if any. *)
Lemma ram_body_step (pc : nat) (counters : gmap Z Z * gmap Z Z) (s' : ram_state) :
  (pc < length data)%nat ->
  ram_body data (pc, counters) = OK s' ->
  s'.2 = ram_step data counters pc.
Proof.
  intros Hpc Hb. destruct counters as [r w]. unfold ram_body in Hb.
  unfold ram_step, ram_access.
  destruct (getb_lt data pc Hpc) as (op & Hop & Hg). rewrite Hg in Hb. rewrite Hop.
  cbn [bind fst snd] in *.
  case_bool_decide as Hin; rewrite !elem_of_cons, elem_of_nil in Hin;
    operand_cases data pc; zcases; cbn [andb orb negb] in *; guard_cases;
    repeat match goal with
      | H : getb _ _ = OK _ |- _ => rewrite H in Hb; clear H
      end;
    cbn [bind] in Hb; try rewrite lor_shiftl_8 in Hb by lia;
    zcases; cbn [andb] in Hb; zcases;
    apply OK_inj in Hb as <-; reflexivity.
Qed.

Lemma ram_counters_fold (sf : ram_state) :
  while (in_buffer data) (ram_body data) (S (length data)) (0%nat, (∅, ∅)) = OK sf ->
  sf.2 = foldl (ram_step data) (∅, ∅) (ram_cursor data).
Proof. apply scan_fold. apply ram_body_step. Qed.

Lemma bump_lookup (d : gmap Z Z) (f : Z -> nat) (ext a : Z) :
  (forall k, d !! k = positive (f k)) ->
  bump d ext !! a = positive (f a + if bool_decide (a = ext) then 1 else 0).
Proof.
  intros Hd. unfold bump. case_bool_decide as Heq.
  - subst a. rewrite lookup_insert_eq, Hd, Nat.add_1_r. cbn [positive].
    f_equal. destruct (f ext); unfold default; cbn [positive from_option id]; lia.
  - rewrite lookup_insert_ne by done. by rewrite Nat.add_0_r.
Qed.

Lemma ram_count_in_cons (write : bool) (a : Z) (pc : nat) (l : list nat) :
  ram_count_in data write a (pc :: l) =
    ((if bool_decide (ram_access data pc = Some (write, a)) then 1 else 0)
     + ram_count_in data write a l)%nat.
Proof.
  unfold ram_count_in. rewrite filter_cons. by case_bool_decide; case_decide.
Qed.

Lemma ram_fold_lookup (l : list nat) (r w : gmap Z Z) (fr fw : Z -> nat) :
  (forall k, r !! k = positive (fr k)) ->
  (forall k, w !! k = positive (fw k)) ->
  forall a,
    (foldl (ram_step data) (r, w) l).1 !! a
      = positive (fr a + ram_count_in data false a l) /\
    (foldl (ram_step data) (r, w) l).2 !! a
      = positive (fw a + ram_count_in data true a l).
Proof.
  revert r w fr fw. induction l as [|pc l IH]; intros r w fr fw Hr Hw a.
  { unfold ram_count_in. cbn [foldl fst snd filter length]. by rewrite !Nat.add_0_r. }
  cbn [foldl]. rewrite !ram_count_in_cons, !Nat.add_assoc. unfold ram_step at 2 4.
  destruct (ram_access data pc) as [[[|] ext]|] eqn:Hacc; cbn [fst snd].
  - destruct (IH r (bump w ext) fr (fun k => fw k + if bool_decide (k = ext) then 1 else 0)%nat
                Hr (fun k => bump_lookup w fw ext k Hw) a) as [-> ->].
    rewrite bool_decide_eq_false_2 by discriminate. rewrite Nat.add_0_r.
    split; [done|]. do 3 f_equal.
    destruct (decide (a = ext)) as [->|Hne].
    + by rewrite !bool_decide_eq_true_2.
    + rewrite !bool_decide_eq_false_2; [done | congruence | done].
  - destruct (IH (bump r ext) w (fun k => fr k + if bool_decide (k = ext) then 1 else 0)%nat
                fw (fun k => bump_lookup r fr ext k Hr) Hw a) as [-> ->].
    rewrite (bool_decide_eq_false_2 (Some (false, ext) = Some (true, a))) by discriminate.
    rewrite Nat.add_0_r. split; [|done]. do 3 f_equal.
    destruct (decide (a = ext)) as [->|Hne].
    + by rewrite !bool_decide_eq_true_2.
    + rewrite !bool_decide_eq_false_2; [done | congruence | done].
  - destruct (IH r w fr fw Hr Hw a) as [-> ->].
    rewrite !bool_decide_eq_false_2 by discriminate. by rewrite !Nat.add_0_r.
Qed.

(** Only addresses of the RAM interval are counted. *)
Lemma ram_access_range (pc : nat) (write : bool) (a : Z) :
  ram_access data pc = Some (write, a) -> 0x0040 <= a <= 0x083F.
Proof.
  unfold ram_access.
  destruct (data !! pc) as [op|]; [|done].
  destruct (data !! (pc + 1)%nat) as [hi|]; [|done].
  destruct (data !! (pc + 2)%nat) as [lo|]; [|done].
  destruct (_ && _) eqn:Hc; [|done]. intros [= _ <-].
  apply andb_true_iff in Hc as [Hc Hhi%Z.leb_le].
  apply andb_true_iff in Hc as [_ Hlo%Z.leb_le]. lia.
Qed.

Lemma ram_count_in_outside (write : bool) (a : Z) (l : list nat) :
  ~ 0x0040 <= a <= 0x083F -> ram_count_in data write a l = 0%nat.
Proof.
  intros Hout. unfold ram_count_in.
  induction l as [|pc l IH]; [done|]. rewrite filter_cons.
  case_decide as Hacc; [|done]. by apply ram_access_range in Hacc.
Qed.
End RamUsage.

(** X13. The two counters of [find_ram_usage] hold, for every address, the
    number of instructions of the scan that read it and that write it
    (a write for opcode 0xC7 only); an address never accessed has no
    counter, every counter present is at least 1, and no address outside
    0x0040..0x083F is ever counted. *)
Theorem ram_usage_counts (data : list byte) :
  exists ram_reads ram_writes,
    Analyze.find_ram_usage data = OK (ram_reads, ram_writes) /\
    forall a,
      ram_reads !! a = positive (ram_count data false a) /\
      ram_writes !! a = positive (ram_count data true a) /\
      (forall n, ram_reads !! a = Some n \/ ram_writes !! a = Some n ->
         1 <= n /\ 0x0040 <= a <= 0x083F).
Proof.
  unfold Analyze.find_ram_usage.
  destruct (scan_total data (Analyze.ram_body data) (∅, ∅) (ram_body_ok data))
    as [[pcf [ram_reads ram_writes]] Hw].
  rewrite Hw. cbn [bind]. exists ram_reads, ram_writes. split; [done|].
  pose proof (ram_counters_fold data _ Hw) as Hfold. cbn [snd] in Hfold.
  intros a.
  destruct (ram_fold_lookup data (ram_cursor data) ∅ ∅ (fun _ => 0%nat) (fun _ => 0%nat)
              (fun k => lookup_empty k) (fun k => lookup_empty k) a) as [Hr Hwr].
  rewrite <- Hfold in Hr, Hwr. cbn [fst snd Nat.add] in Hr, Hwr.
  split; [done|]. split; [done|].
  assert (forall write n, positive (ram_count data write a) = Some n ->
            1 <= n /\ 0x0040 <= a <= 0x083F) as Hpos.
  { intros write n Hn.
    destruct (decide (0x0040 <= a <= 0x083F)) as [Hin|Hout].
    - split; [|done]. destruct (ram_count data write a); [done|].
      injection Hn as <-. lia.
    - unfold ram_count in Hn. by rewrite (ram_count_in_outside data write a _ Hout) in Hn. }
  intros n [Hn|Hn]; [rewrite Hr in Hn | rewrite Hwr in Hn]; eauto.
Qed.

(** [LDA] and [STX] extended to 0x0100, then [STA] extended to 0x0100. *)
Lemma ram_usage_counts_witness :
  exists ram_reads ram_writes,
    Analyze.find_ram_usage [xc6; x01; x00; xcf; x01; x00; xc7; x01; x00]
      = OK (ram_reads, ram_writes) /\
    ram_reads !! 0x0100 = Some 2 /\ ram_writes !! 0x0100 = Some 1 /\
    (1 <= 2 /\ 0x0040 <= 0x0100 <= 0x083F).
Proof.
  destruct (ram_usage_counts [xc6; x01; x00; xcf; x01; x00; xc7; x01; x00])
    as (r & w & Hf & Hall).
  exists r, w. split; [exact Hf|].
  destruct (Hall 0x0100) as (Hr & Hw & Hpos).
  assert (r !! 0x0100 = Some 2) as Hr2 by (rewrite Hr; reflexivity).
  split; [exact Hr2|]. split; [rewrite Hw; reflexivity|].
  exact (Hpos 2 (or_introl Hr2)).
Defined.

(** ** Printable runs *)

Lemma decode_ascii_text (bs : list byte) :
  Forall (fun b => byte_val b < 128) bs -> Analyze.decode_ascii bs = OK (text_of bs).
Proof.
  induction 1 as [|b bs Hb _ IH]; [done|]. cbn [Analyze.decode_ascii text_of foldr].
  destruct (Z.ltb_spec (byte_val b) 128); [|lia]. fold (text_of bs). by rewrite IH.
Qed.

Lemma decode_ignore_text (bs : list byte) :
  Forall (fun b => byte_val b < 128) bs -> DeviceId.decode_ignore bs = text_of bs.
Proof.
  induction 1 as [|b bs Hb _ IH]; [done|]. cbn [DeviceId.decode_ignore text_of foldr].
  destruct (Z.ltb_spec (byte_val b) 128); [|lia]. fold (text_of bs). by rewrite IH.
Qed.

Lemma printable_lt_128 (b : byte) :
  Analyze.printable (byte_val b) = true -> byte_val b < 128.
Proof.
  unfold Analyze.printable. intros [_ H%Z.leb_le]%andb_true_iff. lia.
Qed.

Section Runs.
Variable data : list byte.

Lemma slice_length (i j : nat) :
  (i <= j <= length data)%nat -> length (Analyze.slice data i j) = (j - i)%nat.
Proof. intros Hij. unfold Analyze.slice. rewrite length_take, length_drop. lia. Qed.

Lemma slice_empty (i : nat) : Analyze.slice data i i = [].
Proof. unfold Analyze.slice. by rewrite Nat.sub_diag, take_0. Qed.

Lemma slice_snoc (i j : nat) (b : byte) :
  (i <= j)%nat -> data !! j = Some b ->
  Analyze.slice data i (j + 1) = Analyze.slice data i j ++ [b].
Proof.
  intros Hij Hb. unfold Analyze.slice.
  replace (j + 1 - i)%nat with (S (j - i)) by lia.
  rewrite (take_S_r _ _ b); [done|]. rewrite lookup_drop.
  by replace (i + (j - i))%nat with j by lia.
Qed.

Lemma printable_run_snoc (i j : nat) (b : byte) :
  printable_run data i j -> data !! j = Some b ->
  Analyze.printable (byte_val b) = true -> printable_run data i (j + 1).
Proof.
  intros Hrun Hb Hp k Hk. destruct (decide (k = j)) as [->|]; [by exists b|].
  apply Hrun. lia.
Qed.

(** The run that ends where the scan stands, if there is one, is the run
    in progress. *)
Lemma run_ending_here (start : nat) (cur : list byte) (p : nat) (i : nat) (bs : list byte) :
  in_progress data start cur p ->
  p = length data \/ unprintable_at data p ->
  (i, bs) ∈ emit_run start cur <-> maximal_run data i p /\ bs = Analyze.slice data i p.
Proof.
  intros (Hsp & Hcur & Hrun & Hleft) Hright. split.
  - intros Hin. assert (cur <> []) as Hne by (by intros ->; apply elem_of_nil in Hin).
    assert (emit_run start cur = [(start, cur)]) as He by (by destruct cur).
    rewrite He in Hin. apply list_elem_of_singleton in Hin as [= -> ->].
    split; [|done]. assert (length cur <> 0)%nat as Hlen by (by destruct cur).
    rewrite Hcur, slice_length in Hlen by done. repeat split; (done || lia).
  - intros [((Hip & Hpl) & Hrun' & Hleft' & _) ->].
    assert (i = start) as ->.
    { destruct (Nat.lt_trichotomy i start) as [Hlt|[->|Hgt]]; [|done|].
      - destruct Hleft as [->|(b & Hb & Hnp)]; [lia|].
        destruct (Hrun' (start - 1)%nat) as (b' & Hb' & Hp); [lia|]. congruence.
      - destruct Hleft' as [->|(b & Hb & Hnp)]; [lia|].
        destruct (Hrun (i - 1)%nat) as (b' & Hb' & Hp); [lia|]. congruence. }
    rewrite Hcur. destruct (Analyze.slice data start p) as [|c cur'] eqn:Hs.
    + apply (f_equal length) in Hs. rewrite slice_length in Hs by lia. simpl in Hs. lia.
    + by apply list_elem_of_singleton.
Qed.

(** [runs] lists exactly the maximal printable runs that end at or after
    the position it starts from. *)
Lemma runs_maximal (n : nat) :
  forall p start cur i bs,
    (length data - p = n)%nat ->
    in_progress data start cur p ->
    (i, bs) ∈ runs start cur (drop p data) <->
    exists j, (p <= j)%nat /\ maximal_run data i j /\ bs = Analyze.slice data i j.
Proof.
  induction n as [|n IH]; intros p start cur i bs Hn Hprog;
    pose proof Hprog as (Hsp & Hcur & Hrun & Hleft).
  - rewrite drop_ge by lia. cbn [runs].
    rewrite (run_ending_here start cur p i bs Hprog) by (left; lia). split.
    + intros [Hmax ->]. by exists p.
    + intros (j & Hpj & Hmax & ->).
      assert (j = p) as -> by (destruct Hmax as ((Hij & Hjl) & _); lia). done.
  - destruct (lookup_lt_is_Some_2 data p) as [b Hb]; [lia|].
    rewrite (drop_S data b p Hb). cbn [runs].
    destruct (Analyze.printable (byte_val b)) eqn:Hp.
    + replace (S p) with (p + 1)%nat by lia.
      rewrite (IH (p + 1)%nat start (cur ++ [b]) i bs); [|lia|].
      * split; intros (j & Hpj & Hmax & ->); exists j; (split; [|done]); [lia|].
        destruct (decide (j = p)) as [->|]; [|lia].
        destruct Hmax as (_ & _ & _ & [?|(b' & Hb' & Hnp)]); [lia | congruence].
      * split; [lia|]. split; [by rewrite Hcur, (slice_snoc start p b (proj1 Hsp) Hb)|].
        split; [by apply (printable_run_snoc start p b) | done].
    + rewrite elem_of_app.
      rewrite (run_ending_here start cur p i bs Hprog) by (right; by exists b).
      assert (start + length cur + 1 = p + 1)%nat as ->
        by (rewrite Hcur, slice_length by lia; lia).
      replace (S p) with (p + 1)%nat by lia.
      rewrite (IH (p + 1)%nat (p + 1)%nat [] i bs); [|lia|].
      * split.
        -- intros [[Hmax ->]|(j & Hpj & Hmax & ->)]; [by exists p|].
           exists j. split; [lia | done].
        -- intros (j & Hpj & Hmax & ->). destruct (decide (j = p)) as [->|]; [by left|].
           right. exists j. split; [lia | done].
      * split; [lia|]. split; [by rewrite slice_empty|]. split; [intros k Hk; lia|].
        right. replace (p + 1 - 1)%nat with p by lia. by exists b.
Qed.

(** From position [i] on, past a printable stretch, [runs] carries the
    stretch in its run in progress. *)
Lemma runs_stretch (start : nat) (cur : list byte) (i j : nat) :
  (i <= j <= length data)%nat ->
  printable_run data i j ->
  runs start cur (drop i data) = runs start (cur ++ Analyze.slice data i j) (drop j data).
Proof.
  intros Hij Hrun. remember (j - i)%nat as k eqn:Hk.
  revert i cur Hij Hrun Hk. induction k as [|k IH]; intros i cur Hij Hrun Hk.
  - assert (j = i) as -> by lia. by rewrite slice_empty, app_nil_r.
  - destruct (Hrun i) as (b & Hb & Hp); [lia|].
    rewrite (drop_S data b i Hb). cbn [runs]. rewrite Hp.
    replace (S i) with (i + 1)%nat by lia.
    rewrite (IH (i + 1)%nat (cur ++ [b])); [|lia| |lia].
    + rewrite <- app_assoc. do 2 f_equal. unfold Analyze.slice.
      replace (j - i)%nat with (S (j - (i + 1))) by lia.
      rewrite (drop_S data b i Hb). cbn [take app].
      by replace (S i) with (i + 1)%nat by lia.
    + intros k' Hk'. apply Hrun. lia.
Qed.

(** The inner loop of [find_strings] stops at the end of the buffer or at
    the first byte that is not printable. *)
Lemma run_stop (i : nat) :
  (i <= length data)%nat ->
  exists j, while (Analyze.run_cond data) Analyze.run_body (S (length data)) i = OK j /\
    (i <= j <= length data)%nat /\ printable_run data i j /\
    (j = length data \/ unprintable_at data j).
Proof.
  intros Hi.
  destruct (while_total (Analyze.run_cond data) Analyze.run_body
              (fun j => (i <= j <= length data)%nat /\ printable_run data i j)
              (fun j => length data - j)%nat) with
    (fuel := S (length data)) (s := i) as (j & Hj & [Hij Hrun] & Hexit).
  - intros j [Hij Hrun]. unfold Analyze.run_cond.
    destruct (Nat.ltb_spec j (length data)) as [Hlt|]; [|by eexists].
    destruct (getb_lt data j Hlt) as (b & Hb & ->). cbn [bind].
    eexists. split; [reflexivity|]. intros Hp.
    exists (j + 1)%nat. split; [done|]. split; [|lia].
    split; [lia|]. by apply (printable_run_snoc i j b).
  - split; [lia|]. intros k Hk. lia.
  - lia.
  - exists j. repeat split; [done|lia|lia|done|].
    unfold Analyze.run_cond in Hexit.
    destruct (Nat.ltb_spec j (length data)) as [Hlt|]; [|left; lia].
    destruct (getb_lt data j Hlt) as (b & Hb & Hg). rewrite Hg in Hexit.
    cbn [bind] in Hexit. right. exists b. split; [done | congruence].
Qed.

(** Past a run that stops at [j], the runs that remain are those from
    [j + 1] on. *)
Lemma runs_next (i j : nat) :
  (i <= j <= length data)%nat ->
  printable_run data i j ->
  j = length data \/ unprintable_at data j ->
  runs i [] (drop i data) =
  emit_run i (Analyze.slice data i j) ++ runs (j + 1) [] (drop (j + 1) data).
Proof.
  intros Hij Hrun Hstop. rewrite (runs_stretch i [] i j Hij Hrun). cbn [app].
  destruct Hstop as [->|(b & Hb & Hnp)].
  - rewrite !drop_ge by lia. cbn [runs emit_run]. by rewrite app_nil_r.
  - rewrite (drop_S data b j Hb). cbn [runs]. rewrite Hnp.
    rewrite slice_length by done.
    replace (i + (j - i) + 1)%nat with (j + 1)%nat by lia.
    by replace (S j) with (j + 1)%nat by lia.
Qed.
End Runs.

Section StringsResult.
Variable data : list byte.
Variable base : Z.
Variable min_len : Z.

(** What the outer loop of [find_strings] appends from position [i] on. *)
Lemma str_loop (fuel : nat) :
  forall i strings sf,
    while (Analyze.in_buffer data) (Analyze.str_body data base min_len) fuel (i, strings)
      = OK sf ->
    sf.2 = strings ++ (located base <$> long_runs min_len (runs i [] (drop i data))).
Proof.
  induction fuel as [|fuel IH]; intros i strings sf Hw; [done|].
  cbn [while] in Hw. unfold Analyze.in_buffer at 1 in Hw. cbn [bind fst] in Hw.
  destruct (Nat.ltb_spec i (length data)) as [Hlt|Hge].
  - destruct (getb_lt data i Hlt) as (b & Hb & Hg).
    unfold Analyze.str_body at 1 in Hw. rewrite Hg in Hw. cbn [bind] in Hw.
    destruct (Analyze.printable (byte_val b)) eqn:Hp.
    + destruct (run_stop data i) as (j & Hj & Hij & Hrun & Hstop); [lia|].
      rewrite Hj in Hw. cbn [bind] in Hw.
      assert (i < j)%nat as Hlen.
      { destruct (decide (i = j)) as [<-|]; [|lia].
        destruct Hstop as [->|(b' & Hb' & Hnp)]; [lia | congruence]. }
      rewrite (runs_next data i j Hij Hrun Hstop).
      assert (emit_run i (Analyze.slice data i j) = [(i, Analyze.slice data i j)]) as ->.
      { pose proof (slice_length data i j Hij) as Hs.
        destruct (Analyze.slice data i j); [cbn [length] in Hs; lia | done]. }
      unfold long_runs. rewrite filter_app, fmap_app, app_assoc.
      destruct (Z.leb_spec min_len (Z.of_nat j - Z.of_nat i)) as [Hlong|Hshort].
      * rewrite (decode_ascii_text _ (slice_printable data i j Hrun)) in Hw.
        cbn [bind] in Hw. apply IH in Hw. rewrite Hw. f_equal. f_equal.
        rewrite filter_cons_True, filter_nil; [done|].
        cbn [snd]. rewrite slice_length by done. lia.
      * apply IH in Hw. rewrite Hw. f_equal.
        rewrite filter_cons_False, filter_nil; [by rewrite app_nil_r|].
        cbn [snd]. rewrite slice_length by done. lia.
    + apply IH in Hw. rewrite Hw. f_equal. rewrite (drop_S data b i Hb).
      cbn [runs emit_run app]. rewrite Hp. cbn [length].
      replace (i + 0 + 1)%nat with (i + 1)%nat by lia.
      by replace (S i) with (i + 1)%nat by lia.
  - injection Hw as <-. rewrite drop_ge by lia. cbn [runs emit_run snd].
    by rewrite app_nil_r.
Qed.

(** [find_strings] returns the long printable runs of the buffer, in
    order, each with its address and its text. *)
Lemma find_strings_runs :
  Analyze.find_strings data base min_len
  = OK (located base <$> long_runs min_len (runs 0 [] data)).
Proof.
  destruct (find_strings_ok data base min_len) as [strings Hf]. rewrite Hf.
  unfold Analyze.find_strings in Hf.
  destruct (while _ _ _ _) as [[i strings']|] eqn:Hw; [|done].
  cbn [bind] in Hf. injection Hf as <-. apply str_loop in Hw. cbn [snd app] in Hw.
  by rewrite Hw, drop_0.
Qed.
End StringsResult.

Section Extractors.
Variable min_len : Z.

Lemma printable_Forall_lt_128 (bs : list byte) :
  Forall (fun b => Analyze.printable (byte_val b) = true) bs ->
  Forall (fun b => byte_val b < 128) bs.
Proof.
  intros H. eapply Forall_impl; [exact H|]. intros b. apply printable_lt_128.
Qed.

(** With a positive threshold, the flush of [extract_strings] appends the
    run in progress exactly when it is a long run. *)
Lemma flush_emit (strs : list string) (start : nat) (cur : list byte) :
  1 <= min_len ->
  Forall (fun b => Analyze.printable (byte_val b) = true) cur ->
  DeviceId.flush min_len strs cur
  = strs ++ ((fun r => text_of r.2) <$> long_runs min_len (emit_run start cur)).
Proof.
  intros Hmin Hcur. unfold DeviceId.flush, long_runs. destruct cur as [|c cur].
  - cbn [length emit_run]. destruct (Z.leb_spec min_len (Z.of_nat 0)); [lia|].
    by rewrite filter_nil, app_nil_r.
  - cbn [emit_run]. rewrite (decode_ignore_text _ (printable_Forall_lt_128 _ Hcur)).
    destruct (Z.leb_spec min_len (Z.of_nat (length (c :: cur)))).
    + by rewrite filter_cons_True, filter_nil.
    + rewrite filter_cons_False, filter_nil; [by rewrite app_nil_r|]. cbn [snd]. lia.
Qed.

(** The loop of [extract_strings] and its final flush collect the texts
    of the long runs. *)
Lemma extract_fold :
  1 <= min_len ->
  forall (l : list byte) (strs : list string) (start : nat) (cur : list byte),
    Forall (fun b => Analyze.printable (byte_val b) = true) cur ->
    DeviceId.flush min_len
      (foldl (DeviceId.extract_step min_len) (strs, cur) l).1
      (foldl (DeviceId.extract_step min_len) (strs, cur) l).2
    = strs ++ ((fun r => text_of r.2) <$> long_runs min_len (runs start cur l)).
Proof.
  intros Hmin l. induction l as [|b l IH]; intros strs start cur Hcur.
  - cbn [foldl fst snd runs]. by apply flush_emit.
  - cbn [foldl runs]. unfold DeviceId.extract_step at 2 4.
    change ((32 <=? byte_val b) && (byte_val b <=? 126))
      with (Analyze.printable (byte_val b)).
    destruct (Analyze.printable (byte_val b)) eqn:Hp.
    + apply IH. apply Forall_app. split; [done|]. by apply Forall_singleton.
    + rewrite (IH _ (start + length cur + 1)%nat []) by done.
      rewrite (flush_emit strs start cur Hmin Hcur).
      unfold long_runs. by rewrite filter_app, fmap_app, app_assoc.
Qed.
End Extractors.

(** The long runs that [runs] lists start at increasing offsets, none
    before [start]. *)
Lemma runs_ascending (l : list byte) :
  forall start cur,
    StronglySorted (fun r1 r2 : nat * list byte => (r1.1 < r2.1)%nat) (runs start cur l) /\
    Forall (fun r : nat * list byte => (start <= r.1)%nat) (runs start cur l).
Proof.
  induction l as [|b l IH]; intros start cur.
  - cbn [runs]. destruct cur; cbn [emit_run]; split; repeat constructor.
  - cbn [runs]. destruct (Analyze.printable (byte_val b)); [apply IH|].
    destruct (IH (start + length cur + 1)%nat []) as [Hs Hf].
    destruct cur as [|c cur]; cbn [emit_run app].
    + split; [done|]. eapply Forall_impl; [exact Hf|]. intros r Hr. cbn beta in Hr. lia.
    + split.
      * constructor; [done|]. eapply Forall_impl; [exact Hf|].
        intros r Hr. cbn beta in Hr. cbn [fst]. lia.
      * constructor; [cbn [fst]; lia|]. eapply Forall_impl; [exact Hf|].
        intros r Hr. cbn beta in Hr. lia.
Qed.

(** X14. [find_strings] reports exactly the maximal printable runs of at
    least [min_len] bytes: an entry [(a, s)] is in the result if and only
    if [s] is the text of the bytes [data[i:j]] of a run that no printable
    byte precedes or follows, [j - i >= min_len] and [a = base + i]. *)
Theorem find_strings_maximal_runs (data : list byte) (base min_len : Z) :
  exists strings, Analyze.find_strings data base min_len = OK strings /\
    forall a s, (a, s) ∈ strings <->
      exists i j, maximal_run data i j /\ min_len <= Z.of_nat j - Z.of_nat i /\
        a = base + Z.of_nat i /\ s = text_of (Analyze.slice data i j).
Proof.
  eexists. split; [apply find_strings_runs|]. intros a s.
  assert (forall i bs, (i, bs) ∈ runs 0 [] data <->
            exists j, maximal_run data i j /\ bs = Analyze.slice data i j) as Hruns.
  { intros i bs.
    pose proof (runs_maximal data (length data) 0%nat 0%nat [] i bs) as H.
    rewrite drop_0 in H. rewrite H.
    - split; [intros (j & _ & Hj); by exists j | intros (j & Hj); exists j; split; [lia | done]].
    - lia.
    - split; [lia|]. split; [by rewrite slice_empty|]. split; [intros k Hk; lia | by left]. }
  rewrite list_elem_of_fmap. unfold long_runs. split.
  - intros ([i bs] & [= -> ->] & [Hlen Hin]%list_elem_of_filter). cbn [fst snd] in *.
    apply Hruns in Hin as (j & Hmax & ->). exists i, j.
    pose proof Hmax as (Hij & _). rewrite slice_length in Hlen by lia.
    split; [exact Hmax|]. split; [lia | done].
  - intros (i & j & Hmax & Hlen & -> & ->). exists (i, Analyze.slice data i j).
    split; [done|]. apply list_elem_of_filter. pose proof Hmax as (Hij & _). split.
    + cbn [snd]. rewrite slice_length by lia. lia.
    + apply Hruns. by exists j.
Qed.

(** X15. The two string extractors agree: for a threshold of at least one
    byte, [extract_strings] of [find_device_id.py] returns the texts that
    [find_strings] of [analyze_pdm.py] returns, in the same order. *)
Theorem extract_strings_agrees (data : list byte) (base min_len : Z) :
  1 <= min_len ->
  exists strings, Analyze.find_strings data base min_len = OK strings /\
    DeviceId.extract_strings data min_len = strings.*2.
Proof.
  intros Hmin. eexists. split; [apply find_strings_runs|].
  unfold DeviceId.extract_strings.
  pose proof (extract_fold min_len Hmin data [] 0%nat [] (Forall_nil_2 _)) as Hfold.
  destruct (foldl _ _ _) as [strings current]. cbn [fst snd app] in Hfold.
  rewrite Hfold, <- list_fmap_compose. done.
Qed.

Lemma extract_strings_agrees_witness :
  1 <= 2 /\
  exists strings,
    Analyze.find_strings ["A"; "B"; x00; "C"; xff; "D"; "E"; "F"]%byte 0x8000 2 = OK strings /\
    DeviceId.extract_strings ["A"; "B"; x00; "C"; xff; "D"; "E"; "F"]%byte 2 = strings.*2.
Proof. split; [lia | apply extract_strings_agrees; lia]. Defined.

(** X16. [find_strings] reports its strings by strictly increasing
    address, so no address is reported twice. *)
Theorem find_strings_ascending (data : list byte) (base min_len : Z) :
  exists strings, Analyze.find_strings data base min_len = OK strings /\
    StronglySorted Z.lt strings.*1.
Proof.
  eexists. split; [apply find_strings_runs|].
  destruct (runs_ascending data 0%nat []) as [Hs _]. unfold long_runs.
  induction Hs as [|r l Hs IH Hr]; [constructor|].
  destruct (decide (min_len <= Z.of_nat (length r.2))) as [Hl|Hl].
  - rewrite filter_cons_True by done. cbn [fmap list_fmap]. constructor; [exact IH|].
    apply Forall_fmap, Forall_fmap. apply Forall_forall. intros r' [_ Hin]%list_elem_of_filter.
    rewrite Forall_forall in Hr. specialize (Hr r' Hin). unfold located. cbn [fst compose]. lia.
  - by rewrite filter_cons_False.
Qed.

(** With a threshold of zero or less every flush of [extract_strings]
    appends. *)
Lemma extract_fold_length (min_len : Z) :
  min_len <= 0 ->
  forall (l : list byte) (strs : list string) (cur : list byte),
    length (DeviceId.flush min_len
              (foldl (DeviceId.extract_step min_len) (strs, cur) l).1
              (foldl (DeviceId.extract_step min_len) (strs, cur) l).2)
    = S (length strs
         + length (filter (fun b => Analyze.printable (byte_val b) = false) l))%nat.
Proof.
  intros Hmin.
  assert (forall strs cur, length (DeviceId.flush min_len strs cur) = S (length strs)) as Hflush.
  { intros strs cur. unfold DeviceId.flush.
    destruct (Z.leb_spec min_len (Z.of_nat (length cur))); [|lia].
    rewrite length_app. cbn [length]. lia. }
  intros l. induction l as [|b l IH]; intros strs cur.
  - cbn [foldl fst snd]. rewrite Hflush, filter_nil. cbn [length]. lia.
  - cbn [foldl]. unfold DeviceId.extract_step at 2 4.
    change ((32 <=? byte_val b) && (byte_val b <=? 126))
      with (Analyze.printable (byte_val b)).
    destruct (Analyze.printable (byte_val b)) eqn:Hp.
    + rewrite IH, filter_cons_False; [done | congruence].
    + rewrite IH, Hflush, filter_cons_True by done. cbn [length]. lia.
Qed.

(** X17. With a threshold of zero or less, [extract_strings] appends a
    string, empty or not, at every byte that is not printable and once more
    at the end: its result has one entry more than the buffer has
    non-printable bytes. *)
Theorem extract_strings_nonpositive_threshold (data : list byte) (min_length : Z) :
  min_length <= 0 ->
  length (DeviceId.extract_strings data min_length)
  = S (length (filter (fun b => Analyze.printable (byte_val b) = false) data)).
Proof.
  intros Hmin. unfold DeviceId.extract_strings.
  pose proof (extract_fold_length min_length Hmin data [] []) as Hfold.
  destruct (foldl _ _ _) as [strings current]. exact Hfold.
Qed.

Lemma extract_strings_nonpositive_threshold_witness :
  0 <= 0 /\
  length (DeviceId.extract_strings ["A"; x00; x01; "B"]%byte 0) = 3%nat.
Proof.
  split; [lia|].
  exact (extract_strings_nonpositive_threshold ["A"; x00; x01; "B"]%byte 0 (Z.le_refl 0)).
Defined.
